(** * Cache-impact benchmark: session analyzer, cost projector, tier classifier

    A shallow embedding of [docs/assets/benchmark_analysis.py] and the
    properties its specification states about it.

    Conventions of the embedding:
    - Python [int] is [Z]; Python [float] is an IEEE-754 binary64 value,
      represented with the Standard Library's [spec_float] and computed with
      its correctly rounded operations at [prec = 53], [emax = 1024];
    - a Python exception is an explicit [Raise] result;
    - a parsed JSON value is a [json] tree; a [dict] is the list of its
      key/value pairs in insertion order. *)

From Stdlib Require Import ZArith List Bool String Ascii Lia SpecFloat.
From Stdlib Require Import DecimalString Decimal.
Import ListNotations.
Local Open Scope string_scope.
Local Open Scope list_scope.
Local Open Scope Z_scope.

#[local] Set Warnings "-register-all".

(** ** Exceptions *)

Inductive exn : Type :=
| TypeError | AttributeError | OverflowError | ValueError
| ZeroDivisionError | OSError.

Inductive result (A : Type) : Type :=
| Ok (a : A)
| Raise (e : exn).
Arguments Ok {A} a.
Arguments Raise {A} e.

Definition bind {A B : Type} (r : result A) (k : A -> result B) : result B :=
  match r with
  | Ok a => k a
  | Raise e => Raise e
  end.

Notation "x <- r ;; k" := (bind r (fun x => k))
  (at level 61, r at next level, right associativity).

(** ** Python floats *)

Module F64.

Definition prec : Z := 53.
Definition emax : Z := 1024.

Definition float : Type := spec_float.

Definition fadd : float -> float -> float := SFadd prec emax.
Definition fsub : float -> float -> float := SFsub prec emax.
Definition fmul : float -> float -> float := SFmul prec emax.
Definition fdiv : float -> float -> float := SFdiv prec emax.

(** The integer [z] as an exact (not yet rounded) operand. *)
Definition zfloat (z : Z) : float :=
  match z with
  | Z0 => S754_zero false
  | Zpos p => S754_finite false p 0
  | Zneg p => S754_finite true p 0
  end.

(** Conversion of an integer, rounded to nearest even; numpy's cast of an
    [int64] array element. *)
Definition of_Z (z : Z) : float := binary_normalize prec emax z 0 false.

(** Python's implicit [int -> float] conversion in mixed arithmetic: it raises
    [OverflowError] when the integer is too large for a double. *)
Definition of_int (z : Z) : result float :=
  match of_Z z with
  | S754_infinity _ => Raise OverflowError
  | f => Ok f
  end.

(** A decimal literal [m / 10^k], correctly rounded as the Python parser
    does: both operands are exact, the quotient is rounded once. *)
Definition dec (m : Z) (k : Z) : float := fdiv (zfloat m) (zfloat (10 ^ k)).

(** *** Comparison by value *)

Definition scaled (x : float) (ez : Z) : Z :=
  match x with
  | S754_finite s m e => cond_Zopp s (Zpos m * 2 ^ (e - ez))
  | _ => 0
  end.

Definition expo (x : float) : Z :=
  match x with
  | S754_finite _ _ e => e
  | _ => 0
  end.

(** IEEE comparison: [None] is "unordered" (a NaN operand). Finite operands
    are compared as the numbers they denote, after aligning both mantissas
    on the smaller exponent; on valid binary64 data this is [SFcompare]
    (lemma [fcompare_valid] below). *)
Definition fcompare (x y : float) : option comparison :=
  match x, y with
  | S754_nan, _ | _, S754_nan => None
  | S754_infinity s1, S754_infinity s2 =>
      Some (match s1, s2 with
            | true, false => Lt
            | false, true => Gt
            | _, _ => Eq
            end)
  | S754_infinity s, _ => Some (if s then Lt else Gt)
  | _, S754_infinity s => Some (if s then Gt else Lt)
  | _, _ =>
      let ez := Z.min (expo x) (expo y) in
      Some (Z.compare (scaled x ez) (scaled y ez))
  end.

Definition flt (x y : float) : bool :=
  match fcompare x y with Some Lt => true | _ => false end.
Definition fle (x y : float) : bool :=
  match fcompare x y with Some (Lt | Eq) => true | _ => false end.
Definition fgt (x y : float) : bool := flt y x.
Definition fge (x y : float) : bool := fle y x.

(** The builtins [min(a, b)] and [max(a, b)] on two arguments: the first is
    kept unless the second is strictly smaller (larger). *)
Definition pymin (a b : float) : float := if flt b a then b else a.
Definition pymax (a b : float) : float := if fgt b a then b else a.

(** *** Rounding to an integer *)

(** [m * 2^e] rounded to the nearest integer, ties to even; [m >= 0]. *)
Definition round_half_even (m e : Z) : Z :=
  match e with
  | Zneg p =>
      let d := 2 ^ Zpos p in
      let q := m / d in
      let r := m mod d in
      match Z.compare (2 * r) d with
      | Lt => q
      | Gt => q + 1
      | Eq => if Z.even q then q else q + 1
      end
  | _ => m * 2 ^ e
  end.

(** [round(x)]: [ValueError] on NaN, [OverflowError] on an infinity. *)
Definition py_round (x : float) : result Z :=
  match x with
  | S754_nan => Raise ValueError
  | S754_infinity _ => Raise OverflowError
  | S754_zero _ => Ok 0
  | S754_finite s m e => Ok (cond_Zopp s (round_half_even (Zpos m) e))
  end.

(** [round(x, 1)]: the double nearest to [x] rounded to one decimal place
    (ties of the decimal rounding go to even). *)
Definition py_round1 (x : float) : float :=
  match x with
  | S754_finite s m e =>
      let n := round_half_even (10 * Zpos m) e in
      if n =? 0 then S754_zero s else fdiv (zfloat (cond_Zopp s n)) (zfloat 10)
  | _ => x
  end.

(** [a / b] on two Python ints: the correctly rounded quotient. *)
Definition int_truediv (a b : Z) : result float :=
  if b =? 0 then Raise ZeroDivisionError
  else if a =? 0 then Ok (S754_zero (b <? 0))
  else match fdiv (zfloat a) (zfloat b) with
       | S754_infinity _ => Raise OverflowError
       | f => Ok f
       end.

(** [x / n] with a float [x] and a non-zero int [n]. *)
Definition float_div_int (x : float) (n : Z) : result float :=
  if n =? 0 then Raise ZeroDivisionError
  else d <- of_int n ;; Ok (fdiv x d).

(** *** Literals of the source *)

Definition f0 : float := S754_zero false.
Definition f1 : float := Eval vm_compute in of_Z 1.
Definition f100 : float := Eval vm_compute in of_Z 100.
Definition f1e6 : float := Eval vm_compute in of_Z 1000000.
Definition f0_7 : float := Eval vm_compute in dec 7 1.
Definition f0_3 : float := Eval vm_compute in dec 3 1.
Definition f0_95 : float := Eval vm_compute in dec 95 2.
Definition f0_9 : float := Eval vm_compute in dec 9 1.

End F64.
Import F64.

(** ** Constants *)

Definition SYSTEM_OVERHEAD : Z := 20000.
Definition TIER_TOOL_HEAVY : Z := 40.
Definition TIER_MIXED : Z := 15.

Record pricing : Type := {
  pname : string;
  input : float;
  cache_write : float;
  cache_read : float
}.

Definition PRICING_sonnet : pricing :=
  {| pname := "Sonnet 4"; input := dec 300 2;
     cache_write := dec 375 2; cache_read := dec 30 2 |}.
Definition PRICING_opus : pricing :=
  {| pname := "Opus 4.6"; input := dec 500 2;
     cache_write := dec 625 2; cache_read := dec 50 2 |}.
Definition PRICING_opus_4 : pricing :=
  {| pname := "Opus 4/4.1"; input := dec 1500 2;
     cache_write := dec 1875 2; cache_read := dec 150 2 |}.
Definition PRICING_haiku : pricing :=
  {| pname := "Haiku 4.5"; input := dec 100 2;
     cache_write := dec 125 2; cache_read := dec 10 2 |}.

(** ** Cost modeling *)

Definition cost_per_turn (tokens : Z) (hit_rate : float) (p : pricing)
  : result float :=
  t <- of_int tokens ;;
  let cached := fmul t hit_rate in
  let new := fmul t (fsub f1 hit_rate) in
  Ok (fadd (fmul (fdiv cached f1e6) (cache_read p))
           (fmul (fdiv new f1e6) (cache_write p))).

Definition cold_cost (tokens : Z) (p : pricing) : result float :=
  t <- of_int tokens ;;
  Ok (fmul (fdiv t f1e6) (cache_write p)).

Record CacheCostProjection : Type := {
  turns : list Z;
  no_trim : list float;
  with_trim : list float;
  breakeven : Z
}.

(** [np.arange(1, max_turns + 1)] *)
Definition arange1 (max_turns : Z) : list Z :=
  map (fun i => Z.of_nat i) (seq 1 (Z.to_nat max_turns)).

(** [np.where(mask)[0]]: the positions, from 0, at which the mask holds. *)
Fixpoint where_true (i : Z) (mask : list bool) : list Z :=
  match mask with
  | [] => []
  | b :: rest => if b then i :: where_true (i + 1) rest
                 else where_true (i + 1) rest
  end.

Fixpoint zip_with {A B C : Type} (f : A -> B -> C) (l1 : list A) (l2 : list B)
  : list C :=
  match l1, l2 with
  | a :: r1, b :: r2 => f a b :: zip_with f r1 r2
  | _, _ => []
  end.

Definition project_costs (pre_tokens post_tokens : Z) (p : pricing)
  (hit_rate : float) (max_turns : Z) : result CacheCostProjection :=
  let turns := arange1 max_turns in
  pre_cost <- cost_per_turn pre_tokens hit_rate p ;;
  post_steady <- cost_per_turn post_tokens hit_rate p ;;
  post_first <- cold_cost post_tokens p ;;
  let no_trim := map (fun t => fmul pre_cost (of_Z t)) turns in
  let with_trim :=
    map (fun t => fadd post_first (fmul post_steady (of_Z (t - 1)))) turns in
  let diff := zip_with fsub no_trim with_trim in
  let be_indices := where_true 0 (map (fun d => fge d (of_Z 0)) diff) in
  let breakeven :=
    match be_indices with
    | i :: _ => i + 1
    | [] => max_turns
    end in
  Ok {| turns := turns; no_trim := no_trim; with_trim := with_trim;
        breakeven := breakeven |}.

(** ** Parsed JSON values *)

(** What [json.loads] makes of a document. Numbers are the integers in
    which the logs report byte and token counts; a number written with a
    fraction or an exponent is outside this model. *)
Inductive json : Type :=
| JNull
| JBool (b : bool)
| JInt (z : Z)
| JStr (s : string)
| JArr (items : list json)
| JObj (members : list (string * json)).

Definition dict : Type := list (string * json).

Fixpoint assoc (k : string) (d : dict) : option json :=
  match d with
  | [] => None
  | (k', v) :: rest => if String.eqb k k' then Some v else assoc k rest
  end.

(** [d.get(k)] and [d.get(k, default)] *)
Definition get (d : dict) (k : string) : json :=
  match assoc k d with Some v => v | None => JNull end.
Definition get_default (d : dict) (k : string) (default : json) : json :=
  match assoc k d with Some v => v | None => default end.

(** Truth value of a Python object. *)
Definition truthy (j : json) : bool :=
  match j with
  | JNull => false
  | JBool b => b
  | JInt z => negb (z =? 0)
  | JStr s => negb (String.eqb s "")
  | JArr l => match l with [] => false | _ => true end
  | JObj d => match d with [] => false | _ => true end
  end.

(** [a or b] *)
Definition py_or (a b : json) : json := if truthy a then a else b.

(** [j == "literal"] *)
Definition eq_str (j : json) (s : string) : bool :=
  match j with JStr s' => String.eqb s' s | _ => false end.

Definition is_str (j : json) : bool :=
  match j with JStr _ => true | _ => false end.

Definition strlen (s : string) : Z := Z.of_nat (String.length s).

(** [len(j)]: defined on [str], [list] and [dict] only. *)
Definition py_len (j : json) : result Z :=
  match j with
  | JStr s => Ok (strlen s)
  | JArr l => Ok (Z.of_nat (List.length l))
  | JObj d => Ok (Z.of_nat (List.length d))
  | _ => Raise TypeError
  end.

(** [a + b] on the values a JSON document can hold ([True] counts as 1). *)
Definition py_add (a b : json) : result json :=
  match a, b with
  | JInt x, JInt y => Ok (JInt (x + y))
  | JInt x, JBool y => Ok (JInt (x + Z.b2z y))
  | JBool x, JInt y => Ok (JInt (Z.b2z x + y))
  | JBool x, JBool y => Ok (JInt (Z.b2z x + Z.b2z y))
  | JStr x, JStr y => Ok (JStr (x ++ y))
  | JArr x, JArr y => Ok (JArr (x ++ y))
  | _, _ => Raise TypeError
  end.

(** [j > 0], together with the integer [j] then is: ordering against an
    [int] is defined on numbers only. *)
Definition py_as_int (j : json) : result Z :=
  match j with
  | JInt z => Ok z
  | JBool b => Ok (Z.b2z b)
  | _ => Raise TypeError
  end.

(** *** [json.dumps] *)

Definition dquote : ascii := "034"%char.
Definition backslash : ascii := "092"%char.

Definition hex_digit (n : N) : ascii :=
  ascii_of_N (if (n <? 10)%N then 48 + n else 87 + n)%N.

Definition str1 (c : ascii) : string := String c EmptyString.
Definition str2 (c1 c2 : ascii) : string := String c1 (str1 c2).

(** One character of a string under [ensure_ascii=True]. *)
Definition escape_char (c : ascii) : string :=
  let n := N_of_ascii c in
  if (n =? 34)%N then str2 backslash dquote
  else if (n =? 92)%N then str2 backslash backslash
  else if (n =? 10)%N then str2 backslash "n"
  else if (n =? 13)%N then str2 backslash "r"
  else if (n =? 9)%N then str2 backslash "t"
  else if (n =? 8)%N then str2 backslash "b"
  else if (n =? 12)%N then str2 backslash "f"
  else if ((32 <=? n) && (n <=? 126))%N then str1 c
  else String backslash (String "u" (String "0" (String "0"
         (str2 (hex_digit (n / 16)) (hex_digit (n mod 16)))))).

Fixpoint escape (s : string) : string :=
  match s with
  | EmptyString => EmptyString
  | String c rest => (escape_char c ++ escape rest)%string
  end.

Definition quote (s : string) : string :=
  (str1 dquote ++ escape s ++ str1 dquote)%string.

Fixpoint join (sep : string) (parts : list string) : string :=
  match parts with
  | [] => EmptyString
  | [x] => x
  | x :: rest => (x ++ sep ++ join sep rest)%string
  end.

Definition string_of_Z (z : Z) : string := NilZero.string_of_int (Z.to_int z).

(** Serialization with the given item and key separators. *)
Fixpoint serialize (isep ksep : string) (j : json) : string :=
  match j with
  | JNull => "null"
  | JBool true => "true"
  | JBool false => "false"
  | JInt z => string_of_Z z
  | JStr s => quote s
  | JArr l => ("[" ++ join isep (map (serialize isep ksep) l) ++ "]")%string
  | JObj d =>
      ("{" ++ join isep
                (map (fun kv => quote (fst kv) ++ ksep
                                ++ serialize isep ksep (snd kv)) d)
           ++ "}")%string
  end.

(** [json.dumps(j)] with its default separators. *)
Definition dumps (j : json) : string := serialize ", " ": " j.

(** The same document written without optional blanks, as a log line
    usually carries it. *)
Definition compact (j : json) : string := serialize "," ":" j.

(** [len(json.dumps(j).encode("utf-8"))]; the output is pure ASCII. *)
Definition dumps_bytes (j : json) : Z := strlen (dumps j).

(** ** Session analyzer *)

(** One non-blank line of the log: its text as [line.encode("utf-8")] sees it,
    and what [json.loads] makes of it ([None] when it raises
    [JSONDecodeError]). *)
Record line : Type := {
  raw : string;
  parsed : option json
}.

Definition line_bytes (ln : line) : Z := strlen (raw ln).

(** The running counters of [analyze_session]. *)
Record state : Type := {
  total_bytes : Z;
  tool_result_bytes : Z;
  tool_result_count : Z;
  thinking_bytes : Z;
  thinking_count : Z;
  file_history_bytes : Z;
  file_history_count : Z;
  conversation_bytes : Z;
  tool_use_bytes : Z;
  tool_use_count : Z;
  other_bytes : Z;
  content_chars : Z;
  msg_user : Z;
  msg_assistant : Z;
  last_api_input_tokens : option Z;
  content_chars_at_last_api : Z
}.

Definition init : state :=
  {| total_bytes := 0; tool_result_bytes := 0; tool_result_count := 0;
     thinking_bytes := 0; thinking_count := 0; file_history_bytes := 0;
     file_history_count := 0; conversation_bytes := 0; tool_use_bytes := 0;
     tool_use_count := 0; other_bytes := 0; content_chars := 0;
     msg_user := 0; msg_assistant := 0; last_api_input_tokens := None;
     content_chars_at_last_api := 0 |}.

(** [field += n] for each counter. *)
Definition add_total_bytes (n : Z) (st : state) : state :=
  {| total_bytes := total_bytes st + n;
     tool_result_bytes := tool_result_bytes st;
     tool_result_count := tool_result_count st;
     thinking_bytes := thinking_bytes st;
     thinking_count := thinking_count st;
     file_history_bytes := file_history_bytes st;
     file_history_count := file_history_count st;
     conversation_bytes := conversation_bytes st;
     tool_use_bytes := tool_use_bytes st;
     tool_use_count := tool_use_count st; other_bytes := other_bytes st;
     content_chars := content_chars st; msg_user := msg_user st;
     msg_assistant := msg_assistant st;
     last_api_input_tokens := last_api_input_tokens st;
     content_chars_at_last_api := content_chars_at_last_api st |}.

Definition add_tool_result_bytes (n : Z) (st : state) : state :=
  {| total_bytes := total_bytes st;
     tool_result_bytes := tool_result_bytes st + n;
     tool_result_count := tool_result_count st;
     thinking_bytes := thinking_bytes st;
     thinking_count := thinking_count st;
     file_history_bytes := file_history_bytes st;
     file_history_count := file_history_count st;
     conversation_bytes := conversation_bytes st;
     tool_use_bytes := tool_use_bytes st;
     tool_use_count := tool_use_count st; other_bytes := other_bytes st;
     content_chars := content_chars st; msg_user := msg_user st;
     msg_assistant := msg_assistant st;
     last_api_input_tokens := last_api_input_tokens st;
     content_chars_at_last_api := content_chars_at_last_api st |}.

Definition add_tool_result_count (n : Z) (st : state) : state :=
  {| total_bytes := total_bytes st;
     tool_result_bytes := tool_result_bytes st;
     tool_result_count := tool_result_count st + n;
     thinking_bytes := thinking_bytes st;
     thinking_count := thinking_count st;
     file_history_bytes := file_history_bytes st;
     file_history_count := file_history_count st;
     conversation_bytes := conversation_bytes st;
     tool_use_bytes := tool_use_bytes st;
     tool_use_count := tool_use_count st; other_bytes := other_bytes st;
     content_chars := content_chars st; msg_user := msg_user st;
     msg_assistant := msg_assistant st;
     last_api_input_tokens := last_api_input_tokens st;
     content_chars_at_last_api := content_chars_at_last_api st |}.

Definition add_thinking_bytes (n : Z) (st : state) : state :=
  {| total_bytes := total_bytes st;
     tool_result_bytes := tool_result_bytes st;
     tool_result_count := tool_result_count st;
     thinking_bytes := thinking_bytes st + n;
     thinking_count := thinking_count st;
     file_history_bytes := file_history_bytes st;
     file_history_count := file_history_count st;
     conversation_bytes := conversation_bytes st;
     tool_use_bytes := tool_use_bytes st;
     tool_use_count := tool_use_count st; other_bytes := other_bytes st;
     content_chars := content_chars st; msg_user := msg_user st;
     msg_assistant := msg_assistant st;
     last_api_input_tokens := last_api_input_tokens st;
     content_chars_at_last_api := content_chars_at_last_api st |}.

Definition add_thinking_count (n : Z) (st : state) : state :=
  {| total_bytes := total_bytes st;
     tool_result_bytes := tool_result_bytes st;
     tool_result_count := tool_result_count st;
     thinking_bytes := thinking_bytes st;
     thinking_count := thinking_count st + n;
     file_history_bytes := file_history_bytes st;
     file_history_count := file_history_count st;
     conversation_bytes := conversation_bytes st;
     tool_use_bytes := tool_use_bytes st;
     tool_use_count := tool_use_count st; other_bytes := other_bytes st;
     content_chars := content_chars st; msg_user := msg_user st;
     msg_assistant := msg_assistant st;
     last_api_input_tokens := last_api_input_tokens st;
     content_chars_at_last_api := content_chars_at_last_api st |}.

Definition add_file_history_bytes (n : Z) (st : state) : state :=
  {| total_bytes := total_bytes st;
     tool_result_bytes := tool_result_bytes st;
     tool_result_count := tool_result_count st;
     thinking_bytes := thinking_bytes st;
     thinking_count := thinking_count st;
     file_history_bytes := file_history_bytes st + n;
     file_history_count := file_history_count st;
     conversation_bytes := conversation_bytes st;
     tool_use_bytes := tool_use_bytes st;
     tool_use_count := tool_use_count st; other_bytes := other_bytes st;
     content_chars := content_chars st; msg_user := msg_user st;
     msg_assistant := msg_assistant st;
     last_api_input_tokens := last_api_input_tokens st;
     content_chars_at_last_api := content_chars_at_last_api st |}.

Definition add_file_history_count (n : Z) (st : state) : state :=
  {| total_bytes := total_bytes st;
     tool_result_bytes := tool_result_bytes st;
     tool_result_count := tool_result_count st;
     thinking_bytes := thinking_bytes st;
     thinking_count := thinking_count st;
     file_history_bytes := file_history_bytes st;
     file_history_count := file_history_count st + n;
     conversation_bytes := conversation_bytes st;
     tool_use_bytes := tool_use_bytes st;
     tool_use_count := tool_use_count st; other_bytes := other_bytes st;
     content_chars := content_chars st; msg_user := msg_user st;
     msg_assistant := msg_assistant st;
     last_api_input_tokens := last_api_input_tokens st;
     content_chars_at_last_api := content_chars_at_last_api st |}.

Definition add_conversation_bytes (n : Z) (st : state) : state :=
  {| total_bytes := total_bytes st;
     tool_result_bytes := tool_result_bytes st;
     tool_result_count := tool_result_count st;
     thinking_bytes := thinking_bytes st;
     thinking_count := thinking_count st;
     file_history_bytes := file_history_bytes st;
     file_history_count := file_history_count st;
     conversation_bytes := conversation_bytes st + n;
     tool_use_bytes := tool_use_bytes st;
     tool_use_count := tool_use_count st; other_bytes := other_bytes st;
     content_chars := content_chars st; msg_user := msg_user st;
     msg_assistant := msg_assistant st;
     last_api_input_tokens := last_api_input_tokens st;
     content_chars_at_last_api := content_chars_at_last_api st |}.

Definition add_tool_use_bytes (n : Z) (st : state) : state :=
  {| total_bytes := total_bytes st;
     tool_result_bytes := tool_result_bytes st;
     tool_result_count := tool_result_count st;
     thinking_bytes := thinking_bytes st;
     thinking_count := thinking_count st;
     file_history_bytes := file_history_bytes st;
     file_history_count := file_history_count st;
     conversation_bytes := conversation_bytes st;
     tool_use_bytes := tool_use_bytes st + n;
     tool_use_count := tool_use_count st; other_bytes := other_bytes st;
     content_chars := content_chars st; msg_user := msg_user st;
     msg_assistant := msg_assistant st;
     last_api_input_tokens := last_api_input_tokens st;
     content_chars_at_last_api := content_chars_at_last_api st |}.

Definition add_tool_use_count (n : Z) (st : state) : state :=
  {| total_bytes := total_bytes st;
     tool_result_bytes := tool_result_bytes st;
     tool_result_count := tool_result_count st;
     thinking_bytes := thinking_bytes st;
     thinking_count := thinking_count st;
     file_history_bytes := file_history_bytes st;
     file_history_count := file_history_count st;
     conversation_bytes := conversation_bytes st;
     tool_use_bytes := tool_use_bytes st;
     tool_use_count := tool_use_count st + n; other_bytes := other_bytes st;
     content_chars := content_chars st; msg_user := msg_user st;
     msg_assistant := msg_assistant st;
     last_api_input_tokens := last_api_input_tokens st;
     content_chars_at_last_api := content_chars_at_last_api st |}.

Definition add_other_bytes (n : Z) (st : state) : state :=
  {| total_bytes := total_bytes st;
     tool_result_bytes := tool_result_bytes st;
     tool_result_count := tool_result_count st;
     thinking_bytes := thinking_bytes st;
     thinking_count := thinking_count st;
     file_history_bytes := file_history_bytes st;
     file_history_count := file_history_count st;
     conversation_bytes := conversation_bytes st;
     tool_use_bytes := tool_use_bytes st;
     tool_use_count := tool_use_count st; other_bytes := other_bytes st + n;
     content_chars := content_chars st; msg_user := msg_user st;
     msg_assistant := msg_assistant st;
     last_api_input_tokens := last_api_input_tokens st;
     content_chars_at_last_api := content_chars_at_last_api st |}.

Definition add_content_chars (n : Z) (st : state) : state :=
  {| total_bytes := total_bytes st;
     tool_result_bytes := tool_result_bytes st;
     tool_result_count := tool_result_count st;
     thinking_bytes := thinking_bytes st;
     thinking_count := thinking_count st;
     file_history_bytes := file_history_bytes st;
     file_history_count := file_history_count st;
     conversation_bytes := conversation_bytes st;
     tool_use_bytes := tool_use_bytes st;
     tool_use_count := tool_use_count st; other_bytes := other_bytes st;
     content_chars := content_chars st + n; msg_user := msg_user st;
     msg_assistant := msg_assistant st;
     last_api_input_tokens := last_api_input_tokens st;
     content_chars_at_last_api := content_chars_at_last_api st |}.

Definition add_msg_user (n : Z) (st : state) : state :=
  {| total_bytes := total_bytes st;
     tool_result_bytes := tool_result_bytes st;
     tool_result_count := tool_result_count st;
     thinking_bytes := thinking_bytes st;
     thinking_count := thinking_count st;
     file_history_bytes := file_history_bytes st;
     file_history_count := file_history_count st;
     conversation_bytes := conversation_bytes st;
     tool_use_bytes := tool_use_bytes st;
     tool_use_count := tool_use_count st; other_bytes := other_bytes st;
     content_chars := content_chars st; msg_user := msg_user st + n;
     msg_assistant := msg_assistant st;
     last_api_input_tokens := last_api_input_tokens st;
     content_chars_at_last_api := content_chars_at_last_api st |}.

Definition add_msg_assistant (n : Z) (st : state) : state :=
  {| total_bytes := total_bytes st;
     tool_result_bytes := tool_result_bytes st;
     tool_result_count := tool_result_count st;
     thinking_bytes := thinking_bytes st;
     thinking_count := thinking_count st;
     file_history_bytes := file_history_bytes st;
     file_history_count := file_history_count st;
     conversation_bytes := conversation_bytes st;
     tool_use_bytes := tool_use_bytes st;
     tool_use_count := tool_use_count st; other_bytes := other_bytes st;
     content_chars := content_chars st; msg_user := msg_user st;
     msg_assistant := msg_assistant st + n;
     last_api_input_tokens := last_api_input_tokens st;
     content_chars_at_last_api := content_chars_at_last_api st |}.

Definition set_last_api (v : Z) (st : state) : state :=
  {| total_bytes := total_bytes st;
     tool_result_bytes := tool_result_bytes st;
     tool_result_count := tool_result_count st;
     thinking_bytes := thinking_bytes st;
     thinking_count := thinking_count st;
     file_history_bytes := file_history_bytes st;
     file_history_count := file_history_count st;
     conversation_bytes := conversation_bytes st;
     tool_use_bytes := tool_use_bytes st;
     tool_use_count := tool_use_count st; other_bytes := other_bytes st;
     content_chars := content_chars st; msg_user := msg_user st;
     msg_assistant := msg_assistant st; last_api_input_tokens := Some v;
     content_chars_at_last_api := content_chars st |}.

(** The assignments of the compaction branch: every counter restarts, the
    total from the boundary line itself; [last_api_input_tokens] is not
    assigned. *)
Definition reset (lb : Z) (st : state) : state :=
  {| total_bytes := lb; tool_result_bytes := 0; tool_result_count := 0;
     thinking_bytes := 0; thinking_count := 0; file_history_bytes := 0;
     file_history_count := 0; conversation_bytes := 0; tool_use_bytes := 0;
     tool_use_count := 0; other_bytes := 0; content_chars := 0;
     msg_user := 0; msg_assistant := 0;
     last_api_input_tokens := last_api_input_tokens st;
     content_chars_at_last_api := 0 |}.

(** The per-line byte tallies [tr_b], [sig_b], [tu_b]. *)
Record locals : Type := {
  tr_b : Z;
  sig_b : Z;
  tu_b : Z
}.

Definition is_compaction (d : dict) : bool :=
  eq_str (get d "type") "summary"
  || (eq_str (get d "type") "system"
      && eq_str (get d "subtype") "compact_boundary").

(** The sub-blocks of a tool result's content list. *)
Fixpoint scan_inner (st : state) (inner : list json) : result state :=
  match inner with
  | [] => Ok st
  | ib :: rest =>
      match ib with
      | JObj d =>
          if eq_str (get d "type") "text" then
            n <- py_len (get_default d "text" (JStr "")) ;;
            scan_inner (add_content_chars n st) rest
          else scan_inner st rest
      | _ => scan_inner st rest
      end
  end.

(** One iteration of [for block in content]. *)
Definition scan_block (st : state) (lc : locals) (block : json)
  : result (state * locals) :=
  match block with
  | JObj b =>
      let btype := get b "type" in
      if eq_str btype "tool_result" then
        let lc := {| tr_b := tr_b lc + dumps_bytes block;
                     sig_b := sig_b lc; tu_b := tu_b lc |} in
        let st := add_tool_result_count 1 st in
        match get b "content" with
        | JStr inner => Ok (add_content_chars (strlen inner) st, lc)
        | JArr inner => st' <- scan_inner st inner ;; Ok (st', lc)
        | _ => Ok (st, lc)
        end
      else if eq_str btype "thinking" then
        let '(st, lc) :=
          if truthy (get b "signature") then
            (add_thinking_count 1 st,
             {| tr_b := tr_b lc;
                sig_b := sig_b lc + dumps_bytes (get b "signature");
                tu_b := tu_b lc |})
          else (st, lc) in
        match get b "thinking" with
        | JStr t => Ok (add_content_chars (strlen t) st, lc)
        | _ => Ok (st, lc)
        end
      else if eq_str btype "tool_use" then
        let lc := {| tr_b := tr_b lc; sig_b := sig_b lc;
                     tu_b := tu_b lc + dumps_bytes block |} in
        let st := add_tool_use_count 1 st in
        if truthy (get b "input") then
          Ok (add_content_chars (strlen (dumps (get b "input"))) st, lc)
        else Ok (st, lc)
      else if eq_str btype "text" && is_str (get b "text") then
        match get b "text" with
        | JStr t => Ok (add_content_chars (strlen t) st, lc)
        | _ => Ok (st, lc)
        end
      else Ok (st, lc)
  | _ => Ok (st, lc)
  end.

Fixpoint scan_blocks (st : state) (lc : locals) (content : list json)
  : result (state * locals) :=
  match content with
  | [] => Ok (st, lc)
  | block :: rest =>
      r <- scan_block st lc block ;;
      scan_blocks (fst r) (snd r) rest
  end.

(** The usage report of an assistant record. *)
Definition usage_of (d : dict) : json :=
  let msg := py_or (get d "message") (JObj []) in
  let usage := match msg with JObj m => get m "usage" | _ => JNull end in
  match usage with
  | JNull => get d "usage"
  | _ => usage
  end.

Definition same_as_last (api_input : Z) (last : option Z) : bool :=
  match last with
  | Some v => api_input =? v
  | None => false
  end.

Definition observe_usage (d : dict) (st : state) : result state :=
  match usage_of d with
  | JObj u =>
      match get u "input_tokens" with
      | JNull => Ok st
      | _ =>
          s1 <- py_add (py_or (get u "input_tokens") (JInt 0))
                       (py_or (get u "cache_creation_input_tokens") (JInt 0)) ;;
          s2 <- py_add s1 (py_or (get u "cache_read_input_tokens") (JInt 0)) ;;
          api_input <- py_as_int s2 ;;
          if (0 <? api_input)
             && negb (same_as_last api_input (last_api_input_tokens st))
          then Ok (set_last_api api_input st)
          else Ok st
      end
  | _ => Ok st
  end.

Definition content_of (d : dict) : json :=
  let msg_obj := py_or (get d "message") (JObj []) in
  py_or (match msg_obj with JObj m => get m "content" | _ => JNull end)
        (get d "content").

Definition summary_of (d : dict) : json :=
  py_or (get d "summary")
        (if is_str (get d "content") then get d "content" else JNull).

(** The content inspection of a conversational record and the remainder
    rule that closes it. *)
Definition classify_content (d : dict) (lb : Z) (role : json) (st : state)
  : result state :=
  let content := content_of d in
  let lc0 := {| tr_b := 0; sig_b := 0; tu_b := 0 |} in
  r <- match content with
       | JArr blocks => scan_blocks st lc0 blocks
       | JStr c => Ok (add_content_chars (strlen c) st, lc0)
       | _ => Ok (st, lc0)
       end ;;
  let '(st, lc) := r in
  let st := add_tool_use_bytes (tu_b lc)
              (add_thinking_bytes (sig_b lc)
                 (add_tool_result_bytes (tr_b lc) st)) in
  let accounted := tr_b lc + sig_b lc + tu_b lc in
  if eq_str role "user" || eq_str role "human" || eq_str role "assistant"
  then Ok (add_conversation_bytes (Z.max 0 (lb - accounted)) st)
  else Ok (add_other_bytes (Z.max 0 (lb - accounted)) st).

(** The body of [for line in f], for one non-blank line. *)
Definition step (st : state) (ln : line) : result state :=
  let lb := line_bytes ln in
  match parsed ln with
  | None => Ok (add_other_bytes lb (add_total_bytes lb st))
  | Some (JObj d) =>
      if is_compaction d then
        let st := reset lb st in
        let summary := summary_of d in
        if truthy summary then
          n <- py_len summary ;;
          Ok (add_conversation_bytes lb (add_content_chars n st))
        else Ok st
      else
        let st := add_total_bytes lb st in
        if eq_str (get d "type") "file-history-snapshot" then
          Ok (add_file_history_count 1 (add_file_history_bytes lb st))
        else if eq_str (get d "type") "queue-operation" then
          Ok (add_other_bytes lb st)
        else
          let role := py_or (get d "role") (get d "type") in
          let st := if eq_str role "user" || eq_str role "human"
                    then add_msg_user 1 st else st in
          st <- (if eq_str role "assistant"
                 then observe_usage d (add_msg_assistant 1 st)
                 else Ok st) ;;
          classify_content d lb role st
  | Some _ => Raise AttributeError
  end.

(** The whole loop. *)
Fixpoint run (st : state) (lines : list line) : result state :=
  match lines with
  | [] => Ok st
  | ln :: rest => st' <- step st ln ;; run st' rest
  end.

(** ** Session records *)

Inductive tier_name : Type := tool_heavy | mixed | conversational.

Module SessionData.

Record t : Type := {
  session_id : string;
  project : string;
  estimated_tokens : Z;
  post_trim_tokens : Z;
  reduction_pct : float;
  message_count : Z;
  breakeven_turns : Z;
  cache_miss_penalty : float;
  savings_per_turn : float;
  tool_result_byte_pct : Z;
  tool_result_bytes : Z;
  thinking_bytes : Z;
  file_history_bytes : Z;
  conversation_bytes : Z;
  tool_use_bytes : Z;
  other_bytes : Z;
  total_bytes : Z;
  tool_result_count : Z
}.

Definition tier (self : t) : tier_name :=
  if TIER_TOOL_HEAVY <? tool_result_byte_pct self then tool_heavy
  else if TIER_MIXED <? tool_result_byte_pct self then mixed
  else conversational.

End SessionData.

(** ** The estimates that follow the loop *)

Definition estimate (st : state) : Z :=
  let heuristic := content_chars st / 4 in
  match last_api_input_tokens st with
  | Some api => api + (content_chars st - content_chars_at_last_api st) / 4
  | None => heuristic + SYSTEM_OVERHEAD
  end.

(** [removed]: the weighted removable bytes. *)
Definition removed_bytes (st : state) : result float :=
  tr <- of_int (tool_result_bytes st) ;;
  fh_th <- of_int (file_history_bytes st + thinking_bytes st) ;;
  cnt <- of_int (tool_result_count st * 35) ;;
  tu <- of_int (tool_use_bytes st) ;;
  Ok (fadd (fsub (fadd fh_th (fmul tr f0_7)) cnt) (fmul tu f0_3)).

(** [ratio = max(0.0, min(0.95, removed / total_bytes))] *)
Definition removal_ratio (st : state) : result float :=
  removed <- removed_bytes st ;;
  q <- float_div_int removed (total_bytes st) ;;
  Ok (pymax f0 (pymin f0_95 q)).

Definition post_trim (st : state) (estimated_tokens : Z) : result Z :=
  p <- (if 0 <? total_bytes st then
          ratio <- removal_ratio st ;;
          let content_tok := Z.max 0 (estimated_tokens - SYSTEM_OVERHEAD) in
          ct <- of_int content_tok ;;
          r <- py_round (fmul ct (fsub f1 ratio)) ;;
          Ok (r + SYSTEM_OVERHEAD)
        else Ok estimated_tokens) ;;
  Ok (Z.min p estimated_tokens).

Definition reduction (estimated_tokens post_trim_tokens : Z) : result float :=
  if 0 <? estimated_tokens then
    q <- int_truediv (estimated_tokens - post_trim_tokens) estimated_tokens ;;
    Ok (pymax f0 (py_round1 (fmul q f100)))
  else Ok f0.

Definition tool_result_pct (st : state) : result Z :=
  if 0 <? total_bytes st then
    q <- int_truediv (tool_result_bytes st) (total_bytes st) ;;
    py_round (fmul q f100)
  else Ok 0.

(** A session file as the analyzer meets it: the two components of its path
    that end up in the record, what [os.path.getsize] answers ([None] when
    it raises [OSError]), and its non-blank lines (or the exception that
    opening or reading raises). *)
Record session_file : Type := {
  stem : string;
  parent_name : string;
  getsize : option Z;
  read_lines : result (list line)
}.

(** Everything after the loop. *)
Definition summarize (f : session_file) (st : state)
  : result (option SessionData.t) :=
  if msg_user st + msg_assistant st <? 10 then Ok None
  else
    let estimated_tokens := estimate st in
    post_trim_tokens <- post_trim st estimated_tokens ;;
    reduction_pct <- reduction estimated_tokens post_trim_tokens ;;
    tr_pct <- tool_result_pct st ;;
    Ok (Some
      {| SessionData.session_id := stem f;
         SessionData.project := parent_name f;
         SessionData.estimated_tokens := estimated_tokens;
         SessionData.post_trim_tokens := post_trim_tokens;
         SessionData.reduction_pct := reduction_pct;
         SessionData.message_count := msg_user st + msg_assistant st;
         SessionData.breakeven_turns := 0;
         SessionData.cache_miss_penalty := f0;
         SessionData.savings_per_turn := f0;
         SessionData.tool_result_byte_pct := tr_pct;
         SessionData.tool_result_bytes := tool_result_bytes st;
         SessionData.thinking_bytes := thinking_bytes st;
         SessionData.file_history_bytes := file_history_bytes st;
         SessionData.conversation_bytes := conversation_bytes st;
         SessionData.tool_use_bytes := tool_use_bytes st;
         SessionData.other_bytes := other_bytes st;
         SessionData.total_bytes := total_bytes st;
         SessionData.tool_result_count := tool_result_count st |}).

(** [analyze_session]: [Ok None] is the "not analyzable" answer, [Raise] an
    exception that leaves the function. *)
Definition analyze_session (f : session_file)
  : result (option SessionData.t) :=
  match getsize f with
  | None => Ok None
  | Some size =>
      if size <? 100 then Ok None
      else
        match (lines <- read_lines f ;; run init lines) with
        | Raise _ => Ok None
        | Ok st => summarize f st
        end
  end.

(** ** Standalone mode of [main]: the loop over the discovered files *)

Definition with_costs (p : pricing) (hit_rate : float) (sa : SessionData.t)
  : result SessionData.t :=
  let est := SessionData.estimated_tokens sa in
  let post := SessionData.post_trim_tokens sa in
  proj <- project_costs est post p hit_rate 60 ;;
  cold <- cold_cost post p ;;
  pre <- cost_per_turn est hit_rate p ;;
  pre' <- cost_per_turn est hit_rate p ;;
  steady <- cost_per_turn post hit_rate p ;;
  Ok {| SessionData.session_id := SessionData.session_id sa;
        SessionData.project := SessionData.project sa;
        SessionData.estimated_tokens := est;
        SessionData.post_trim_tokens := post;
        SessionData.reduction_pct := SessionData.reduction_pct sa;
        SessionData.message_count := SessionData.message_count sa;
        SessionData.breakeven_turns := breakeven proj;
        SessionData.cache_miss_penalty := fsub cold pre;
        SessionData.savings_per_turn := fsub pre' steady;
        SessionData.tool_result_byte_pct :=
          SessionData.tool_result_byte_pct sa;
        SessionData.tool_result_bytes := SessionData.tool_result_bytes sa;
        SessionData.thinking_bytes := SessionData.thinking_bytes sa;
        SessionData.file_history_bytes := SessionData.file_history_bytes sa;
        SessionData.conversation_bytes := SessionData.conversation_bytes sa;
        SessionData.tool_use_bytes := SessionData.tool_use_bytes sa;
        SessionData.other_bytes := SessionData.other_bytes sa;
        SessionData.total_bytes := SessionData.total_bytes sa;
        SessionData.tool_result_count := SessionData.tool_result_count sa |}.

Fixpoint analyze_all (p : pricing) (hit_rate : float) (min_tokens : Z)
  (jsonl_files : list session_file) : result (list SessionData.t) :=
  match jsonl_files with
  | [] => Ok []
  | fp :: rest =>
      sa <- analyze_session fp ;;
      here <- match sa with
              | Some sa =>
                  if min_tokens <=? SessionData.estimated_tokens sa then
                    sa' <- with_costs p hit_rate sa ;; Ok [sa']
                  else Ok []
              | None => Ok []
              end ;;
      more <- analyze_all p hit_rate min_tokens rest ;;
      Ok (here ++ more)
  end.

(** ** Ground-truth mode *)

(** One [{bytes, count}] object of a breakdown; an absent key is [None]. *)
Record category : Type := {
  bytes : option Z;
  count : option Z
}.

Record breakdown_t : Type := {
  toolResults : option category;
  thinkingSignatures : option category;
  fileHistory : option category;
  conversation : option category;
  toolUseRequests : option category;
  other : option category
}.

(** One element of the [sessions] array, with the value types the format
    documents; an optional key that is absent is [None]. An element of
    another shape (a mandatory key missing, a value of another type) is
    outside this model: on it the loop raises [KeyError], [TypeError] or
    [AttributeError]. *)
Record entry : Type := {
  sessionId : string;
  project : option string;
  estimatedTokens : Z;
  postTrimTokens : Z;
  reductionPercent : float;
  messageCount : option Z;
  cacheMissPenalty : option float;
  savingsPerTurn : option float;
  toolResultBytePct : option Z;
  totalBytes : option Z;
  breakdown : option breakdown_t
}.

Definition or_default {A : Type} (o : option A) (default : A) : A :=
  match o with Some a => a | None => default end.

(** [bd.get(name, {}).get("bytes", 0)] *)
Definition bytes_of (bd : option breakdown_t)
  (name : breakdown_t -> option category) : Z :=
  match bd with
  | Some b => match name b with Some c => or_default (bytes c) 0 | None => 0 end
  | None => 0
  end.

Definition count_of (bd : option breakdown_t)
  (name : breakdown_t -> option category) : Z :=
  match bd with
  | Some b => match name b with Some c => or_default (count c) 0 | None => 0 end
  | None => 0
  end.

Definition load_entry (p : pricing) (hit_rate : float) (s : entry)
  : result SessionData.t :=
  let bd := breakdown s in
  let tr_bytes := bytes_of bd toolResults in
  let th_bytes := bytes_of bd thinkingSignatures in
  let fh_bytes := bytes_of bd fileHistory in
  let cv_bytes := bytes_of bd conversation in
  let tu_bytes := bytes_of bd toolUseRequests in
  let ot_bytes := bytes_of bd other in
  let total :=
    or_default (totalBytes s)
      (tr_bytes + th_bytes + fh_bytes + cv_bytes + tu_bytes + ot_bytes) in
  let pre_tok := estimatedTokens s in
  let post_tok := postTrimTokens s in
  proj <- project_costs pre_tok post_tok p hit_rate 60 ;;
  Ok {| SessionData.session_id := sessionId s;
        SessionData.project := or_default (project s) "";
        SessionData.estimated_tokens := pre_tok;
        SessionData.post_trim_tokens := post_tok;
        SessionData.reduction_pct := reductionPercent s;
        SessionData.message_count := or_default (messageCount s) 0;
        SessionData.breakeven_turns := breakeven proj;
        SessionData.cache_miss_penalty := or_default (cacheMissPenalty s) f0;
        SessionData.savings_per_turn := or_default (savingsPerTurn s) f0;
        SessionData.tool_result_byte_pct :=
          or_default (toolResultBytePct s) 0;
        SessionData.tool_result_bytes := tr_bytes;
        SessionData.thinking_bytes := th_bytes;
        SessionData.file_history_bytes := fh_bytes;
        SessionData.conversation_bytes := cv_bytes;
        SessionData.tool_use_bytes := tu_bytes;
        SessionData.other_bytes := ot_bytes;
        SessionData.total_bytes := total;
        SessionData.tool_result_count := count_of bd toolResults |}.

Fixpoint load_from_json (sessions : list entry) (p : pricing)
  (hit_rate : float) : result (list SessionData.t) :=
  match sessions with
  | [] => Ok []
  | s :: rest =>
      sd <- load_entry p hit_rate s ;;
      more <- load_from_json rest p hit_rate ;;
      Ok (sd :: more)
  end.

(** ** The parameters [main] derives from the command line *)

(** [PRICING]: the price lists by model key. *)
Definition PRICING : list (string * pricing) :=
  [("sonnet", PRICING_sonnet); ("opus", PRICING_opus);
   ("opus-4", PRICING_opus_4); ("haiku", PRICING_haiku)].

(** [hit_rate = max(0, min(100, args.cache_rate)) / 100] of [main]. *)
Definition hit_rate_of (cache_rate : Z) : result float :=
  int_truediv (Z.max 0 (Z.min 100 cache_rate)) 100.

(** ** Tier analysis *)

(** [round(x, 0)] on a float: the nearest integer, ties to even, as a
    float of the same sign. *)
Definition py_round0 (x : float) : float :=
  match x with
  | S754_finite s m e =>
      let n := round_half_even (Zpos m) e in
      if n =? 0 then S754_zero s
      else binary_normalize prec emax (cond_Zopp s n) 0 false
  | _ => x
  end.

(** [int(x)] on a float: truncation toward zero. *)
Definition py_int (x : float) : result Z :=
  match x with
  | S754_nan => Raise ValueError
  | S754_infinity _ => Raise OverflowError
  | S754_zero _ => Ok 0
  | S754_finite s m e =>
      Ok (cond_Zopp s (match e with
                       | Zneg k => Zpos m / 2 ^ Zpos k
                       | _ => Zpos m * 2 ^ e
                       end))
  end.

(** The builtins [min] and [max] on a non-empty list of floats. *)
Definition py_min_list (first : float) (rest : list float) : float :=
  fold_left pymin rest first.
Definition py_max_list (first : float) (rest : list float) : float :=
  fold_left pymax rest first.

(** The label of a tier in the statistics. *)
Definition tier_long_label (t : tier_name) : string :=
  match t with
  | tool_heavy => "Heavy tool use (>40%)"
  | mixed => "Moderate tool use (15-40%)"
  | conversational => "Light tool use (<15%)"
  end.

Definition tier_eqb (a b : tier_name) : bool :=
  match a, b with
  | tool_heavy, tool_heavy | mixed, mixed
  | conversational, conversational => true
  | _, _ => false
  end.

(** The statistics of a tier that holds at least one session. *)
Record tier_stats : Type := {
  mean_reduction_pct : float;
  median_reduction_pct : float;
  min_reduction_pct : float;
  max_reduction_pct : float;
  mean_breakeven : float;
  median_breakeven : float;
  mean_tokens : Z
}.

(** One value of the dictionary [classify_tiers] returns: the statistics
    keys are present only when the tier is not empty. *)
Record tier_entry : Type := {
  tier_count : Z;
  tier_label_text : string;
  tier_statistics : option tier_stats
}.

Record tier_table : Type := {
  of_tool_heavy : tier_entry;
  of_mixed : tier_entry;
  of_conversational : tier_entry
}.

Section ClassifyTiers.

(** numpy's reductions, as the functions they are to this program:
    of a list of floats, and of a list of Python ints (which may fail to
    convert). *)
Variables (np_mean np_median : list float -> float).
Variables (np_mean_int np_median_int : list Z -> result float).

(** [tiers[t]] after the first loop. *)
Definition tier_sessions (t : tier_name) (sessions : list SessionData.t)
  : list SessionData.t :=
  filter (fun s => tier_eqb (SessionData.tier s) t) sessions.

Definition tier_entry_of (t : tier_name) (members : list SessionData.t)
  : result tier_entry :=
  match members with
  | [] => Ok {| tier_count := 0; tier_label_text := tier_long_label t;
                tier_statistics := None |}
  | s0 :: more =>
      let reds := map SessionData.reduction_pct members in
      let bes := map (fun s => Z.min (SessionData.breakeven_turns s) 100)
                     members in
      let toks := map SessionData.estimated_tokens members in
      mean_be <- np_mean_int bes ;;
      median_be <- np_median_int bes ;;
      mean_tok_f <- np_mean_int toks ;;
      mean_tok <- py_int mean_tok_f ;;
      Ok {| tier_count := Z.of_nat (List.length members);
            tier_label_text := tier_long_label t;
            tier_statistics :=
              Some {| mean_reduction_pct := py_round1 (np_mean reds);
                      median_reduction_pct := py_round1 (np_median reds);
                      min_reduction_pct :=
                        py_round1
                          (py_min_list (SessionData.reduction_pct s0)
                             (map SessionData.reduction_pct more));
                      max_reduction_pct :=
                        py_round1
                          (py_max_list (SessionData.reduction_pct s0)
                             (map SessionData.reduction_pct more));
                      mean_breakeven := py_round0 mean_be;
                      median_breakeven := py_round0 median_be;
                      mean_tokens := mean_tok |} |}
  end.

Definition classify_tiers (sessions : list SessionData.t)
  : result tier_table :=
  th <- tier_entry_of tool_heavy (tier_sessions tool_heavy sessions) ;;
  mx <- tier_entry_of mixed (tier_sessions mixed sessions) ;;
  cv <- tier_entry_of conversational (tier_sessions conversational sessions) ;;
  Ok {| of_tool_heavy := th; of_mixed := mx; of_conversational := cv |}.

End ClassifyTiers.

(** * Auxiliary definitions for the properties *)

(** A record that carries the given percentage and nothing else. *)
Definition record_with_pct (pct : Z) : SessionData.t :=
  {| SessionData.session_id := ""; SessionData.project := "";
     SessionData.estimated_tokens := 0; SessionData.post_trim_tokens := 0;
     SessionData.reduction_pct := f0; SessionData.message_count := 0;
     SessionData.breakeven_turns := 0; SessionData.cache_miss_penalty := f0;
     SessionData.savings_per_turn := f0;
     SessionData.tool_result_byte_pct := pct;
     SessionData.tool_result_bytes := 0; SessionData.thinking_bytes := 0;
     SessionData.file_history_bytes := 0;
     SessionData.conversation_bytes := 0; SessionData.tool_use_bytes := 0;
     SessionData.other_bytes := 0; SessionData.total_bytes := 0;
     SessionData.tool_result_count := 0 |}.

Definition rmap {A B : Type} (f : A -> B) (r : result A) : result B :=
  match r with
  | Ok a => Ok (f a)
  | Raise e => Raise e
  end.

(** A well-formed log line: a document written compactly, and its parse. *)
Definition log_line (j : json) : line :=
  {| raw := compact j; parsed := Some j |}.

(** The seven byte counters: the six categories, then the total. *)
Definition byte_counters (st : state) : Z * Z * Z * Z * Z * Z * Z :=
  (tool_result_bytes st, thinking_bytes st, file_history_bytes st,
   conversation_bytes st, tool_use_bytes st, other_bytes st, total_bytes st).

Definition category_sum (st : state) : Z :=
  tool_result_bytes st + thinking_bytes st + file_history_bytes st
  + conversation_bytes st + tool_use_bytes st + other_bytes st.

Definition is_boundary (ln : line) : bool :=
  match parsed ln with
  | Some (JObj d) => is_compaction d
  | _ => false
  end.

(** The counters right after a compaction boundary of [lb] bytes: [chars]
    content characters, [conv] conversation bytes, the given last API total,
    zero elsewhere. *)
Definition after_boundary (lb chars conv : Z) (last : option Z) : state :=
  {| total_bytes := lb; tool_result_bytes := 0; tool_result_count := 0;
     thinking_bytes := 0; thinking_count := 0; file_history_bytes := 0;
     file_history_count := 0; conversation_bytes := conv;
     tool_use_bytes := 0; tool_use_count := 0; other_bytes := 0;
     content_chars := chars; msg_user := 0; msg_assistant := 0;
     last_api_input_tokens := last; content_chars_at_last_api := 0 |}.

(** An assistant record reporting 1200 input tokens, and a summary record. *)
Definition assistant_1200 : line :=
  log_line (JObj [("type", JStr "assistant");
                  ("message",
                   JObj [("usage", JObj [("input_tokens", JInt 1200)])])]).

Definition summary_recap : line :=
  log_line (JObj [("type", JStr "summary"); ("summary", JStr "recap")]).

Definition compact_marker : line :=
  log_line (JObj [("type", JStr "system");
                  ("subtype", JStr "compact_boundary")]).

(** The state with the two API-observation fields replaced. *)
Definition with_api (api : option Z) (chars_at : Z) (st : state) : state :=
  {| total_bytes := total_bytes st;
     tool_result_bytes := tool_result_bytes st;
     tool_result_count := tool_result_count st;
     thinking_bytes := thinking_bytes st;
     thinking_count := thinking_count st;
     file_history_bytes := file_history_bytes st;
     file_history_count := file_history_count st;
     conversation_bytes := conversation_bytes st;
     tool_use_bytes := tool_use_bytes st;
     tool_use_count := tool_use_count st;
     other_bytes := other_bytes st;
     content_chars := content_chars st;
     msg_user := msg_user st;
     msg_assistant := msg_assistant st;
     last_api_input_tokens := api;
     content_chars_at_last_api := chars_at |}.

(** Two states that agree on every counter but the API-observation fields. *)
Definition same_counters (s1 s2 : state) : Prop :=
  exists api chars_at, s2 = with_api api chars_at s1.

Definition same_outcome (r1 r2 : result state) : Prop :=
  match r1, r2 with
  | Ok s1, Ok s2 => same_counters s1 s2
  | Raise e1, Raise e2 => e1 = e2
  | _, _ => False
  end.

Definition list_sum (l : list Z) : Z := fold_right Z.add 0 l.

(** What one content block adds to [tr_b + sig_b + tu_b]: its own
    re-serialization for a tool result or a tool use, the re-serialization
    of its signature for a signed thinking block. *)
Definition block_bytes (block : json) : Z :=
  match block with
  | JObj b =>
      if eq_str (get b "type") "tool_result" then dumps_bytes block
      else if eq_str (get b "type") "thinking" then
        if truthy (get b "signature") then dumps_bytes (get b "signature")
        else 0
      else if eq_str (get b "type") "tool_use" then dumps_bytes block
      else 0
  | _ => 0
  end.

Definition content_accounted (d : dict) : Z :=
  match content_of d with
  | JArr blocks => list_sum (map block_bytes blocks)
  | _ => 0
  end.

(** [accounted] for the line, zero for a line that never reaches the
    content inspection. *)
Definition accounted_bytes (ln : line) : Z :=
  match parsed ln with
  | Some (JObj d) =>
      if is_compaction d
         || eq_str (get d "type") "file-history-snapshot"
         || eq_str (get d "type") "queue-operation"
      then 0
      else content_accounted d
  | _ => 0
  end.

(** The re-serialized blocks of the line take no more bytes than the line. *)
Definition fits (ln : line) : Prop := accounted_bytes ln <= line_bytes ln.

(** What the scans leave untouched, and the one counter they let grow. *)
Definition scan_frame (s s' : state) : Prop :=
  byte_counters s' = byte_counters s
  /\ msg_user s' = msg_user s
  /\ msg_assistant s' = msg_assistant s
  /\ last_api_input_tokens s' = last_api_input_tokens s
  /\ content_chars_at_last_api s' = content_chars_at_last_api s
  /\ content_chars s <= content_chars s'.

(** The API observation lies behind the character counter, and a recorded
    total is positive. *)
Definition api_inv (st : state) : Prop :=
  0 <= content_chars_at_last_api st <= content_chars st
  /\ (forall api, last_api_input_tokens st = Some api -> 0 < api).

Definition locals_sum (lc : locals) : Z := tr_b lc + sig_b lc + tu_b lc.

Definition msg_count (st : state) : Z := msg_user st + msg_assistant st.

(** A record that the loop counts as a user, human or assistant message. *)
Definition is_turn (ln : line) : bool :=
  match parsed ln with
  | Some (JObj d) =>
      let role := py_or (get d "role") (get d "type") in
      negb (is_compaction d)
      && negb (eq_str (get d "type") "file-history-snapshot")
      && negb (eq_str (get d "type") "queue-operation")
      && (eq_str role "user" || eq_str role "human"
          || eq_str role "assistant")
  | _ => false
  end.

(** The lines that follow the last compaction boundary (all of them when
    there is none). *)
Fixpoint live_segment (lines : list line) : list line :=
  match lines with
  | [] => []
  | ln :: rest =>
      if existsb is_boundary rest then live_segment rest
      else if is_boundary ln then rest
      else ln :: rest
  end.

Definition count_turns (lines : list line) : Z :=
  Z.of_nat (List.length (filter is_turn lines)).

(** Messages since the last compaction boundary; messages in the file. *)
Definition live_turns (lines : list line) : Z :=
  count_turns (live_segment lines).
Definition total_turns (lines : list line) : Z := count_turns lines.

(** A user record whose only block is a tool result holding thirty zeros:
    written compactly it takes 122 bytes, but [json.dumps] spends 126 bytes
    on the block alone, a blank after every separator. *)
Definition bulky_block : json :=
  JObj [("type", JStr "tool_result"); ("content", JArr (repeat (JInt 0) 30))].

Definition bulky_line : line :=
  log_line (JObj [("type", JStr "user"); ("content", JArr [bulky_block])]).

Definition bulky_file : session_file :=
  {| stem := "session"; parent_name := "project";
     getsize := Some 1230; read_lines := Ok (repeat bulky_line 10) |}.

(** The sum of the six category fields of a record. *)
Definition record_category_sum (sd : SessionData.t) : Z :=
  SessionData.tool_result_bytes sd + SessionData.thinking_bytes sd
  + SessionData.file_history_bytes sd + SessionData.conversation_bytes sd
  + SessionData.tool_use_bytes sd + SessionData.other_bytes sd.

(** A plain user message. *)
Definition plain_user : line :=
  log_line (JObj [("type", JStr "user");
                  ("message", JObj [("role", JStr "user");
                                    ("content", JStr "hello")])]).

(** Ten plain user messages. *)
Definition plain_file : session_file :=
  {| stem := "session"; parent_name := "project";
     getsize := Some 600; read_lines := Ok (repeat plain_user 10) |}.

(** Ten plain user messages, then a summary record. *)
Definition compacted_file : session_file :=
  {| stem := "session"; parent_name := "project";
     getsize := Some 637;
     read_lines := Ok (repeat plain_user 10 ++ [summary_recap]) |}.

(** The parse of the file, when the file can be read. *)
Definition parse (f : session_file) : result state :=
  lines <- read_lines f ;; run init lines.

(** An assistant record that reports 1200 input tokens, a summary record,
    then ten user messages. *)
Definition stale_total_file : session_file :=
  {| stem := "session"; parent_name := "project";
     getsize := Some 700;
     read_lines := Ok (assistant_1200 :: summary_recap
                         :: repeat plain_user 10) |}.

(** The same log from its summary record on. *)
Definition recap_file : session_file :=
  {| stem := "session"; parent_name := "project";
     getsize := Some 637;
     read_lines := Ok (summary_recap :: repeat plain_user 10) |}.

(** An assistant record that reports 10^400 input tokens, then ten user
    messages. *)
Definition assistant_huge : line :=
  log_line (JObj [("type", JStr "assistant");
                  ("message",
                   JObj [("usage",
                          JObj [("input_tokens", JInt (10 ^ 400))])])]).

Definition huge_total_file : session_file :=
  {| stem := "session"; parent_name := "project";
     getsize := Some 1060;
     read_lines := Ok (assistant_huge :: repeat plain_user 10) |}.



(** A ground-truth entry whose penalty and savings were computed under
    some other price list. *)
Definition stale_entry : entry :=
  {| sessionId := "s1"; project := None;
     estimatedTokens := 100000; postTrimTokens := 20000;
     reductionPercent := dec 80 0; messageCount := None;
     cacheMissPenalty := Some (dec 5 0); savingsPerTurn := Some (dec 7 0);
     toolResultBytePct := None; totalBytes := None; breakdown := None |}.

(** A ground-truth entry that reports more tokens after the trim than
    before, and a reduction of 150 percent. *)
Definition inflated_entry : entry :=
  {| sessionId := "s2"; project := None;
     estimatedTokens := 1000; postTrimTokens := 2000;
     reductionPercent := dec 150 0; messageCount := None;
     cacheMissPenalty := None; savingsPerTurn := None;
     toolResultBytePct := None; totalBytes := None; breakdown := None |}.

(** Counters of a tool-heavy session: 600000 bytes, of which 400000 in 200
    tool results, 50000 of thinking, 100000 of file history and 20000 of
    tool calls. *)
Definition heavy_state : state :=
  {| total_bytes := 600000; tool_result_bytes := 400000;
     tool_result_count := 200; thinking_bytes := 50000;
     thinking_count := 0; file_history_bytes := 100000;
     file_history_count := 0; conversation_bytes := 30000;
     tool_use_bytes := 20000; tool_use_count := 40; other_bytes := 0;
     content_chars := 0; msg_user := 6; msg_assistant := 6;
     last_api_input_tokens := None;
     content_chars_at_last_api := 0 |}.

(** The cumulative costs at turn [t], as [project_costs] computes them. *)
Definition no_trim_at (pre_cost : float) (t : Z) : float :=
  fmul pre_cost (of_Z t).

Definition with_trim_at (post_first post_steady : float) (t : Z) : float :=
  fadd post_first (fmul post_steady (of_Z (t - 1))).

(** The test [diff >= 0] of [project_costs] at turn [t]. *)
Definition crossing (pre_cost post_first post_steady : float) (t : Z) : bool :=
  fge (fsub (no_trim_at pre_cost t) (with_trim_at post_first post_steady t))
      (of_Z 0).

(** [be] is the first turn of [1..max_turns] at which [test] holds, or
    [max_turns] when it holds at none. *)
Definition first_turn_or_max (test : Z -> bool) (max_turns be : Z) : Prop :=
  1 <= be <= max_turns
  /\ ((test be = true /\ forall t, 1 <= t < be -> test t = false)
      \/ (be = max_turns
          /\ forall t, 1 <= t <= max_turns -> test t = false)).

(** ** Predicates on floats *)

Definition exact_record (r : shr_record) : Prop := shr_r r = false /\ shr_s r = false.

Definition fexp64 (e : Z) : Z := fexp prec emax e.

Definition wv (x : float) : Prop :=
  match x with
  | S754_finite _ m e => Zdigits2 (Zpos m) <= 53 /\ -1074 <= e <= 971
  | _ => True
  end.

Definition signed (s : bool) (x : float) : Prop :=
  match x with
  | S754_zero s' | S754_infinity s' | S754_finite s' _ _ => s' = s
  | S754_nan => False
  end.

(** [x] is zero, or positive with a non-positive exponent and at most [K]. *)
Definition at_most (K : Z) (x : float) : Prop :=
  match x with
  | S754_zero _ => True
  | S754_finite false m e => e <= 0 /\ Zpos m <= K * 2 ^ (- e)
  | _ => False
  end.

Definition canonical (x : float) : Prop :=
  match x with
  | S754_finite _ m e => fexp64 (Zdigits2 (Zpos m) + e) = e
  | _ => True
  end.

Definition is_finite (x : float) : bool :=
  match x with
  | S754_zero _ | S754_finite _ _ _ => true
  | _ => false
  end.

(** A price list with rates of 1e308 per million tokens. *)
Definition huge_pricing : pricing :=
  {| pname := "huge"; input := of_Z (10 ^ 308);
     cache_write := of_Z (10 ^ 308); cache_read := of_Z (10 ^ 308) |}.

(** Counters of a size that no real log reaches the end of. *)
Definition moderate (st : state) : Prop :=
  0 <= tool_result_bytes st < 2 ^ 46
  /\ 0 <= file_history_bytes st + thinking_bytes st < 2 ^ 53
  /\ 0 <= tool_result_count st * 35 < 2 ^ 53
  /\ 0 <= tool_use_bytes st < 2 ^ 53
  /\ total_bytes st < 2 ^ 53
  /\ estimate st < 2 ^ 53.

(** * Auxiliary definitions for the further properties *)

(** ** The live part of a log *)

(** The last compaction boundary of the log and the lines after it; the
    whole log when it has no boundary. *)
Fixpoint since_boundary (lines : list line) : list line :=
  match lines with
  | [] => []
  | ln :: rest =>
      if existsb is_boundary rest then since_boundary rest else ln :: rest
  end.

(** A boundary whose summary is truthy. *)
Definition carries_summary (ln : line) : bool :=
  match parsed ln with
  | Some (JObj d) => truthy (summary_of d)
  | _ => false
  end.

(** What a line adds to the six categories together. *)
Definition attributed (ln : line) : Z :=
  if is_boundary ln then
    if carries_summary ln then line_bytes ln else 0
  else Z.max (accounted_bytes ln) (line_bytes ln).

(** The bytes of the total that no category received: those of a boundary
    without summary that opens the live part of the log. *)
Definition unattributed (lines : list line) : Z :=
  match since_boundary lines with
  | ln :: _ =>
      if is_boundary ln && negb (carries_summary ln) then line_bytes ln else 0
  | [] => 0
  end.

(** ** Invariants of the counters *)

(** No counter is negative. *)
Definition nonneg (st : state) : Prop :=
  0 <= total_bytes st /\ 0 <= tool_result_bytes st
  /\ 0 <= tool_result_count st /\ 0 <= thinking_bytes st
  /\ 0 <= thinking_count st /\ 0 <= file_history_bytes st
  /\ 0 <= file_history_count st /\ 0 <= conversation_bytes st
  /\ 0 <= tool_use_bytes st /\ 0 <= tool_use_count st
  /\ 0 <= other_bytes st /\ 0 <= content_chars st
  /\ 0 <= msg_user st /\ 0 <= msg_assistant st.

Definition nonneg_locals (lc : locals) : Prop :=
  0 <= tr_b lc /\ 0 <= sig_b lc /\ 0 <= tu_b lc.

(** ** Lines that are not records *)

(** A line that holds a JSON value other than an object. *)
Definition stray_null : line := {| raw := "null"; parsed := Some JNull |}.

(** Ten plain user messages, then a line that reads [null]. *)
Definition stray_file : session_file :=
  {| stem := "session"; parent_name := "project";
     getsize := Some 605;
     read_lines := Ok (repeat plain_user 10 ++ [stray_null]) |}.




(** An assistant record that reports its usage, then ten user messages. *)
Definition metered_file : session_file :=
  {| stem := "session"; parent_name := "project";
     getsize := Some 663;
     read_lines := Ok (assistant_1200 :: repeat plain_user 10) |}.

(** ** Costs *)

(** [be] is the first turn at which the trimmed session has cost no more
    than the untrimmed one. *)
Definition saving_turn (pre_cost post_first post_steady : float) (t : Z)
  : bool :=
  fle (with_trim_at post_first post_steady t) (no_trim_at pre_cost t).

(** Token counts that convert to a float: [float(z)] rounds to nearest,
    ties to even, and raises [OverflowError] when that reaches [2^1024],
    which is from [2^1024 - 2^970] on. *)
Definition convertible (z : Z) : Prop := Z.abs z < 2 ^ 1024 - 2 ^ 970.

(** A ground-truth entry with a token count beyond the range of a float. *)
Definition oversized_entry : entry :=
  {| sessionId := "s3"; project := None;
     estimatedTokens := 2 ^ 1024; postTrimTokens := 1000;
     reductionPercent := dec 50 0; messageCount := None;
     cacheMissPenalty := None; savingsPerTurn := None;
     toolResultBytePct := None; totalBytes := None; breakdown := None |}.

(** ** Batches *)

(** A file whose counters stay of moderate size. *)
Definition tame (f : session_file) : Prop :=
  forall lines st,
    read_lines f = Ok lines -> run init lines = Ok st -> moderate st.

(** ** The trimming heuristic *)

(** [x] is positive with a non-positive exponent and at least [b * 2^k]
    ([k <= 0]). *)
Definition at_least (b k : Z) (x : float) : Prop :=
  match x with
  | S754_finite false m e => e <= 0 /\ b * 2 ^ (- e) <= Zpos m * 2 ^ (- k)
  | _ => False
  end.

(** An assistant record reporting 120000 input tokens. *)
Definition assistant_120000 : line :=
  log_line (JObj [("type", JStr "assistant");
                  ("message",
                   JObj [("usage", JObj [("input_tokens", JInt 120000)])])]).

(** A file-history snapshot that outweighs the rest of its log. *)
Definition snapshot : line :=
  log_line (JObj [("type", JStr "file-history-snapshot");
                  ("snapshot", JArr (repeat (JInt 0) (Z.to_nat 8000)))]).

Definition snapshot_file : session_file :=
  {| stem := "session"; parent_name := "project";
     getsize := Some 16711;
     read_lines := Ok (snapshot :: repeat plain_user 10
                         ++ [assistant_120000]) |}.

(** * Lemmas on binary64 arithmetic *)

(** *** Number of binary digits *)
Lemma digits2_pos_log2 : forall p, Zpos (digits2_pos p) = Z.log2 (Zpos p) + 1.
Proof.
  induction p as [p IH | p IH |]; cbn [digits2_pos].
  - rewrite Pos2Z.inj_succ, IH. cbn [Z.log2].
    destruct p; cbn; lia.
  - rewrite Pos2Z.inj_succ, IH. cbn [Z.log2].
    destruct p; cbn; lia.
  - reflexivity.
Qed.

Lemma Zdigits2_log2 : forall m, 0 < m -> Zdigits2 m = Z.log2 m + 1.
Proof.
  intros [| p | p] H; try lia. cbn [Zdigits2]. apply digits2_pos_log2.
Qed.

Lemma Zdigits2_nonneg : forall m, 0 <= Zdigits2 m.
Proof. intros [| p | p]; cbn; lia. Qed.

Lemma Zdigits2_bounds : forall m, 0 < m -> 2 ^ (Zdigits2 m - 1) <= m < 2 ^ Zdigits2 m.
Proof.
  intros m H. rewrite Zdigits2_log2 by exact H.
  replace (Z.log2 m + 1 - 1) with (Z.log2 m) by lia.
  replace (Z.log2 m + 1) with (Z.succ (Z.log2 m)) by lia.
  apply Z.log2_spec. exact H.
Qed.

(** digits is monotone, and characterised by bounds *)
Lemma Zdigits2_le : forall a b, 0 <= a <= b -> Zdigits2 a <= Zdigits2 b.
Proof.
  intros a b [Ha Hab].
  destruct (Z.eq_dec a 0) as [-> | Hne]; [apply Zdigits2_nonneg |].
  rewrite !Zdigits2_log2 by lia.
  pose proof (Z.log2_le_mono a b Hab). lia.
Qed.

Lemma Zdigits2_lt_pow2 : forall m k, 0 <= m -> 0 <= k -> (m < 2 ^ k <-> Zdigits2 m <= k).
Proof.
  intros m k Hm Hk.
  destruct (Z.eq_dec m 0) as [-> | Hne].
  - cbn. split; intros; [lia | apply Z.pow_pos_nonneg; lia].
  - rewrite Zdigits2_log2 by lia.
    split; intros H.
    + apply Z.log2_lt_pow2 in H; lia.
    + apply Z.log2_lt_pow2; lia.
Qed.

Lemma Zdigits2_div_pow2 : forall m n, 0 <= m -> 0 <= n ->
  Zdigits2 (m / 2 ^ n) = Z.max 0 (Zdigits2 m - n).
Proof.
  intros m n Hm Hn.
  destruct (Z.eq_dec m 0) as [-> | Hne].
  - rewrite Z.div_0_l by (apply Z.pow_nonzero; lia). cbn. lia.
  - rewrite <- Z.shiftr_div_pow2 by exact Hn.
    destruct (Z.eq_dec (Z.shiftr m n) 0) as [E | E].
    + rewrite E. cbn [Zdigits2].
      apply Z.shiftr_eq_0_iff in E. destruct E as [E | [_ E]]; [lia |].
      rewrite Zdigits2_log2 by lia. lia.
    + assert (0 <= Z.shiftr m n) by (apply Z.shiftr_nonneg; exact Hm).
      rewrite !Zdigits2_log2 by lia.
      rewrite Z.log2_shiftr by lia.
      assert (~ (Z.log2 m < n)).
      { intros C. apply E. apply Z.shiftr_eq_0; lia. }
      lia.
Qed.

(** *** Shifting a mantissa right, with its sticky bits *)
Lemma iter_pos_nat : forall {A : Type} (f : A -> A) p x,
  iter_pos f p x = Nat.iter (Pos.to_nat p) f x.
Proof.
  intros A f. induction p as [p IH | p IH |]; intros x; cbn [iter_pos].
  - rewrite !IH, Pos2Nat.inj_xI.
    rewrite <- Nat.iter_add.
    replace (S (2 * Pos.to_nat p))%nat with (S (Pos.to_nat p + Pos.to_nat p)) by lia.
    rewrite Nat.iter_succ_r. reflexivity.
  - rewrite !IH, Pos2Nat.inj_xO.
    rewrite <- Nat.iter_add. f_equal. lia.
  - reflexivity.
Qed.

Lemma shr_1_m : forall r, 0 <= shr_m r -> shr_m (shr_1 r) = shr_m r / 2.
Proof.
  intros [m r s] H. cbn [shr_m] in H. unfold shr_1.
  destruct m as [| q | q]; [reflexivity | | lia].
  destruct q as [q | q |]; cbn [shr_m].
  - change (Z.pos q~1) with (2 * Z.pos q + 1).
    apply Z.div_unique with (r := 1); lia.
  - change (Z.pos q~0) with (2 * Z.pos q).
    apply Z.div_unique with (r := 0); lia.
  - reflexivity.
Qed.

Lemma shr_1_exact : forall r c, exact_record r -> shr_m r = 2 * c -> exact_record (shr_1 r).
Proof.
  intros [m r s] c [Hr Hs] Hm. cbn in *. subst r s m.
  destruct c as [| p | p]; cbn; split; reflexivity.
Qed.

Lemma shr_iter_m : forall n r, 0 <= shr_m r ->
  shr_m (Nat.iter n shr_1 r) = shr_m r / 2 ^ Z.of_nat n.
Proof.
  induction n as [| n IH]; intros r H.
  - cbn. rewrite Z.div_1_r. reflexivity.
  - rewrite Nat.iter_succ. rewrite shr_1_m.
    + rewrite IH by exact H. rewrite Nat2Z.inj_succ, Z.pow_succ_r by lia.
      rewrite Z.div_div by (try apply Z.pow_pos_nonneg; lia).
      f_equal. lia.
    + rewrite IH by exact H. apply Z.div_pos; [exact H |].
      apply Z.pow_pos_nonneg; lia.
Qed.

Lemma shr_iter_exact : forall n r c, 0 <= c -> exact_record r ->
  shr_m r = c * 2 ^ Z.of_nat n ->
  exact_record (Nat.iter n shr_1 r) /\ shr_m (Nat.iter n shr_1 r) = c.
Proof.
  induction n as [| n IH]; intros r c Hc He Hm.
  - cbn in *. split; [exact He | lia].
  - rewrite Nat.iter_succ.
    rewrite Nat2Z.inj_succ, Z.pow_succ_r in Hm by lia.
    destruct (IH r (2 * c) ltac:(lia) He ltac:(rewrite Hm; ring))
      as [He' Hm'].
    split.
    + apply (shr_1_exact _ c He' Hm').
    + rewrite shr_1_m by lia. rewrite Hm'.
      rewrite Z.mul_comm. apply Z.div_mul. lia.
Qed.

Lemma rne_exact : forall m, round_nearest_even m loc_Exact = m.
Proof. reflexivity. Qed.

Lemma rne_bounds : forall m l, m <= round_nearest_even m l <= m + 1.
Proof.
  intros m [| []]; cbn; try lia. destruct (Z.even m); lia.
Qed.

Lemma loc_of_exact : forall r, exact_record r -> loc_of_shr_record r = loc_Exact.
Proof. intros [m r s] [Hr Hs]. cbn in *. subst. reflexivity. Qed.

Lemma fexp64_eq : forall e, fexp64 e = Z.max (e - 53) (-1074).
Proof. reflexivity. Qed.

Lemma shr_fexp_spec : forall m e l, 0 <= m ->
  let n := Z.max 0 (fexp64 (Zdigits2 m + e) - e) in
  exists mrs,
    shr_fexp prec emax m e l = (mrs, e + n)
    /\ shr_m mrs = m / 2 ^ n
    /\ (l = loc_Exact -> m mod 2 ^ n = 0 -> loc_of_shr_record mrs = loc_Exact).
Proof.
  intros m e l Hm n. unfold shr_fexp, shr. fold (fexp64 (Zdigits2 m + e)).
  assert (Hrec : shr_m (shr_record_of_loc m l) = m) by (destruct l as [| []]; reflexivity).
  destruct (fexp64 (Zdigits2 m + e) - e) as [| p | p] eqn:Hn; subst n.
  - exists (shr_record_of_loc m l). cbn [Z.max Z.compare].
    rewrite Z.add_0_r, Z.pow_0_r, Z.div_1_r. repeat split; [exact Hrec |].
    intros -> _. reflexivity.
  - exists (iter_pos shr_1 p (shr_record_of_loc m l)).
    replace (Z.max 0 (Z.pos p)) with (Z.pos p) by lia.
    split; [reflexivity |]. rewrite iter_pos_nat. split.
    + rewrite shr_iter_m by (rewrite Hrec; exact Hm).
      rewrite Hrec, positive_nat_Z. reflexivity.
    + intros -> Hmod. apply loc_of_exact.
      eapply (shr_iter_exact _ _ (m / 2 ^ Z.pos p));
        [apply Z.div_pos; [exact Hm | apply Z.pow_pos_nonneg; lia]
        | split; reflexivity |].
      cbn [shr_record_of_loc shr_m]. rewrite positive_nat_Z.
      apply Z.div_exact in Hmod; [lia | apply Z.pow_nonzero; lia].
  - exists (shr_record_of_loc m l).
    replace (Z.max 0 (Z.neg p)) with 0 by lia.
    rewrite Z.add_0_r, Z.pow_0_r, Z.div_1_r. repeat split; [exact Hrec |].
    intros -> _. reflexivity.
Qed.

Lemma bra_spec : forall s m e l, 0 <= m ->
  let n1 := Z.max 0 (fexp64 (Zdigits2 m + e) - e) in
  let e1 := e + n1 in
  exists m1,
    m / 2 ^ n1 <= m1 <= m / 2 ^ n1 + 1
    /\ (l = loc_Exact -> m mod 2 ^ n1 = 0 -> m1 = m / 2 ^ n1)
    /\ let n2 := Z.max 0 (fexp64 (Zdigits2 m1 + e1) - e1) in
       let m2 := m1 / 2 ^ n2 in
       let e2 := e1 + n2 in
       binary_round_aux prec emax s m e l
       = if m2 =? 0 then S754_zero s
         else if e2 <=? emax - prec then S754_finite s (Z.to_pos m2) e2
              else S754_infinity s.
Proof.
  intros s m e l Hm n1 e1.
  destruct (shr_fexp_spec m e l Hm) as (mrs & H1 & Hm1 & Hex1).
  fold n1 in H1, Hm1, Hex1. fold e1 in H1.
  set (m1 := round_nearest_even (shr_m mrs) (loc_of_shr_record mrs)).
  assert (Hdiv : 0 <= m / 2 ^ n1)
    by (apply Z.div_pos; [exact Hm | apply Z.pow_pos_nonneg; lia]).
  exists m1. split; [| split].
  - unfold m1. rewrite <- Hm1. apply rne_bounds.
  - intros Hl Hmod. unfold m1. rewrite (Hex1 Hl Hmod), rne_exact. exact Hm1.
  - intros n2 m2 e2.
    assert (Hm1pos : 0 <= m1).
    { pose proof (rne_bounds (shr_m mrs) (loc_of_shr_record mrs)). unfold m1. lia. }
    destruct (shr_fexp_spec m1 e1 loc_Exact Hm1pos) as (mrs2 & H2 & Hm2 & _).
    fold n2 in H2, Hm2. fold e2 in H2. fold m2 in Hm2.
    unfold binary_round_aux. rewrite H1. fold m1. rewrite H2, Hm2.
    assert (0 <= m2)
      by (apply Z.div_pos; [exact Hm1pos | apply Z.pow_pos_nonneg; lia]).
    destruct m2 as [| p | p]; [reflexivity | | lia].
    cbn [Z.eqb Z.to_pos]. reflexivity.
Qed.

(** *** Shape of rounded results *)

Lemma pow2_pos : forall n, 0 < 2 ^ n \/ n < 0.
Proof. intros n. destruct (Z_lt_le_dec n 0); [right; lia | left; apply Z.pow_pos_nonneg; lia]. Qed.

Lemma bra_wv : forall s m e l, 0 <= m ->
  wv (binary_round_aux prec emax s m e l)
  /\ signed s (binary_round_aux prec emax s m e l).
Proof.
  intros s m e l Hm.
  destruct (bra_spec s m e l Hm) as (m1 & Hb & _ & Heq).
  cbv zeta in Heq. rewrite Heq. clear Heq.
  set (n1 := Z.max 0 (fexp64 (Zdigits2 m + e) - e)) in *.
  set (e1 := e + n1) in *.
  set (n2 := Z.max 0 (fexp64 (Zdigits2 m1 + e1) - e1)).
  assert (H0 : 0 <= m / 2 ^ n1)
    by (apply Z.div_pos; [exact Hm | apply Z.pow_pos_nonneg; lia]).
  assert (Hm1 : 0 <= m1) by lia.
  assert (Hn2 : 0 <= n2) by lia.
  assert (Hm2 : 0 <= m1 / 2 ^ n2)
    by (apply Z.div_pos; [exact Hm1 | apply Z.pow_pos_nonneg; lia]).
  destruct (m1 / 2 ^ n2 =? 0) eqn:Hz; [split; cbn; auto |].
  apply Z.eqb_neq in Hz.
  destruct (e1 + n2 <=? emax - prec) eqn:Hle; [| split; cbn; auto].
  apply Z.leb_le in Hle. unfold emax, prec in Hle.
  split; [| reflexivity]. cbn [wv].
  rewrite Z2Pos.id by lia.
  rewrite Zdigits2_div_pow2 by lia.
  unfold n2 in *. rewrite fexp64_eq in *. lia.
Qed.

(** *** Upper bounds survive rounding *)

Lemma div_pow2_le : forall a K p q, 0 <= p -> 0 <= q -> 0 <= a ->
  a <= K * 2 ^ (p + q) -> a / 2 ^ p <= K * 2 ^ q.
Proof.
  intros a K p q Hp Hq Ha H.
  rewrite Z.pow_add_r in H by lia.
  assert (0 < 2 ^ p) by (apply Z.pow_pos_nonneg; lia).
  apply Z.div_le_upper_bound; [lia |]. lia.
Qed.

Lemma bra_at_most : forall m e l K,
  0 <= m -> 0 < K < 2 ^ 53 -> e <= 0 ->
  m <= K * 2 ^ (- e) ->
  (m = K * 2 ^ (- e) -> l = loc_Exact) ->
  at_most K (binary_round_aux prec emax false m e l).
Proof.
  intros m e l K Hm HK He Hle Hex.
  destruct (bra_spec false m e l Hm) as (m1 & Hb & Hexact & Heq).
  cbv zeta in Heq. rewrite Heq. clear Heq.
  set (n1 := Z.max 0 (fexp64 (Zdigits2 m + e) - e)) in *.
  set (e1 := e + n1) in *.
  set (n2 := Z.max 0 (fexp64 (Zdigits2 m1 + e1) - e1)).
  assert (Hn1 : 0 <= n1) by lia.
  assert (Hpe : 0 < 2 ^ (- e)) by (apply Z.pow_pos_nonneg; lia).
  (* the first shift keeps a non-positive exponent *)
  assert (Hd : Zdigits2 m <= 53 - e).
  { apply Zdigits2_lt_pow2; [lia | lia |].
    replace (53 - e) with (53 + - e) by lia. rewrite Z.pow_add_r by lia. nia. }
  assert (He1 : e1 <= 0).
  { unfold e1, n1. rewrite fexp64_eq. lia. }
  assert (Hp1 : 0 < 2 ^ n1) by (apply Z.pow_pos_nonneg; lia).
  assert (Hpe1 : 0 < 2 ^ (- e1)) by (apply Z.pow_pos_nonneg; lia).
  assert (Hsplit : 2 ^ (- e) = 2 ^ n1 * 2 ^ (- e1)).
  { rewrite <- Z.pow_add_r by lia. f_equal. unfold e1. lia. }
  assert (H0 : 0 <= m / 2 ^ n1) by (apply Z.div_pos; lia).
  assert (Hq : m / 2 ^ n1 <= K * 2 ^ (- e1)).
  { apply div_pow2_le; try lia.
    replace (n1 + - e1) with (- e) by (unfold e1; lia). exact Hle. }
  assert (Hm1 : m1 <= K * 2 ^ (- e1)).
  { destruct (Z.eq_dec (m / 2 ^ n1) (K * 2 ^ (- e1))) as [E | E]; [| lia].
    assert (Hge : K * 2 ^ (- e) <= m).
    { rewrite Hsplit.
      pose proof (Z.mul_div_le m (2 ^ n1) Hp1). rewrite E in H. nia. }
    assert (Hmeq : m = K * 2 ^ (- e)) by lia.
    rewrite Hexact; [lia | apply Hex; exact Hmeq |].
    rewrite Hmeq, Hsplit.
    replace (K * (2 ^ n1 * 2 ^ (- e1))) with (K * 2 ^ (- e1) * 2 ^ n1) by ring.
    apply Z.mod_mul. lia. }
  assert (Hm1pos : 0 <= m1) by lia.
  assert (Hd1 : Zdigits2 m1 <= 53 - e1).
  { apply Zdigits2_lt_pow2; [lia | lia |].
    replace (53 - e1) with (53 + - e1) by lia. rewrite Z.pow_add_r by lia. nia. }
  assert (Hn2 : 0 <= n2) by lia.
  assert (He2 : e1 + n2 <= 0).
  { unfold n2. rewrite fexp64_eq. lia. }
  assert (Hq2 : m1 / 2 ^ n2 <= K * 2 ^ (- (e1 + n2))).
  { apply div_pow2_le; try lia.
    replace (n2 + - (e1 + n2)) with (- e1) by lia. exact Hm1. }
  assert (Hm2 : 0 <= m1 / 2 ^ n2)
    by (apply Z.div_pos; [lia | apply Z.pow_pos_nonneg; lia]).
  destruct (m1 / 2 ^ n2 =? 0) eqn:Hz; [exact I |].
  apply Z.eqb_neq in Hz.
  replace (e1 + n2 <=? emax - prec) with true
    by (symmetry; apply Z.leb_le; unfold emax, prec; lia).
  cbn [at_most]. rewrite Z2Pos.id by lia. split; assumption.
Qed.

Lemma new_location_0 : forall nb, new_location nb 0 = loc_Exact.
Proof.
  intros nb. unfold new_location, new_location_even, new_location_odd.
  destruct (Z.even nb); reflexivity.
Qed.

Lemma div_eucl_div_mod : forall a b q r,
  Z.div_eucl a b = (q, r) -> q = a / b /\ r = a mod b.
Proof.
  intros a b q r H. unfold Z.div, Z.modulo. rewrite H. split; reflexivity.
Qed.

(** The quotient of two positive integers, the smaller on top, is at most 1. *)
Lemma int_truediv_at_most_1 : forall a b q,
  0 <= a <= b -> 0 < b -> int_truediv a b = Ok q -> at_most 1 q.
Proof.
  intros a b q [Ha Hab] Hb H. unfold int_truediv in H.
  destruct (b =? 0) eqn:Hb0; [apply Z.eqb_eq in Hb0; lia |].
  destruct (a =? 0) eqn:Ha0; [injection H as <-; exact I |].
  apply Z.eqb_neq in Ha0.
  assert (Hq : at_most 1 (fdiv (zfloat a) (zfloat b))).
  { destruct a as [| pa | pa]; try lia. destruct b as [| pb | pb]; try lia.
    unfold fdiv, zfloat, SFdiv, SFdiv_core_binary.
    set (e' := Z.min _ _).
    assert (He' : e' <= 0) by (unfold e'; lia).
    set (s := 0 - 0 - e').
    set (m' := match s with Z.pos _ => Z.shiftl (Z.pos pa) s | 0 => Z.pos pa | Z.neg _ => 0 end).
    assert (Hm' : m' = Z.pos pa * 2 ^ s).
    { unfold m'. destruct s as [| ps | ps] eqn:Hs.
      - rewrite Z.pow_0_r. lia.
      - rewrite Z.shiftl_mul_pow2 by lia. reflexivity.
      - unfold s in Hs. lia. }
    clearbody m'.
    destruct (Z.div_eucl m' (Z.pos pb)) as [qq rr] eqn:Hde.
    apply div_eucl_div_mod in Hde. destruct Hde as [-> ->].
    cbn [xorb].
    assert (Hs : 0 <= s) by (unfold s; lia).
    assert (Hps : 0 < 2 ^ s) by (apply Z.pow_pos_nonneg; lia).
    replace (- e') with s in * by (unfold s; lia).
    apply bra_at_most; try lia.
    - apply Z.div_pos; lia.
    - replace (- e') with s by (unfold s; lia).
      apply Z.div_le_upper_bound; [lia |]. subst m'. nia.
    - replace (- e') with s by (unfold s; lia). intros E.
      assert (Z.pos pb * (m' / Z.pos pb) <= m') by (apply Z.mul_div_le; lia).
      assert (Z.pos pa = Z.pos pb) by (subst m'; nia).
      replace (m' mod Z.pos pb) with 0; [apply new_location_0 |].
      symmetry. subst m'. rewrite H1. rewrite Z.mul_comm. apply Z.mod_mul. lia. }
  destruct (fdiv (zfloat a) (zfloat b)); try discriminate;
    injection H as <-; exact Hq.
Qed.

Lemma fmul_f100_at_most : forall q, at_most 1 q -> at_most 100 (fmul q f100).
Proof.
  intros [s | s | | s m e] H; cbn [at_most] in H; try contradiction.
  - exact I.
  - destruct s; [contradiction |]. destruct H as [He Hm].
    unfold fmul, f100, SFmul. cbn [xorb].
    assert (Hp : 0 < 2 ^ (- e)) by (apply Z.pow_pos_nonneg; lia).
    apply bra_at_most; try lia.
    + replace (- (e + -46)) with (46 + - e) by lia.
      rewrite Z.pow_add_r by lia. rewrite Pos2Z.inj_mul.
      change (2 ^ 46) with 70368744177664.
      change (Z.pos 7036874417766400) with (100 * 70368744177664). nia.
    + reflexivity.
Qed.

Lemma round_half_even_bounds : forall m e K,
  0 <= m -> e <= 0 -> m <= K * 2 ^ (- e) ->
  0 <= round_half_even m e <= K.
Proof.
  intros m e K Hm He Hle. unfold round_half_even.
  destruct e as [| p | p]; try lia.
  change (- Z.neg p) with (Z.pos p) in Hle.
  assert (Hd : 0 < 2 ^ Z.pos p) by (apply Z.pow_pos_nonneg; lia).
  pose proof (Z.div_pos m _ Hm Hd) as Hq0.
  pose proof (Z.mod_pos_bound m _ Hd) as Hr.
  pose proof (Z.div_mod m (2 ^ Z.pos p) ltac:(lia)) as Hdm.
  assert (Hq : m / 2 ^ Z.pos p <= K)
    by (apply Z.div_le_upper_bound; [lia | lia]).
  destruct (Z.compare_spec (2 * (m mod 2 ^ Z.pos p)) (2 ^ Z.pos p))
    as [E | L | G].
  - assert (m / 2 ^ Z.pos p < K) by nia.
    destruct (Z.even (m / 2 ^ Z.pos p)); lia.
  - lia.
  - assert (m / 2 ^ Z.pos p < K) by nia. lia.
Qed.

Lemma tenths_le_100 :
  forallb (fun n => fle (fdiv (zfloat n) (zfloat 10)) f100)
          (map Z.of_nat (seq 1 1000)) = true.
Proof. vm_compute. reflexivity. Qed.

Lemma py_round1_le_100 : forall y, at_most 100 y -> fle (py_round1 y) f100 = true.
Proof.
  intros [s | s | | s m e] H; cbn [at_most] in H; try contradiction.
  - destruct s; reflexivity.
  - destruct s; [contradiction |]. destruct H as [He Hm].
    unfold py_round1.
    assert (Hp : 0 < 2 ^ (- e)) by (apply Z.pow_pos_nonneg; lia).
    pose proof (round_half_even_bounds (10 * Z.pos m) e 1000 ltac:(lia) He ltac:(lia)) as Hn.
    destruct (round_half_even (10 * Z.pos m) e =? 0) eqn:Hz; [reflexivity |].
    apply Z.eqb_neq in Hz.
    cbn [cond_Zopp].
    pose proof tenths_le_100 as Hall.
    rewrite forallb_forall in Hall. apply Hall.
    apply in_map_iff. exists (Z.to_nat (round_half_even (10 * Z.pos m) e)).
    split; [lia |]. apply in_seq. lia.
Qed.

(** *** Signs *)

Lemma shl_align_fst : forall m e ez, ez <= e ->
  Zpos (fst (shl_align m e ez)) = Zpos m * 2 ^ (e - ez).
Proof.
  intros m e ez H. unfold shl_align.
  destruct (ez - e) as [| d | d] eqn:Hd; try lia.
  - replace (e - ez) with 0 by lia. cbn [fst]. lia.
  - cbn [fst]. replace (e - ez) with (Z.pos d) by lia.
    change (Pos.iter xO m d) with (Zpower.shift_pos d m).
    rewrite Zpower.shift_pos_correct. change (Z.pow_pos 2 d) with (2 ^ Z.pos d).
    lia.
Qed.

Lemma binary_round_signed : forall s m e,
  wv (binary_round prec emax s m e) /\ signed s (binary_round prec emax s m e).
Proof.
  intros s m e. unfold binary_round.
  destruct (shl_align m e _) as [mz ez]. apply bra_wv. lia.
Qed.

Lemma binary_normalize_nonneg : forall z e,
  0 <= z -> signed false (binary_normalize prec emax z e false).
Proof.
  intros [| p | p] e H; try lia; cbn [binary_normalize].
  - reflexivity.
  - apply binary_round_signed.
Qed.

Lemma of_Z_nonneg : forall z, 0 <= z -> signed false (of_Z z).
Proof. intros z H. apply binary_normalize_nonneg. exact H. Qed.

(** [1 - ratio] is never negative for the clamped ratio. *)
Lemma one_minus_ratio_signed : forall q,
  signed false (fsub f1 (pymax f0 (pymin f0_95 q))).
Proof.
  intros q. unfold pymax, pymin, fgt.
  destruct (flt q f0_95) eqn:H95; [| vm_compute; reflexivity].
  destruct (flt f0 q) eqn:H0; [| vm_compute; reflexivity].
  destruct q as [s | s | | s m e]; try discriminate.
  - destruct s; discriminate.
  - destruct s.
    + unfold flt, fcompare in H0. cbn [expo scaled f0 cond_Zopp] in H0.
      destruct (Z.compare_spec 0 (- (Z.pos m * 2 ^ (e - Z.min 0 e)))) as [E | L | G];
        try discriminate.
      assert (0 < 2 ^ (e - Z.min 0 e)) by (apply Z.pow_pos_nonneg; lia). nia.
    + unfold flt, fcompare, f0_95 in H95. cbn [expo scaled cond_Zopp] in H95.
      destruct (Z.compare_spec (Z.pos m * 2 ^ (e - Z.min e (-53)))
                  (Z.pos 8556839292003942 * 2 ^ (-53 - Z.min e (-53))))
        as [E | L | G]; try discriminate.
      unfold fsub, f1, SFsub. cbn [cond_Zopp].
      apply binary_normalize_nonneg.
      rewrite !shl_align_fst by lia.
      destruct (Z_le_gt_dec e (-53)) as [Hle | Hgt].
      * replace (Z.min e (-53)) with e in L by lia.
        replace (Z.min (-52) e) with e by lia.
        replace (e - e) with 0 in * by lia. rewrite Z.pow_0_r in *.
        replace (-52 - e) with (Z.succ (-53 - e)) by lia.
        rewrite Z.pow_succ_r by lia.
        assert (0 < 2 ^ (-53 - e)) by (apply Z.pow_pos_nonneg; lia).
        nia.
      * replace (Z.min e (-53)) with (-53) in L by lia.
        replace (Z.min (-52) e) with (-52) by lia.
        replace (-53 - -53) with 0 in L by lia. rewrite Z.pow_0_r in L.
        replace (-52 - -52) with 0 by lia. rewrite Z.pow_0_r.
        replace (e - -53) with (Z.succ (e - -52)) in L by lia.
        rewrite Z.pow_succ_r in L by lia.
        assert (0 < 2 ^ (e - -52)) by (apply Z.pow_pos_nonneg; lia).
        nia.
Qed.

Lemma round_half_even_nonneg : forall m e, 0 <= m -> 0 <= round_half_even m e.
Proof.
  intros m e Hm. unfold round_half_even.
  destruct e as [| p | p].
  - lia.
  - assert (0 < 2 ^ Z.pos p) by (apply Z.pow_pos_nonneg; lia). nia.
  - assert (Hd : 0 < 2 ^ Z.pos p) by (apply Z.pow_pos_nonneg; lia).
    pose proof (Z.div_pos m _ Hm Hd).
    destruct (2 * (m mod 2 ^ Z.pos p) ?= 2 ^ Z.pos p);
      [destruct (Z.even (m / 2 ^ Z.pos p)) | |]; lia.
Qed.

Lemma py_round_nonneg : forall x r,
  signed false x -> py_round x = Ok r -> 0 <= r.
Proof.
  intros [s | s | | s m e] r Hs H; cbn in *; try discriminate.
  - injection H as <-. lia.
  - subst s. injection H as <-. cbn. apply round_half_even_nonneg. lia.
Qed.

Lemma fmul_signed : forall a b,
  signed false a -> signed false b ->
  signed false (fmul a b) \/ fmul a b = S754_nan.
Proof.
  intros [sa | sa | | sa ma ea] [sb | sb | | sb mb eb] Ha Hb;
    cbn in Ha, Hb; try contradiction; subst;
    try (left; reflexivity); try (right; reflexivity).
  left. unfold fmul, SFmul. cbn [xorb]. apply bra_wv. lia.
Qed.

Lemma of_int_signed : forall z f, 0 <= z -> of_int z = Ok f -> signed false f.
Proof.
  intros z f Hz H. unfold of_int in H.
  pose proof (of_Z_nonneg z Hz) as Hs.
  destruct (of_Z z); try discriminate; injection H as <-; exact Hs.
Qed.

(** *** Canonical results, and multiplication by one *)

Lemma bra_canonical : forall s m e l,
  0 <= m -> e <= fexp64 (Zdigits2 m + e) ->
  canonical (binary_round_aux prec emax s m e l).
Proof.
  intros s m e l Hm Hpre.
  destruct (bra_spec s m e l Hm) as (m1 & Hb & _ & Heq).
  cbv zeta in Heq. rewrite Heq. clear Heq.
  set (n1 := Z.max 0 (fexp64 (Zdigits2 m + e) - e)) in *.
  set (e1 := e + n1) in *.
  set (n2 := Z.max 0 (fexp64 (Zdigits2 m1 + e1) - e1)).
  assert (Hn1 : 0 <= n1) by lia.
  assert (H0 : 0 <= m / 2 ^ n1)
    by (apply Z.div_pos; [exact Hm | apply Z.pow_pos_nonneg; lia]).
  assert (Hm1 : 0 <= m1) by lia.
  assert (Hn2 : 0 <= n2) by lia.
  assert (Hm2 : 0 <= m1 / 2 ^ n2)
    by (apply Z.div_pos; [exact Hm1 | apply Z.pow_pos_nonneg; lia]).
  destruct (m1 / 2 ^ n2 =? 0) eqn:Hz; [exact I |].
  apply Z.eqb_neq in Hz.
  destruct (e1 + n2 <=? emax - prec); [| exact I].
  cbn [canonical]. rewrite Z2Pos.id by lia.
  pose proof (Zdigits2_div_pow2 m1 n2 Hm1 Hn2) as Hd2.
  assert (Hpos2 : 0 < Zdigits2 (m1 / 2 ^ n2)).
  { rewrite Zdigits2_log2 by lia. pose proof (Z.log2_nonneg (m1 / 2 ^ n2)). lia. }
  pose proof (Zdigits2_div_pow2 m n1 Hm Hn1) as Hd0.
  pose proof (Zdigits2_le (m / 2 ^ n1) m1 ltac:(lia)) as Hmono.
  unfold n2, e1, n1 in *. rewrite !fexp64_eq in *. lia.
Qed.

Lemma Zdigits2_mul_pow2 : forall m k, 0 < m -> 0 <= k ->
  Zdigits2 (m * 2 ^ k) = Zdigits2 m + k.
Proof.
  intros m k Hm Hk.
  assert (0 < 2 ^ k) by (apply Z.pow_pos_nonneg; lia).
  rewrite !Zdigits2_log2 by nia.
  rewrite Z.log2_mul_pow2 by lia. lia.
Qed.

Lemma binary_round_canonical : forall s m e,
  canonical (binary_round prec emax s m e).
Proof.
  intros s m e. unfold binary_round.
  fold (fexp64 (Z.pos (digits2_pos m) + e)).
  change (Z.pos (digits2_pos m)) with (Zdigits2 (Z.pos m)).
  set (ex' := fexp64 (Zdigits2 (Z.pos m) + e)).
  destruct (shl_align m e ex') as [mz ez] eqn:Hs.
  apply bra_canonical; [lia |].
  unfold shl_align in Hs.
  destruct (ex' - e) as [| d | d] eqn:Hd; injection Hs as <- <-.
  - fold ex'. lia.
  - fold ex'. lia.
  - change (Pos.iter xO m d) with (Zpower.shift_pos d m).
    rewrite Zpower.shift_pos_correct. change (Z.pow_pos 2 d) with (2 ^ Z.pos d).
    rewrite Z.mul_comm, Zdigits2_mul_pow2 by lia.
    replace (Zdigits2 (Z.pos m) + Z.pos d + ex') with (Zdigits2 (Z.pos m) + e)
      by lia.
    fold ex'. lia.
Qed.

Lemma of_Z_canonical : forall z, canonical (of_Z z) /\ wv (of_Z z).
Proof.
  intros [| p | p]; unfold of_Z; cbn [binary_normalize].
  - split; exact I.
  - split; [apply binary_round_canonical | apply binary_round_signed].
  - split; [apply binary_round_canonical | apply binary_round_signed].
Qed.

(** Multiplying by 1.0 re-normalizes the representation and keeps the
    value. *)
Lemma fmul_one : forall s m e,
  wv (S754_finite s m e) ->
  let e' := fexp64 (Zdigits2 (Zpos m) + e) in
  e' <= e
  /\ fmul (S754_finite s m e) f1
     = S754_finite s (Z.to_pos (Zpos m * 2 ^ (e - e'))) e'.
Proof.
  intros s m e [Hd He] e'.
  assert (Hd1 : 1 <= Zdigits2 (Z.pos m)).
  { rewrite Zdigits2_log2 by lia. pose proof (Z.log2_nonneg (Z.pos m)). lia. }
  assert (He' : e' <= e) by (unfold e'; rewrite fexp64_eq; lia).
  assert (He'lo : -1074 <= e') by (unfold e'; rewrite fexp64_eq; lia).
  assert (He'52 : e - 52 <= e') by (unfold e'; rewrite fexp64_eq; lia).
  split; [exact He' |].
  unfold fmul, f1, SFmul. rewrite xorb_false_r.
  destruct (bra_spec s (Z.pos (m * 4503599627370496)) (e + -52) loc_Exact
              ltac:(lia)) as (m1 & _ & Hexact & Heq).
  cbv zeta in Heq. rewrite Heq. clear Heq.
  rewrite Pos2Z.inj_mul in *.
  change (Z.pos 4503599627370496) with (2 ^ 52) in *.
  rewrite Zdigits2_mul_pow2 in * by lia.
  replace (Zdigits2 (Z.pos m) + 52 + (e + -52)) with (Zdigits2 (Z.pos m) + e)
    in * by lia.
  fold e' in Hexact |- *.
  set (n1 := Z.max 0 (e' - (e + -52))) in *.
  assert (Hn1 : n1 = e' - e + 52) by (unfold n1; lia).
  assert (Hsplit : Z.pos m * 2 ^ 52 = Z.pos m * 2 ^ (e - e') * 2 ^ n1).
  { rewrite <- Z.mul_assoc, <- Z.pow_add_r by lia. do 2 f_equal. lia. }
  assert (Hp1 : 0 < 2 ^ n1) by (apply Z.pow_pos_nonneg; lia).
  assert (Hpk : 0 < 2 ^ (e - e')) by (apply Z.pow_pos_nonneg; lia).
  assert (Hm1 : m1 = Z.pos m * 2 ^ (e - e')).
  { rewrite Hexact; [| reflexivity |].
    - rewrite Hsplit. apply Z.div_mul. lia.
    - rewrite Hsplit. apply Z.mod_mul. lia. }
  rewrite Hm1.
  rewrite Zdigits2_mul_pow2 by lia.
  replace (Zdigits2 (Z.pos m) + (e - e') + (e + -52 + n1))
    with (Zdigits2 (Z.pos m) + e) by lia.
  fold e'.
  replace (Z.max 0 (e' - (e + -52 + n1))) with 0 by lia.
  rewrite Z.pow_0_r, Z.div_1_r, Z.add_0_r.
  replace (e + -52 + n1) with e' by lia.
  replace (Z.pos m * 2 ^ (e - e') =? 0) with false by (symmetry; apply Z.eqb_neq; nia).
  replace (e' <=? emax - prec) with true
    by (symmetry; apply Z.leb_le; unfold emax, prec; lia).
  reflexivity.
Qed.

Lemma fmul_one_canonical : forall x,
  canonical x -> wv x -> fmul x f1 = x.
Proof.
  intros [s | s | | s m e] Hc Hw; try (destruct s; reflexivity);
    try reflexivity.
  destruct (fmul_one s m e Hw) as [_ H]. cbv zeta in H. rewrite H.
  cbn [canonical] in Hc. rewrite Hc.
  replace (e - e) with 0 by lia. rewrite Z.pow_0_r, Z.mul_1_r.
  reflexivity.
Qed.

(** *** Subtraction and comparison *)

Lemma bra_nonzero : forall s m e l s',
  0 < m -> -1074 <= e ->
  binary_round_aux prec emax s m e l <> S754_zero s'.
Proof.
  intros s m e l s' Hm He.
  destruct (bra_spec s m e l ltac:(lia)) as (m1 & Hb & _ & Heq).
  cbv zeta in Heq. rewrite Heq. clear Heq.
  set (n1 := Z.max 0 (fexp64 (Zdigits2 m + e) - e)) in *.
  set (e1 := e + n1) in *.
  set (n2 := Z.max 0 (fexp64 (Zdigits2 m1 + e1) - e1)).
  assert (Hd : 1 <= Zdigits2 m).
  { rewrite Zdigits2_log2 by lia. pose proof (Z.log2_nonneg m). lia. }
  assert (Hn1 : 0 <= n1 < Zdigits2 m).
  { unfold n1. rewrite fexp64_eq. lia. }
  pose proof (Zdigits2_div_pow2 m n1 ltac:(lia) ltac:(lia)) as Hd0.
  assert (H0 : 0 <= m / 2 ^ n1)
    by (apply Z.div_pos; [lia | apply Z.pow_pos_nonneg; lia]).
  assert (H0' : m / 2 ^ n1 <> 0).
  { intros E. rewrite E in Hd0. cbn in Hd0. lia. }
  assert (Hm1 : 0 < m1) by lia.
  assert (Hd1 : 1 <= Zdigits2 m1).
  { rewrite Zdigits2_log2 by lia. pose proof (Z.log2_nonneg m1). lia. }
  assert (Hn2 : 0 <= n2 < Zdigits2 m1).
  { unfold n2, e1. rewrite fexp64_eq. lia. }
  pose proof (Zdigits2_div_pow2 m1 n2 ltac:(lia) ltac:(lia)) as Hd2.
  assert (H2 : m1 / 2 ^ n2 <> 0).
  { intros E. rewrite E in Hd2. cbn in Hd2. lia. }
  apply Z.eqb_neq in H2. rewrite H2.
  destruct (e1 + n2 <=? emax - prec); discriminate.
Qed.

Lemma binary_round_nonzero : forall s m e s',
  -1074 <= e -> binary_round prec emax s m e <> S754_zero s'.
Proof.
  intros s m e s' He. unfold binary_round.
  fold (fexp64 (Z.pos (digits2_pos m) + e)).
  set (ex' := fexp64 (Z.pos (digits2_pos m) + e)).
  assert (Hex' : -1074 <= ex') by (unfold ex'; rewrite fexp64_eq; lia).
  destruct (shl_align m e ex') as [mz ez] eqn:Hs.
  apply bra_nonzero; [lia |].
  unfold shl_align in Hs.
  destruct (ex' - e); injection Hs as <- <-; lia.
Qed.

Lemma fle_zero_signed_false : forall r,
  signed false r -> fle (S754_zero false) r = true.
Proof.
  intros [s | s | | s m e] H; cbn in H; try contradiction; subst;
    try reflexivity.
  unfold fle, fcompare. cbn [expo scaled cond_Zopp].
  assert (0 < 2 ^ (e - Z.min 0 e)) by (apply Z.pow_pos_nonneg; lia).
  destruct (Z.compare_spec 0 (Z.pos m * 2 ^ (e - Z.min 0 e))); try reflexivity.
  nia.
Qed.

Lemma fle_zero_signed_true : forall r,
  signed true r -> (forall s, r <> S754_zero s) ->
  fle (S754_zero false) r = false.
Proof.
  intros [s | s | | s m e] H Hnz; cbn in H; try contradiction; subst;
    try reflexivity.
  - exfalso. apply (Hnz true). reflexivity.
  - unfold fle, fcompare. cbn [expo scaled cond_Zopp].
    assert (0 < 2 ^ (e - Z.min 0 e)) by (apply Z.pow_pos_nonneg; lia).
    destruct (Z.compare_spec 0 (- (Z.pos m * 2 ^ (e - Z.min 0 e))));
      try reflexivity; nia.
Qed.

Lemma fle_zero_finite : forall s s' m e,
  fle (S754_zero s) (S754_finite s' m e) = negb s'.
Proof.
  intros s s' m e. unfold fle, fcompare. cbn [expo scaled].
  assert (0 < 2 ^ (e - Z.min 0 e)) by (apply Z.pow_pos_nonneg; lia).
  destruct s'; cbn [cond_Zopp negb].
  - destruct (Z.compare_spec 0 (- (Z.pos m * 2 ^ (e - Z.min 0 e))));
      try reflexivity; nia.
  - destruct (Z.compare_spec 0 (Z.pos m * 2 ^ (e - Z.min 0 e)));
      try reflexivity; nia.
Qed.

Lemma fle_finite_zero : forall s s' m e,
  fle (S754_finite s' m e) (S754_zero s) = s'.
Proof.
  intros s s' m e. unfold fle, fcompare. cbn [expo scaled].
  assert (0 < 2 ^ (e - Z.min e 0)) by (apply Z.pow_pos_nonneg; lia).
  destruct s'; cbn [cond_Zopp negb].
  - destruct (Z.compare_spec (- (Z.pos m * 2 ^ (e - Z.min e 0))) 0);
      try reflexivity; nia.
  - destruct (Z.compare_spec (Z.pos m * 2 ^ (e - Z.min e 0)) 0);
      try reflexivity; nia.
Qed.

(** On finite operands, [x - y >= 0] is [y <= x]. *)
Lemma fsub_ge0 : forall x y,
  wv x -> wv y -> is_finite x = true -> is_finite y = true ->
  fge (fsub x y) (of_Z 0) = fle y x.
Proof.
  intros [sx | sx | | sx mx ex] [sy | sy | | sy my ey] Hx Hy Fx Fy;
    try discriminate; change (of_Z 0) with (S754_zero false); unfold fge.
  - destruct sx, sy; reflexivity.
  - unfold fsub, SFsub. rewrite fle_zero_finite, fle_finite_zero.
    apply negb_involutive.
  - unfold fsub, SFsub. rewrite !fle_zero_finite. reflexivity.
  - cbn [wv] in Hx, Hy. unfold fsub, SFsub.
    rewrite !shl_align_fst by lia.
    unfold fle at 2. unfold fcompare. cbn [expo scaled].
    rewrite (Z.min_comm ey ex).
    set (ez := Z.min ex ey).
    set (A := cond_Zopp sx (Z.pos mx * 2 ^ (ex - ez))).
    set (B := cond_Zopp sy (Z.pos my * 2 ^ (ey - ez))).
    destruct (Z.compare_spec B A) as [E | L | G].
    + replace (A - B) with 0 by lia. reflexivity.
    + destruct (A - B) as [| p | p] eqn:Hp; try lia.
      cbn [binary_normalize].
      apply fle_zero_signed_false. apply binary_round_signed.
    + destruct (A - B) as [| p | p] eqn:Hp; try lia.
      cbn [binary_normalize].
      apply fle_zero_signed_true; [apply binary_round_signed |].
      intros s. apply binary_round_nonzero. unfold ez. lia.
Qed.

Lemma fmul_wv : forall x y, wv (fmul x y).
Proof.
  intros [sx | sx | | sx mx ex] [sy | sy | | sy my ey]; try exact I.
  unfold fmul, SFmul. apply bra_wv. lia.
Qed.

Lemma binary_normalize_wv : forall z e s, wv (binary_normalize prec emax z e s).
Proof.
  intros [| p | p] e s; cbn [binary_normalize]; try exact I;
    apply binary_round_signed.
Qed.

Lemma fadd_wv : forall x y, wv x -> wv y -> wv (fadd x y).
Proof.
  intros [sx | sx | | sx mx ex] [sy | sy | | sy my ey] Hx Hy;
    try exact I; try assumption.
  - destruct sx, sy; exact I.
  - destruct sx, sy; exact I.
  - unfold fadd, SFadd. apply binary_normalize_wv.
Qed.

(** *** Magnitudes: what cannot overflow *)

Lemma at_most_finite : forall K x, at_most K x -> is_finite x = true.
Proof.
  intros K [s | s | | s m e] H; cbn in *; try contradiction; reflexivity.
Qed.

(** The correctly rounded quotient of two positive integers is at most any
    integer bound of the exact quotient. *)
Lemma fdiv_ints_at_most : forall a b K,
  0 < a -> 0 < b -> 0 < K < 2 ^ 53 -> a <= K * b ->
  at_most K (fdiv (zfloat a) (zfloat b)).
Proof.
  intros a b K Ha Hb HK Hab.
  destruct a as [| pa | pa]; try lia. destruct b as [| pb | pb]; try lia.
  unfold fdiv, zfloat, SFdiv, SFdiv_core_binary.
  set (e' := Z.min _ _).
  assert (He' : e' <= 0) by (unfold e'; lia).
  set (s := 0 - 0 - e').
  set (m' := match s with
             | Z.pos _ => Z.shiftl (Z.pos pa) s
             | 0 => Z.pos pa
             | Z.neg _ => 0
             end).
  assert (Hm' : m' = Z.pos pa * 2 ^ s).
  { unfold m'. destruct s as [| ps | ps] eqn:Hs.
    - rewrite Z.pow_0_r. lia.
    - rewrite Z.shiftl_mul_pow2 by lia. reflexivity.
    - unfold s in Hs. lia. }
  clearbody m'.
  destruct (Z.div_eucl m' (Z.pos pb)) as [qq rr] eqn:Hde.
  apply div_eucl_div_mod in Hde. destruct Hde as [-> ->].
  cbn [xorb].
  assert (Hs : 0 <= s) by (unfold s; lia).
  assert (Hps : 0 < 2 ^ s) by (apply Z.pow_pos_nonneg; lia).
  apply bra_at_most; try lia.
  - apply Z.div_pos; lia.
  - replace (- e') with s by (unfold s; lia).
    apply Z.div_le_upper_bound; [lia |]. subst m'. nia.
  - replace (- e') with s by (unfold s; lia). intros E.
    assert (Z.pos pb * (m' / Z.pos pb) <= m') by (apply Z.mul_div_le; lia).
    assert (Heq : Z.pos pa = K * Z.pos pb) by (subst m'; nia).
    replace (m' mod Z.pos pb) with 0; [apply new_location_0 |].
    symmetry. subst m'. rewrite Heq.
    replace (K * Z.pos pb * 2 ^ s) with (K * 2 ^ s * Z.pos pb) by ring.
    apply Z.mod_mul. lia.
Qed.

Lemma fmul_at_most : forall K1 K2 x y,
  0 < K1 -> 0 < K2 -> K1 * K2 < 2 ^ 53 ->
  at_most K1 x -> at_most K2 y -> at_most (K1 * K2) (fmul x y).
Proof.
  intros K1 K2 [sx | sx | | sx mx ex] [sy | sy | | sy my ey] H1 H2 HK Hx Hy;
    cbn [at_most] in Hx, Hy; try contradiction; try exact I;
    try (destruct sx; [contradiction | exact I]).
  destruct sx; [contradiction |]. destruct sy; [contradiction |].
  destruct Hx as [Hex Hmx]. destruct Hy as [Hey Hmy].
  unfold fmul, SFmul. cbn [xorb].
  assert (0 < 2 ^ (- ex)) by (apply Z.pow_pos_nonneg; lia).
  assert (0 < 2 ^ (- ey)) by (apply Z.pow_pos_nonneg; lia).
  apply bra_at_most; try lia.
  - replace (- (ex + ey)) with (- ex + - ey) by lia.
    rewrite Z.pow_add_r by lia. rewrite Pos2Z.inj_mul. nia.
  - reflexivity.
Qed.

Lemma binary_normalize_at_most : forall z e K,
  0 <= z -> e <= 0 -> 0 < K < 2 ^ 53 -> z <= K * 2 ^ (- e) ->
  at_most K (binary_normalize prec emax z e false).
Proof.
  intros [| p | p] e K Hz He HK Hle; try lia; cbn [binary_normalize].
  - exact I.
  - unfold binary_round.
    fold (fexp64 (Z.pos (digits2_pos p) + e)).
    set (ex' := fexp64 (Z.pos (digits2_pos p) + e)).
    destruct (shl_align p e ex') as [mz ez] eqn:Hs.
    unfold shl_align in Hs.
    assert (0 < 2 ^ (- e)) by (apply Z.pow_pos_nonneg; lia).
    destruct (ex' - e) as [| d | d] eqn:Hd; injection Hs as <- <-.
    + apply bra_at_most; try lia. reflexivity.
    + apply bra_at_most; try lia. reflexivity.
    + change (Pos.iter xO p d) with (Zpower.shift_pos d p).
      assert (Hv : Z.pos (Zpower.shift_pos d p) = Z.pos p * 2 ^ Z.pos d).
      { rewrite Zpower.shift_pos_correct.
        change (Z.pow_pos 2 d) with (2 ^ Z.pos d). lia. }
      apply bra_at_most; try lia.
      * rewrite Hv. replace (- ex') with (- e + Z.pos d) by lia.
        rewrite Z.pow_add_r by lia.
        assert (0 < 2 ^ Z.pos d) by (apply Z.pow_pos_nonneg; lia). nia.
      * reflexivity.
Qed.

Lemma of_int_small : forall z,
  0 <= z < 2 ^ 53 ->
  exists f, of_int z = Ok f /\ at_most (Z.max 1 z) f.
Proof.
  intros z Hz. unfold of_int.
  assert (H : at_most (Z.max 1 z) (of_Z z)).
  { unfold of_Z. apply binary_normalize_at_most; lia. }
  destruct (of_Z z) eqn:E; cbn [at_most] in H; try contradiction;
    eexists; (split; [reflexivity | exact H]).
Qed.

(** [1 - ratio] is at most 1 for the clamped ratio. *)
Lemma one_minus_ratio_at_most : forall q,
  at_most 1 (fsub f1 (pymax f0 (pymin f0_95 q))).
Proof.
  intros q. unfold pymax, pymin, fgt.
  destruct (flt q f0_95) eqn:H95; [| vm_compute; split; discriminate].
  destruct (flt f0 q) eqn:H0; [| vm_compute; split; discriminate].
  destruct q as [s | s | | s m e]; try discriminate.
  - destruct s; discriminate.
  - destruct s.
    + unfold flt, fcompare in H0. cbn [expo scaled f0 cond_Zopp] in H0.
      destruct (Z.compare_spec 0 (- (Z.pos m * 2 ^ (e - Z.min 0 e))))
        as [E | L | G]; try discriminate.
      assert (0 < 2 ^ (e - Z.min 0 e)) by (apply Z.pow_pos_nonneg; lia). nia.
    + unfold flt, fcompare, f0_95 in H95. cbn [expo scaled cond_Zopp] in H95.
      destruct (Z.compare_spec (Z.pos m * 2 ^ (e - Z.min e (-53)))
                  (Z.pos 8556839292003942 * 2 ^ (-53 - Z.min e (-53))))
        as [E | L | G]; try discriminate.
      unfold fsub, f1, SFsub. cbn [cond_Zopp].
      rewrite !shl_align_fst by lia.
      assert (Hm : 0 < Z.pos m * 2 ^ (e - Z.min (-52) e)).
      { assert (0 < 2 ^ (e - Z.min (-52) e)) by (apply Z.pow_pos_nonneg; lia).
        nia. }
      apply binary_normalize_at_most; try lia.
      * destruct (Z_le_gt_dec e (-53)) as [Hle | Hgt].
        -- replace (Z.min e (-53)) with e in L by lia.
           replace (Z.min (-52) e) with e by lia.
           replace (e - e) with 0 in * by lia. rewrite Z.pow_0_r in *.
           replace (-52 - e) with (Z.succ (-53 - e)) by lia.
           rewrite Z.pow_succ_r by lia.
           assert (0 < 2 ^ (-53 - e)) by (apply Z.pow_pos_nonneg; lia).
           nia.
        -- replace (Z.min e (-53)) with (-53) in L by lia.
           replace (Z.min (-52) e) with (-52) by lia.
           replace (-53 - -53) with 0 in L by lia. rewrite Z.pow_0_r in L.
           replace (-52 - -52) with 0 by lia. rewrite Z.pow_0_r.
           replace (e - -53) with (Z.succ (e - -52)) in L by lia.
           rewrite Z.pow_succ_r in L by lia.
           assert (0 < 2 ^ (e - -52)) by (apply Z.pow_pos_nonneg; lia).
           nia.
      * replace (- Z.min (-52) e) with (52 + (-52 - Z.min (-52) e)) by lia.
        rewrite Z.pow_add_r by lia.
        change (Z.pos 4503599627370496) with (2 ^ 52). lia.
Qed.

Lemma py_round_finite : forall x,
  is_finite x = true -> exists r, py_round x = Ok r.
Proof.
  intros [s | s | | s m e] H; try discriminate; eexists; reflexivity.
Qed.

Lemma int_truediv_ok : forall a b K,
  0 <= a -> 0 < b -> 0 < K < 2 ^ 53 -> a <= K * b ->
  exists q, int_truediv a b = Ok q /\ at_most K q.
Proof.
  intros a b K Ha Hb HK Hab. unfold int_truediv.
  replace (b =? 0) with false by (symmetry; apply Z.eqb_neq; lia).
  destruct (a =? 0) eqn:Ha0; [eexists; split; [reflexivity | exact I] |].
  apply Z.eqb_neq in Ha0.
  pose proof (fdiv_ints_at_most a b K ltac:(lia) Hb HK Hab) as H.
  destruct (fdiv (zfloat a) (zfloat b)); cbn [at_most] in H;
    try contradiction; eexists; (split; [reflexivity | exact H]).
Qed.

Lemma f100_at_most : at_most 100 f100.
Proof. cbn. split; [lia | reflexivity]. Qed.

(** *** The comparison by value and [SFcompare] *)

Lemma valid_canonical : forall x,
  valid_binary prec emax x = true -> canonical x /\ wv x.
Proof.
  intros [s | s | | s m e] H; try (split; exact I).
  cbn [valid_binary] in H. unfold bounded, canonical_mantissa in H.
  apply andb_true_iff in H. destruct H as [Hc Hb].
  apply Z.eqb_eq in Hc. apply Z.leb_le in Hb.
  fold (fexp64 (Z.pos (digits2_pos m) + e)) in Hc.
  change (Z.pos (digits2_pos m)) with (Zdigits2 (Z.pos m)) in Hc.
  split; [exact Hc |]. cbn [wv]. rewrite fexp64_eq in Hc.
  unfold emax, prec in Hb. lia.
Qed.

Lemma canonical_lt_exp : forall m1 e1 m2 e2,
  fexp64 (Zdigits2 (Z.pos m1) + e1) = e1 ->
  fexp64 (Zdigits2 (Z.pos m2) + e2) = e2 ->
  e1 < e2 ->
  Z.pos m1 < Z.pos m2 * 2 ^ (e2 - e1).
Proof.
  intros m1 e1 m2 e2 H1 H2 Hlt. rewrite fexp64_eq in H1, H2.
  assert (Hd1 : Zdigits2 (Z.pos m1) <= 53) by lia.
  assert (Hd2 : Zdigits2 (Z.pos m2) = 53) by lia.
  pose proof (Zdigits2_bounds (Z.pos m1) ltac:(lia)) as [_ B1].
  pose proof (Zdigits2_bounds (Z.pos m2) ltac:(lia)) as [B2 _].
  rewrite Hd2 in B2. change (2 ^ (53 - 1)) with 4503599627370496 in B2.
  assert (Z.pos m1 < 2 ^ 53).
  { eapply Z.lt_le_trans; [exact B1 |]. apply Z.pow_le_mono_r; lia. }
  change (2 ^ 53) with 9007199254740992 in H.
  assert (2 <= 2 ^ (e2 - e1)).
  { change 2 with (2 ^ 1) at 1. apply Z.pow_le_mono_r; lia. }
  nia.
Qed.

(** On valid operands the comparison by value is the comparison of the
    Standard Library. *)
Lemma fcompare_valid : forall x y,
  valid_binary prec emax x = true -> valid_binary prec emax y = true ->
  fcompare x y = SFcompare x y.
Proof.
  intros x y Hx Hy.
  apply valid_canonical in Hx. apply valid_canonical in Hy.
  destruct Hx as [Cx _]. destruct Hy as [Cy _].
  destruct x as [sx | sx | | sx mx ex]; destruct y as [sy | sy | | sy my ey];
    try reflexivity; try (destruct sx, sy; reflexivity).
  - unfold fcompare, SFcompare. cbn [expo scaled]. f_equal.
    assert (0 < 2 ^ (ey - Z.min 0 ey)) by (apply Z.pow_pos_nonneg; lia).
    destruct sy; cbn [cond_Zopp]; [apply Z.compare_gt_iff | apply Z.compare_lt_iff]; nia.
  - unfold fcompare, SFcompare. cbn [expo scaled]. f_equal.
    assert (0 < 2 ^ (ex - Z.min ex 0)) by (apply Z.pow_pos_nonneg; lia).
    destruct sx; cbn [cond_Zopp]; [apply Z.compare_lt_iff | apply Z.compare_gt_iff]; nia.
  - cbn [canonical] in Cx, Cy.
    unfold fcompare, SFcompare. cbn [expo scaled]. f_equal.
    set (ez := Z.min ex ey).
    assert (Hx : 0 < 2 ^ (ex - ez)) by (apply Z.pow_pos_nonneg; lia).
    assert (Hy : 0 < 2 ^ (ey - ez)) by (apply Z.pow_pos_nonneg; lia).
    destruct (Z.compare_spec ex ey) as [E | L | G].
    + subst ey. replace (ex - ez) with 0 by lia.
      rewrite Z.pow_0_r, !Z.mul_1_r.
      change (Pos.compare_cont Eq mx my) with (Pos.compare mx my).
      destruct sx, sy; cbn [cond_Zopp].
      * rewrite Z.compare_opp. cbn [Z.compare].
        apply Pos.compare_antisym.
      * apply Z.compare_lt_iff. lia.
      * apply Z.compare_gt_iff. lia.
      * reflexivity.
    + pose proof (canonical_lt_exp mx ex my ey Cx Cy L) as Hlt.
      replace ez with ex in * by lia.
      replace (ex - ex) with 0 by lia. rewrite Z.pow_0_r, Z.mul_1_r.
      destruct sx, sy; cbn [cond_Zopp];
        [apply Z.compare_gt_iff | apply Z.compare_lt_iff
        | apply Z.compare_gt_iff | apply Z.compare_lt_iff]; nia.
    + pose proof (canonical_lt_exp my ey mx ex Cy Cx ltac:(lia)) as Hlt.
      replace ez with ey in * by lia.
      replace (ey - ey) with 0 by lia. rewrite Z.pow_0_r, Z.mul_1_r.
      destruct sx, sy; cbn [cond_Zopp];
        [apply Z.compare_lt_iff | apply Z.compare_lt_iff
        | apply Z.compare_gt_iff | apply Z.compare_gt_iff]; nia.
Qed.

(** *** Validity is preserved

    Every float the program computes from valid operands is a valid
    binary64 datum, so the comparison by value above is the machine's. *)

Lemma canonical_wv_valid : forall x,
  canonical x -> wv x -> valid_binary prec emax x = true.
Proof.
  intros [s | s | | s m e] Hc Hw; try reflexivity.
  cbn [canonical wv] in *. cbn [valid_binary].
  unfold bounded, canonical_mantissa.
  fold (fexp64 (Z.pos (digits2_pos m) + e)).
  change (Z.pos (digits2_pos m)) with (Zdigits2 (Z.pos m)).
  apply andb_true_iff. split; [apply Z.eqb_eq; exact Hc |].
  apply Z.leb_le. unfold emax, prec. lia.
Qed.

Lemma binary_normalize_valid : forall z e s,
  valid_binary prec emax (binary_normalize prec emax z e s) = true.
Proof.
  intros [| p | p] e s; cbn [binary_normalize]; try reflexivity;
    (apply canonical_wv_valid;
     [apply binary_round_canonical | apply binary_round_signed]).
Qed.

Lemma of_Z_valid : forall z, valid_binary prec emax (of_Z z) = true.
Proof. intros z. apply binary_normalize_valid. Qed.

Lemma fadd_valid : forall x y,
  valid_binary prec emax x = true -> valid_binary prec emax y = true ->
  valid_binary prec emax (fadd x y) = true.
Proof.
  intros [sx | sx | | sx mx ex] [sy | sy | | sy my ey] Hx Hy;
    try reflexivity; try assumption;
    try (destruct sx, sy; reflexivity).
  unfold fadd, SFadd. apply binary_normalize_valid.
Qed.

Lemma fsub_valid : forall x y,
  valid_binary prec emax x = true -> valid_binary prec emax y = true ->
  valid_binary prec emax (fsub x y) = true.
Proof.
  intros [sx | sx | | sx mx ex] [sy | sy | | sy my ey] Hx Hy;
    try reflexivity; try assumption;
    try (destruct sx, sy; reflexivity).
  unfold fsub, SFsub. apply binary_normalize_valid.
Qed.

Lemma Zdigits2_mul_ge : forall a b, 0 < a -> 0 < b ->
  Zdigits2 a + Zdigits2 b - 1 <= Zdigits2 (a * b).
Proof.
  intros a b Ha Hb. rewrite !Zdigits2_log2 by nia.
  pose proof (Z.log2_mul_below a b Ha Hb). lia.
Qed.

Lemma fmul_valid : forall x y,
  valid_binary prec emax x = true -> valid_binary prec emax y = true ->
  valid_binary prec emax (fmul x y) = true.
Proof.
  intros [sx | sx | | sx mx ex] [sy | sy | | sy my ey] Hx Hy;
    try reflexivity.
  apply valid_canonical in Hx. apply valid_canonical in Hy.
  destruct Hx as [Cx _]. destruct Hy as [Cy _]. cbn [canonical] in Cx, Cy.
  unfold fmul, SFmul.
  apply canonical_wv_valid; [| apply bra_wv; lia].
  apply bra_canonical; [lia |].
  rewrite Pos2Z.inj_mul.
  pose proof (Zdigits2_mul_ge (Z.pos mx) (Z.pos my) ltac:(lia) ltac:(lia)).
  assert (1 <= Zdigits2 (Z.pos mx)).
  { rewrite Zdigits2_log2 by lia. pose proof (Z.log2_nonneg (Z.pos mx)). lia. }
  assert (1 <= Zdigits2 (Z.pos my)).
  { rewrite Zdigits2_log2 by lia. pose proof (Z.log2_nonneg (Z.pos my)). lia. }
  rewrite !fexp64_eq in *. lia.
Qed.

Lemma fdiv_valid : forall x y, valid_binary prec emax (fdiv x y) = true.
Proof.
  intros [sx | sx | | sx mx ex] [sy | sy | | sy my ey]; try reflexivity.
  unfold fdiv, SFdiv, SFdiv_core_binary.
  fold (fexp64 (Zdigits2 (Z.pos mx) + ex - (Zdigits2 (Z.pos my) + ey))).
  set (d1 := Zdigits2 (Z.pos mx)). set (d2 := Zdigits2 (Z.pos my)).
  set (e' := Z.min (fexp64 (d1 + ex - (d2 + ey))) (ex - ey)).
  set (s := ex - ey - e').
  assert (Hs : 0 <= s) by (unfold s, e'; lia).
  set (m' := match s with
             | Z.pos _ => Z.shiftl (Z.pos mx) s
             | 0 => Z.pos mx
             | Z.neg _ => 0
             end).
  assert (Hm' : m' = Z.pos mx * 2 ^ s).
  { unfold m'. destruct s as [| ps | ps] eqn:E.
    - rewrite Z.pow_0_r. lia.
    - rewrite Z.shiftl_mul_pow2 by lia. reflexivity.
    - lia. }
  clearbody m'.
  destruct (Z.div_eucl m' (Z.pos my)) as [q r] eqn:Hde.
  apply div_eucl_div_mod in Hde. destruct Hde as [-> ->].
  assert (Hps : 0 < 2 ^ s) by (apply Z.pow_pos_nonneg; lia).
  assert (Hq0 : 0 <= m' / Z.pos my) by (apply Z.div_pos; nia).
  apply canonical_wv_valid; [| apply bra_wv; exact Hq0].
  apply bra_canonical; [exact Hq0 |].
  rewrite fexp64_eq.
  destruct (Z_le_gt_dec e' (-1074)) as [Hlo | Hhi]; [lia |].
  (* above the smallest exponent the quotient has at least 53 digits *)
  assert (He' : e' <= d1 + ex - (d2 + ey) - 53).
  { unfold e' in *. rewrite fexp64_eq in *. lia. }
  assert (Hd1 : 2 ^ (d1 - 1) <= Z.pos mx)
    by (apply (Zdigits2_bounds (Z.pos mx)); lia).
  assert (Hd2 : Z.pos my < 2 ^ d2)
    by (apply (Zdigits2_bounds (Z.pos my)); lia).
  assert (H1 : 1 <= d1).
  { unfold d1. rewrite Zdigits2_log2 by lia.
    pose proof (Z.log2_nonneg (Z.pos mx)). lia. }
  assert (H2 : 1 <= d2).
  { unfold d2. rewrite Zdigits2_log2 by lia.
    pose proof (Z.log2_nonneg (Z.pos my)). lia. }
  assert (Hbig : 2 ^ 52 * Z.pos my <= m').
  { rewrite Hm'.
    assert (Hpow : 2 ^ 52 * 2 ^ d2 <= 2 ^ (d1 - 1) * 2 ^ s).
    { rewrite <- !Z.pow_add_r by lia. apply Z.pow_le_mono_r; [lia |].
      unfold s. lia. }
    assert (0 < 2 ^ (d1 - 1)) by (apply Z.pow_pos_nonneg; lia).
    nia. }
  assert (Hq : 2 ^ 52 <= m' / Z.pos my)
    by (apply Z.div_le_lower_bound; lia).
  assert (Hdq : 53 <= Zdigits2 (m' / Z.pos my)).
  { destruct (Z_lt_le_dec (Zdigits2 (m' / Z.pos my)) 53) as [C |]; [| lia].
    assert (m' / Z.pos my < 2 ^ 52)
      by (apply Zdigits2_lt_pow2; lia).
    lia. }
  lia.
Qed.

(** * Worked figures

    The embedding evaluated on a few inputs whose results are known. *)

(** 0.9 is the double [8106479329266893 * 2^-53]. *)
Example f0_9_bits : f0_9 = S754_finite false 8106479329266893 (-53).
Proof. vm_compute. reflexivity. Qed.

(** A warm turn of 100000 tokens at Sonnet prices and a hit rate of 0.9
    costs 0.06449999999999999, the double just below 0.0645. *)
Example cost_per_turn_sonnet_warm :
  cost_per_turn 100000 f0_9 PRICING_sonnet
  = Ok (S754_finite false 4647714815446351 (-56))
  /\ dec 645 4 = S754_finite false 4647714815446352 (-56).
Proof. split; vm_compute; reflexivity. Qed.

(** Trimming 100000 tokens to 20000 pays for itself at the second turn. *)
Example breakeven_sonnet_trim :
  (proj <- project_costs 100000 20000 PRICING_sonnet f0_9 60 ;;
   Ok (breakeven proj)) = Ok 2.
Proof. vm_compute. reflexivity. Qed.

(** The removable bytes of [heavy_state] are 429000, its removal ratio is
    0.715, and 100000 estimated tokens trim to 42800. *)
Example heavy_state_figures :
  removed_bytes heavy_state = Ok (of_Z 429000)
  /\ removal_ratio heavy_state = Ok (dec 715 3)
  /\ post_trim heavy_state 100000 = Ok 42800.
Proof. repeat split; vm_compute; reflexivity. Qed.

(** [json.dumps] writes a blank after every separator: the tool result of
    [bulky_line] takes 126 bytes, the line that carries it 122. *)
Example bulky_line_figures :
  dumps_bytes bulky_block = 126 /\ line_bytes bulky_line = 122.
Proof. split; vm_compute; reflexivity. Qed.

(** * Lemmas on the analyzer loop *)

Lemma run_app :
  forall (l1 l2 : list line) (st : state),
    run st (l1 ++ l2) = (st' <- run st l1 ;; run st' l2).
Proof.
  induction l1 as [| ln l1 IH]; intros l2 st; simpl.
  - reflexivity.
  - destruct (step st ln) as [st' | e]; simpl; [apply IH | reflexivity].
Qed.

(** *** The scans neither read nor write the API-observation fields *)

Lemma with_api_id :
  forall st,
    with_api (last_api_input_tokens st) (content_chars_at_last_api st) st = st.
Proof. destruct st; reflexivity. Qed.

Lemma same_counters_refl : forall st, same_counters st st.
Proof. intros st. eexists. eexists. symmetry. apply with_api_id. Qed.

Lemma scan_inner_with_api :
  forall api at_ inner st,
    scan_inner (with_api api at_ st) inner
    = rmap (with_api api at_) (scan_inner st inner).
Proof.
  induction inner as [| ib rest IH]; intros st; cbn [scan_inner rmap].
  - reflexivity.
  - destruct ib as [| b | z | s | l | d]; try apply IH.
    destruct (eq_str (get d "type") "text"); [| apply IH].
    destruct (py_len (get_default d "text" (JStr ""))) as [n | e];
      cbn [bind rmap]; [| reflexivity].
    rewrite <- IH. reflexivity.
Qed.

Lemma scan_block_with_api :
  forall api at_ block st lc,
    scan_block (with_api api at_ st) lc block
    = rmap (fun r => (with_api api at_ (fst r), snd r))
           (scan_block st lc block).
Proof.
  intros api at_ block st lc.
  destruct block as [| b | z | s | l | d]; try reflexivity.
  unfold scan_block.
  destruct (eq_str (get d "type") "tool_result").
  { destruct (get d "content") as [| b | z | s | inner | d']; try reflexivity.
    change (add_tool_result_count 1 (with_api api at_ st))
      with (with_api api at_ (add_tool_result_count 1 st)).
    rewrite scan_inner_with_api.
    destruct (scan_inner (add_tool_result_count 1 st) inner);
      reflexivity. }
  destruct (eq_str (get d "type") "thinking").
  { destruct (truthy (get d "signature"));
      destruct (get d "thinking"); reflexivity. }
  destruct (eq_str (get d "type") "tool_use").
  { destruct (truthy (get d "input")); reflexivity. }
  destruct (eq_str (get d "type") "text" && is_str (get d "text"));
    [destruct (get d "text") |]; reflexivity.
Qed.

Lemma scan_blocks_with_api :
  forall api at_ blocks st lc,
    scan_blocks (with_api api at_ st) lc blocks
    = rmap (fun r => (with_api api at_ (fst r), snd r))
           (scan_blocks st lc blocks).
Proof.
  induction blocks as [| block rest IH]; intros st lc; cbn [scan_blocks].
  - reflexivity.
  - rewrite scan_block_with_api.
    destruct (scan_block st lc block) as [[st1 lc1] | e]; cbn [rmap bind fst snd].
    + apply IH.
    + reflexivity.
Qed.

(** An observation only writes the API-observation fields, and whether it
    raises does not depend on the state. *)
Lemma observe_usage_same :
  forall d s1 s2,
    same_counters s1 s2 ->
    same_outcome (observe_usage d s1) (observe_usage d s2).
Proof.
  intros d s1 s2 (api & at_ & ->). unfold observe_usage.
  destruct (usage_of d) as [| b | z | s | l | u];
    try (cbn; eexists; eexists; reflexivity).
  destruct (get u "input_tokens");
    try (cbn; eexists; eexists; reflexivity);
    (destruct (py_add _ _) as [s1' | e]; cbn [bind]; [| reflexivity];
     destruct (py_add s1' _) as [s2' | e]; cbn [bind]; [| reflexivity];
     destruct (py_as_int s2') as [n | e]; cbn [bind]; [| reflexivity];
     repeat match goal with
       | |- context [if ?c then _ else _] => destruct c
       end; cbn; eexists; eexists; reflexivity).
Qed.

Lemma classify_content_with_api :
  forall api at_ d lb role st,
    classify_content d lb role (with_api api at_ st)
    = rmap (with_api api at_) (classify_content d lb role st).
Proof.
  intros api at_ d lb role st. unfold classify_content.
  destruct (content_of d) as [| b | z | s | blocks | d'];
    try (cbn [bind]; destruct (eq_str role "user" || eq_str role "human"
                               || eq_str role "assistant"); reflexivity).
  rewrite scan_blocks_with_api.
  destruct (scan_blocks st _ blocks) as [[st1 lc1] | e]; cbn [rmap bind fst snd];
    [| reflexivity].
  destruct (eq_str role "user" || eq_str role "human"
            || eq_str role "assistant"); reflexivity.
Qed.

(** A step from two states with the same counters ends alike. *)
Lemma step_same :
  forall ln s1 s2,
    same_counters s1 s2 -> same_outcome (step s1 ln) (step s2 ln).
Proof.
  intros ln s1 s2 (api & at_ & ->). unfold step.
  destruct (parsed ln) as [[| b | z | s | l | d] |]; cbn [same_outcome];
    try reflexivity;
    [| eexists; eexists; reflexivity].
  destruct (is_compaction d).
  { destruct (truthy (summary_of d)).
    - destruct (py_len (summary_of d)) as [n | e]; cbn; [| reflexivity].
      exists api, 0. reflexivity.
    - cbn. exists api, 0. reflexivity. }
  destruct (eq_str (get d "type") "file-history-snapshot").
  { cbn. exists api, at_. reflexivity. }
  destruct (eq_str (get d "type") "queue-operation").
  { cbn. exists api, at_. reflexivity. }
  set (role := py_or (get d "role") (get d "type")).
  set (lb := line_bytes ln).
  set (sa := if eq_str role "user" || eq_str role "human"
             then add_msg_user 1 (add_total_bytes lb s1)
             else add_total_bytes lb s1).
  assert (Ha : (if eq_str role "user" || eq_str role "human"
                then add_msg_user 1 (add_total_bytes lb (with_api api at_ s1))
                else add_total_bytes lb (with_api api at_ s1))
               = with_api api at_ sa).
  { unfold sa. destruct (eq_str role "user" || eq_str role "human");
      reflexivity. }
  rewrite Ha. clear Ha.
  assert (Hobs : same_outcome
                   (if eq_str role "assistant"
                    then observe_usage d (add_msg_assistant 1 sa)
                    else Ok sa)
                   (if eq_str role "assistant"
                    then observe_usage d
                           (add_msg_assistant 1 (with_api api at_ sa))
                    else Ok (with_api api at_ sa))).
  { destruct (eq_str role "assistant").
    - apply observe_usage_same. exists api, at_. reflexivity.
    - cbn. exists api, at_. reflexivity. }
  destruct (if eq_str role "assistant"
            then observe_usage d (add_msg_assistant 1 sa) else Ok sa)
    as [sb | e];
    destruct (if eq_str role "assistant"
              then observe_usage d (add_msg_assistant 1 (with_api api at_ sa))
              else Ok (with_api api at_ sa)) as [sb' | e'];
    cbn [same_outcome] in Hobs; try contradiction; cbn [bind].
  - destruct Hobs as (api' & at' & ->).
    rewrite classify_content_with_api.
    destruct (classify_content d lb role sb) as [sc | e]; cbn.
    + exists api', at'. reflexivity.
    + reflexivity.
  - exact Hobs.
Qed.

Lemma run_same :
  forall lines s1 s2,
    same_counters s1 s2 -> same_outcome (run s1 lines) (run s2 lines).
Proof.
  induction lines as [| ln rest IH]; intros s1 s2 H; cbn [run].
  - exact H.
  - pose proof (step_same ln s1 s2 H) as Hs.
    destruct (step s1 ln) as [s1' | e1]; destruct (step s2 ln) as [s2' | e2];
      cbn [same_outcome] in Hs; try contradiction; cbn [bind].
    + apply IH. exact Hs.
    + exact Hs.
Qed.

Lemma same_counters_byte_counters :
  forall s1 s2, same_counters s1 s2 -> byte_counters s1 = byte_counters s2.
Proof. intros s1 s2 (api & at_ & ->). reflexivity. Qed.

(** After a boundary, nothing of the state before it is left in any counter. *)
Lemma step_boundary_same :
  forall ln s1 s2,
    is_boundary ln = true -> same_outcome (step s1 ln) (step s2 ln).
Proof.
  intros ln s1 s2 Hb. unfold is_boundary in Hb. unfold step.
  destruct (parsed ln) as [[| b | z | s | l | d] |]; try discriminate.
  rewrite Hb.
  destruct (truthy (summary_of d)).
  - destruct (py_len (summary_of d)) as [n | e]; cbn; [| reflexivity].
    exists (last_api_input_tokens s2), 0. reflexivity.
  - cbn. exists (last_api_input_tokens s2), 0. reflexivity.
Qed.

(** What precedes a compaction boundary leaves no trace in the byte
    counters, nor in whether the rest of the parse faults. *)
Lemma run_past_boundary :
  forall (before after : list line) (boundary : line) (st : state),
    is_boundary boundary = true ->
    run init before = Ok st ->
    rmap byte_counters (run init (before ++ boundary :: after))
    = rmap byte_counters (run init (boundary :: after)).
Proof.
  intros before after boundary st Hb Hrun.
  rewrite run_app, Hrun. cbn [bind run].
  pose proof (step_boundary_same boundary st init Hb) as Hs.
  destruct (step st boundary) as [s1 | e1];
    destruct (step init boundary) as [s2 | e2];
    cbn [same_outcome] in Hs; try contradiction; cbn [bind rmap].
  - pose proof (run_same after s1 s2 Hs) as Hr.
    destruct (run s1 after) as [t1 | e1]; destruct (run s2 after) as [t2 | e2];
      cbn [same_outcome] in Hr; try contradiction; cbn [rmap].
    + f_equal. apply same_counters_byte_counters. exact Hr.
    + congruence.
  - congruence.
Qed.

(** *** What the scans change *)

Lemma strlen_nonneg : forall s, 0 <= strlen s.
Proof. intros s. unfold strlen. lia. Qed.

Lemma py_len_nonneg : forall j n, py_len j = Ok n -> 0 <= n.
Proof.
  intros j n H. destruct j; cbn in H; try discriminate;
    injection H as <-; try apply strlen_nonneg; lia.
Qed.

Lemma scan_frame_refl : forall s, scan_frame s s.
Proof. intros s. unfold scan_frame. repeat split; lia. Qed.

Lemma scan_frame_trans :
  forall s1 s2 s3, scan_frame s1 s2 -> scan_frame s2 s3 -> scan_frame s1 s3.
Proof.
  unfold scan_frame.
  intros s1 s2 s3 (A1 & A2 & A3 & A4 & A5 & A6) (B1 & B2 & B3 & B4 & B5 & B6).
  repeat split; try congruence; lia.
Qed.

Lemma add_content_chars_frame :
  forall n st, 0 <= n -> scan_frame st (add_content_chars n st).
Proof. intros n st Hn. unfold scan_frame. cbn. repeat split; lia. Qed.

Lemma scan_inner_frame :
  forall inner st st', scan_inner st inner = Ok st' -> scan_frame st st'.
Proof.
  induction inner as [| ib rest IH]; intros st st' H; cbn [scan_inner] in H.
  - injection H as <-. apply scan_frame_refl.
  - destruct ib as [| b | z | s | l | d]; try (apply IH; exact H).
    destruct (eq_str (get d "type") "text"); [| apply IH; exact H].
    destruct (py_len (get_default d "text" (JStr ""))) as [n | e] eqn:Hn;
      cbn [bind] in H; [| discriminate].
    eapply scan_frame_trans; [| apply IH; exact H].
    apply add_content_chars_frame. eapply py_len_nonneg; exact Hn.
Qed.

Ltac frame_solve :=
  unfold scan_frame; cbn;
  repeat match goal with
    | |- context [strlen ?t] =>
        lazymatch goal with
        | _ : 0 <= strlen t |- _ => fail
        | _ => pose proof (strlen_nonneg t)
        end
    end;
  repeat split; lia.

Lemma scan_block_effect :
  forall block st lc st' lc',
    scan_block st lc block = Ok (st', lc') ->
    scan_frame st st'
    /\ tr_b lc <= tr_b lc' /\ sig_b lc <= sig_b lc' /\ tu_b lc <= tu_b lc'
    /\ locals_sum lc' = locals_sum lc + block_bytes block.
Proof.
  intros block st lc st' lc' H.
  assert (Hd : forall j, 0 <= dumps_bytes j) by (intros; apply strlen_nonneg).
  destruct block as [| b | z | s | l | d];
    try (injection H as <- <-; split; [apply scan_frame_refl |];
         unfold locals_sum; cbn; lia).
  unfold scan_block in H. unfold block_bytes, locals_sum.
  destruct (eq_str (get d "type") "tool_result").
  { pose proof (Hd (JObj d)).
    destruct (get d "content") as [| b | z | s | inner | d'];
      try (injection H as <- <-; cbn; split; [frame_solve | lia]).
    destruct (scan_inner (add_tool_result_count 1 st) inner) as [s1 | e]
      eqn:Hi; cbn [bind] in H; [| discriminate].
    injection H as <- <-. cbn. split; [| lia].
    eapply scan_frame_trans; [| eapply scan_inner_frame; exact Hi].
    frame_solve. }
  destruct (eq_str (get d "type") "thinking").
  { pose proof (Hd (get d "signature")).
    destruct (truthy (get d "signature"));
      destruct (get d "thinking");
      injection H as <- <-; cbn; (split; [frame_solve | lia]). }
  destruct (eq_str (get d "type") "tool_use").
  { pose proof (Hd (JObj d)).
    destruct (truthy (get d "input")); injection H as <- <-; cbn;
      (split; [frame_solve | lia]). }
  destruct (eq_str (get d "type") "text" && is_str (get d "text"));
    [destruct (get d "text") |];
    injection H as <- <-; cbn; (split; [frame_solve | lia]).
Qed.

Lemma scan_blocks_effect :
  forall blocks st lc st' lc',
    scan_blocks st lc blocks = Ok (st', lc') ->
    scan_frame st st'
    /\ tr_b lc <= tr_b lc' /\ sig_b lc <= sig_b lc' /\ tu_b lc <= tu_b lc'
    /\ locals_sum lc' = locals_sum lc + list_sum (map block_bytes blocks).
Proof.
  induction blocks as [| block rest IH]; intros st lc st' lc' H;
    cbn [scan_blocks] in H.
  - injection H as <- <-. cbn. split; [apply scan_frame_refl | lia].
  - destruct (scan_block st lc block) as [[s1 l1] | e] eqn:Hb;
      cbn [bind fst snd] in H; [| discriminate].
    apply scan_block_effect in Hb. apply IH in H.
    destruct Hb as (F1 & A1 & A2 & A3 & A4).
    destruct H as (F2 & B1 & B2 & B3 & B4).
    split; [eapply scan_frame_trans; eassumption |].
    cbn [map list_sum fold_right]. unfold list_sum in B4. lia.
Qed.

Lemma classify_content_effect :
  forall d lb role st st',
    classify_content d lb role st = Ok st' ->
    total_bytes st' = total_bytes st
    /\ category_sum st' = category_sum st + Z.max (content_accounted d) lb
    /\ msg_user st' = msg_user st
    /\ msg_assistant st' = msg_assistant st
    /\ last_api_input_tokens st' = last_api_input_tokens st
    /\ content_chars_at_last_api st' = content_chars_at_last_api st
    /\ content_chars st <= content_chars st'.
Proof.
  intros d lb role st st' H. unfold classify_content in H.
  unfold content_accounted.
  assert (Hs : forall r : state * locals,
             (match content_of d with
              | JArr blocks => scan_blocks st {| tr_b := 0; sig_b := 0; tu_b := 0 |} blocks
              | JStr c => Ok (add_content_chars (strlen c) st,
                              {| tr_b := 0; sig_b := 0; tu_b := 0 |})
              | _ => Ok (st, {| tr_b := 0; sig_b := 0; tu_b := 0 |})
              end) = Ok r ->
             scan_frame st (fst r)
             /\ locals_sum (snd r)
                = match content_of d with
                  | JArr blocks => list_sum (map block_bytes blocks)
                  | _ => 0
                  end).
  { intros [s1 l1] Hr.
    destruct (content_of d) as [| b | z | s | blocks | d'];
      try (injection Hr as <- <-; split; [frame_solve | reflexivity]).
    apply scan_blocks_effect in Hr. cbn [fst snd].
    destruct Hr as (F & _ & _ & _ & E). split; [exact F |].
    rewrite E. reflexivity. }
  destruct (match content_of d with
            | JArr blocks => scan_blocks st _ blocks
            | JStr c => _
            | _ => _
            end) as [[s1 l1] | e]; cbn [bind] in H; [| discriminate].
  destruct (Hs (s1, l1) eq_refl) as (F & E). cbn [fst snd] in F, E.
  rewrite <- E. clear Hs E.
  destruct F as (F1 & F2 & F3 & F4 & F5 & F6).
  unfold byte_counters in F1. injection F1 as G1 G2 G3 G4 G5 G6 G7.
  unfold locals_sum, category_sum.
  destruct (eq_str role "user" || eq_str role "human"
            || eq_str role "assistant");
    injection H as <-; cbn; repeat split; try assumption; lia.
Qed.

Lemma observe_usage_effect :
  forall d st st',
    observe_usage d st = Ok st' ->
    st' = st
    \/ exists api, 0 < api /\ st' = with_api (Some api) (content_chars st) st.
Proof.
  intros d st st' H. unfold observe_usage in H.
  destruct (usage_of d) as [| b | z | s | l | u];
    try (injection H as <-; left; reflexivity).
  destruct (get u "input_tokens");
    try (injection H as <-; left; reflexivity);
    (destruct (py_add _ _) as [s1' | e]; cbn [bind] in H; [| discriminate];
     destruct (py_add s1' _) as [s2' | e]; cbn [bind] in H; [| discriminate];
     destruct (py_as_int s2') as [n | e]; cbn [bind] in H; [| discriminate];
     destruct (0 <? n) eqn:Hn; cbn [andb] in H;
     [| injection H as <-; left; reflexivity];
     destruct (negb _); injection H as <-;
     [right; exists n; split; [apply Z.ltb_lt; exact Hn | reflexivity]
     | left; reflexivity]).
Qed.

(** *** One step *)

(** The shape of a step on a record that is neither malformed, nor a
    boundary, nor a snapshot, nor a queue operation. *)
Lemma step_conversational :
  forall st ln d st',
    parsed ln = Some (JObj d) ->
    (is_compaction d
     || eq_str (get d "type") "file-history-snapshot"
     || eq_str (get d "type") "queue-operation") = false ->
    step st ln = Ok st' ->
    total_bytes st' = total_bytes st + line_bytes ln
    /\ category_sum st'
       = category_sum st + Z.max (content_accounted d) (line_bytes ln)
    /\ msg_count st' = msg_count st + (if is_turn ln then 1 else 0)
    /\ (api_inv st -> api_inv st').
Proof.
  intros st ln d st' Hp Hk H. unfold step in H. unfold is_turn.
  rewrite Hp in *.
  apply orb_false_iff in Hk. destruct Hk as (Hk & Hq).
  apply orb_false_iff in Hk. destruct Hk as (Hc & Hf).
  rewrite Hc, Hf, Hq in *. cbn [negb andb].
  set (role := py_or (get d "role") (get d "type")) in *.
  set (lb := line_bytes ln) in *.
  set (sa := if eq_str role "user" || eq_str role "human"
             then add_msg_user 1 (add_total_bytes lb st)
             else add_total_bytes lb st) in *.
  assert (Ha : total_bytes sa = total_bytes st + lb
               /\ category_sum sa = category_sum st
               /\ msg_user sa
                  = msg_user st
                    + (if eq_str role "user" || eq_str role "human"
                       then 1 else 0)
               /\ msg_assistant sa = msg_assistant st
               /\ last_api_input_tokens sa = last_api_input_tokens st
               /\ content_chars_at_last_api sa = content_chars_at_last_api st
               /\ content_chars sa = content_chars st).
  { unfold sa. destruct (eq_str role "user" || eq_str role "human");
      cbn; repeat split; lia. }
  clearbody sa. destruct Ha as (A1 & A2 & A3 & A4 & A5 & A6 & A7).
  assert (Hex : eq_str role "assistant" = true ->
                (eq_str role "user" || eq_str role "human") = false).
  { unfold eq_str. destruct role; try discriminate. intros E.
    apply String.eqb_eq in E. subst s. reflexivity. }
  destruct (eq_str role "assistant") eqn:Hr.
  - rewrite (Hex eq_refl) in *. cbn [orb] in *.
    destruct (observe_usage d (add_msg_assistant 1 sa)) as [sb | e] eqn:Ho;
      cbn [bind] in H; [| discriminate].
    apply classify_content_effect in H.
    destruct H as (C1 & C2 & C3 & C4 & C5 & C6 & C7).
    apply observe_usage_effect in Ho.
    unfold msg_count, api_inv.
    destruct Ho as [-> | (api & Hpos & ->)]; cbn in *;
      (split; [lia |]; split; [unfold category_sum in *; cbn in *; lia |];
       split; [lia |]).
    + intros ((I1 & I2) & I3). split; [lia |].
      intros v Hv. apply I3. congruence.
    + intros ((I1 & I2) & I3). split; [lia |].
      intros v Hv. rewrite C5 in Hv. injection Hv as <-. exact Hpos.
  - rewrite orb_false_r. cbn [bind] in H.
    apply classify_content_effect in H.
    destruct H as (C1 & C2 & C3 & C4 & C5 & C6 & C7).
    unfold msg_count, api_inv.
    split; [lia |]. split; [lia |]. split.
    + destruct (eq_str role "user" || eq_str role "human"); lia.
    + intros ((I1 & I2) & I3). split; [lia |].
      intros v Hv. apply I3. congruence.
Qed.

Lemma step_boundary_effect :
  forall st ln st',
    is_boundary ln = true ->
    step st ln = Ok st' ->
    total_bytes st' = line_bytes ln
    /\ (category_sum st' = 0 \/ category_sum st' = line_bytes ln)
    /\ msg_count st' = 0
    /\ is_turn ln = false
    /\ (api_inv st -> api_inv st').
Proof.
  intros st ln st' Hb H. unfold is_boundary in Hb. unfold step in H.
  unfold is_turn.
  destruct (parsed ln) as [[| b | z | s | l | d] |]; try discriminate.
  rewrite Hb in *. cbn [negb andb].
  unfold api_inv, msg_count, category_sum.
  destruct (truthy (summary_of d)).
  - destruct (py_len (summary_of d)) as [n | e] eqn:Hn; cbn [bind] in H;
      [| discriminate].
    apply py_len_nonneg in Hn.
    injection H as <-. cbn. repeat split; try lia; try (right; lia).
    intros v Hv. apply H; exact Hv.
  - injection H as <-. cbn. repeat split; try lia; try (left; lia).
    intros v Hv. apply H; exact Hv.
Qed.

Lemma step_other_effect :
  forall st ln st',
    is_boundary ln = false ->
    step st ln = Ok st' ->
    total_bytes st' = total_bytes st + line_bytes ln
    /\ category_sum st'
       = category_sum st + Z.max (accounted_bytes ln) (line_bytes ln)
    /\ msg_count st' = msg_count st + (if is_turn ln then 1 else 0)
    /\ (api_inv st -> api_inv st').
Proof.
  intros st ln st' Hb H.
  pose proof (strlen_nonneg (raw ln)) as Hlb. fold (line_bytes ln) in Hlb.
  destruct (parsed ln) as [[| b | z | s | l | d] |] eqn:Hp;
    try (unfold step in H; rewrite Hp in H; discriminate).
  - unfold is_boundary in Hb. rewrite Hp in Hb.
    destruct (eq_str (get d "type") "file-history-snapshot") eqn:Hf.
    { unfold step in H. rewrite Hp, Hb, Hf in H. injection H as <-.
      unfold accounted_bytes, is_turn, msg_count, category_sum, api_inv.
      rewrite Hp, Hb, Hf. cbn. repeat split; try lia.
      intros v Hv. apply H; exact Hv. }
    destruct (eq_str (get d "type") "queue-operation") eqn:Hq.
    { unfold step in H. rewrite Hp, Hb, Hf, Hq in H. injection H as <-.
      unfold accounted_bytes, is_turn, msg_count, category_sum, api_inv.
      rewrite Hp, Hb, Hf, Hq. cbn. repeat split; try lia.
      intros v Hv. apply H; exact Hv. }
    unfold accounted_bytes. rewrite Hp, Hb, Hf, Hq. cbn [orb].
    eapply step_conversational; try eassumption.
    rewrite Hb, Hf, Hq. reflexivity.
  - unfold step in H. rewrite Hp in H. injection H as <-.
    unfold accounted_bytes, is_turn, msg_count, category_sum, api_inv.
    rewrite Hp. cbn. repeat split; try lia.
    intros v Hv. apply H; exact Hv.
Qed.

(** *** The whole loop *)

Lemma api_inv_init : api_inv init.
Proof. unfold api_inv. cbn. split; [lia | discriminate]. Qed.

Lemma run_api_inv :
  forall lines st st',
    api_inv st -> run st lines = Ok st' -> api_inv st'.
Proof.
  induction lines as [| ln rest IH]; intros st st' Hi H; cbn [run] in H.
  - injection H as <-. exact Hi.
  - destruct (step st ln) as [s1 | e] eqn:Hs; cbn [bind] in H;
      [| discriminate].
    apply (IH s1 st'); [| exact H].
    destruct (is_boundary ln) eqn:Hb.
    + apply (step_boundary_effect st ln s1 Hb Hs). exact Hi.
    + apply (step_other_effect st ln s1 Hb Hs). exact Hi.
Qed.

Lemma run_total_ge :
  forall lines st st',
    Forall fits lines ->
    category_sum st <= total_bytes st ->
    run st lines = Ok st' ->
    category_sum st' <= total_bytes st'.
Proof.
  induction lines as [| ln rest IH]; intros st st' Hf Hi H; cbn [run] in H.
  - injection H as <-. exact Hi.
  - destruct (step st ln) as [s1 | e] eqn:Hs; cbn [bind] in H;
      [| discriminate].
    inversion Hf as [| ? ? Hln Hrest]; subst.
    apply (IH s1 st' Hrest); [| exact H].
    pose proof (strlen_nonneg (raw ln)) as Hlb. fold (line_bytes ln) in Hlb.
    destruct (is_boundary ln) eqn:Hb.
    + destruct (step_boundary_effect st ln s1 Hb Hs) as (T & [C | C] & _);
        lia.
    + destruct (step_other_effect st ln s1 Hb Hs) as (T & C & _).
      unfold fits in Hln. lia.
Qed.

Lemma live_segment_no_boundary :
  forall lines, existsb is_boundary lines = false -> live_segment lines = lines.
Proof.
  induction lines as [| ln rest IH]; intros H; cbn in *.
  - reflexivity.
  - apply orb_false_iff in H. destruct H as (H1 & H2).
    rewrite H1, H2. reflexivity.
Qed.

Lemma run_msg_count :
  forall lines st st',
    run st lines = Ok st' ->
    msg_count st'
    = (if existsb is_boundary lines then 0 else msg_count st)
      + live_turns lines.
Proof.
  unfold live_turns, count_turns.
  induction lines as [| ln rest IH]; intros st st' H; cbn [run] in H.
  - injection H as <-. cbn. lia.
  - destruct (step st ln) as [s1 | e] eqn:Hs; cbn [bind] in H;
      [| discriminate].
    apply IH in H. cbn [existsb live_segment].
    destruct (existsb is_boundary rest) eqn:Hr.
    + rewrite orb_true_r. exact H.
    + rewrite orb_false_r.
      rewrite (live_segment_no_boundary rest Hr) in H.
      destruct (is_boundary ln) eqn:Hb.
      * destruct (step_boundary_effect st ln s1 Hb Hs) as (_ & _ & M & _).
        lia.
      * destruct (step_other_effect st ln s1 Hb Hs) as (_ & _ & M & _).
        cbn [filter]. destruct (is_turn ln); cbn [List.length]; lia.
Qed.

(** *** From the loop to the record *)

Lemma summarize_some :
  forall f st sd,
    summarize f st = Ok (Some sd) ->
    10 <= msg_count st
    /\ SessionData.estimated_tokens sd = estimate st
    /\ post_trim st (estimate st) = Ok (SessionData.post_trim_tokens sd)
    /\ reduction (estimate st) (SessionData.post_trim_tokens sd)
       = Ok (SessionData.reduction_pct sd)
    /\ SessionData.total_bytes sd = total_bytes st
    /\ record_category_sum sd = category_sum st
    /\ SessionData.message_count sd = msg_count st.
Proof.
  intros f st sd H. unfold summarize in H. unfold msg_count.
  destruct (msg_user st + msg_assistant st <? 10) eqn:Hc; [discriminate |].
  apply Z.ltb_ge in Hc.
  destruct (post_trim st (estimate st)) as [p | e]; cbn [bind] in H;
    [| discriminate].
  destruct (reduction (estimate st) p) as [r | e] eqn:Hr; cbn [bind] in H;
    [| discriminate].
  destruct (tool_result_pct st) as [t | e]; cbn [bind] in H;
    [| discriminate].
  injection H as <-. cbn. repeat split; try reflexivity; assumption.
Qed.

Lemma summarize_none :
  forall f st, summarize f st = Ok None <-> msg_count st < 10.
Proof.
  intros f st. unfold summarize, msg_count.
  destruct (msg_user st + msg_assistant st <? 10) eqn:Hc.
  - apply Z.ltb_lt in Hc. split; [intros _; exact Hc | reflexivity].
  - apply Z.ltb_ge in Hc. split; [| lia].
    destruct (post_trim st (estimate st)) as [p | e]; cbn [bind];
      [| discriminate].
    destruct (reduction (estimate st) p) as [r | e]; cbn [bind];
      [| discriminate].
    destruct (tool_result_pct st) as [t | e]; cbn [bind]; discriminate.
Qed.

Lemma analyze_session_some :
  forall f sd,
    analyze_session f = Ok (Some sd) ->
    exists lines st,
      read_lines f = Ok lines
      /\ run init lines = Ok st
      /\ summarize f st = Ok (Some sd).
Proof.
  intros f sd H. unfold analyze_session in H.
  destruct (getsize f) as [size |]; [| discriminate].
  destruct (size <? 100); [discriminate |].
  destruct (read_lines f) as [lines | e]; cbn [bind] in H; [| discriminate].
  destruct (run init lines) as [st | e] eqn:Hr; [| discriminate].
  exists lines, st. repeat split; assumption.
Qed.

(** *** The batch *)



(** *** The ground-truth adapter *)

Lemma load_entry_fields :
  forall p hit_rate s sd,
    load_entry p hit_rate s = Ok sd ->
    (exists proj,
        project_costs (estimatedTokens s) (postTrimTokens s) p hit_rate 60
        = Ok proj
        /\ SessionData.breakeven_turns sd = breakeven proj)
    /\ SessionData.cache_miss_penalty sd = or_default (cacheMissPenalty s) f0
    /\ SessionData.savings_per_turn sd = or_default (savingsPerTurn s) f0
    /\ SessionData.estimated_tokens sd = estimatedTokens s
    /\ SessionData.post_trim_tokens sd = postTrimTokens s
    /\ SessionData.reduction_pct sd = reductionPercent s.
Proof.
  intros p h s sd H. unfold load_entry in H.
  destruct (project_costs (estimatedTokens s) (postTrimTokens s) p h 60)
    as [proj | e]; cbn [bind] in H; [| discriminate].
  injection H as <-. cbn. split; [exists proj; split; reflexivity |].
  repeat split; reflexivity.
Qed.

(** * Lemmas on the break-even search *)

Lemma where_true_head :
  forall mask i j rest,
    where_true i mask = j :: rest ->
    exists k : nat,
      j = i + Z.of_nat k
      /\ nth_error mask k = Some true
      /\ forall k' : nat, (k' < k)%nat -> nth_error mask k' = Some false.
Proof.
  induction mask as [| b mask IH]; intros i j rest H; cbn [where_true] in H.
  - discriminate.
  - destruct b.
    + injection H as <- _. exists 0%nat. repeat split; [lia | lia].
    + apply IH in H. destruct H as (k & -> & Hk & Hlt).
      exists (S k). repeat split; [lia | exact Hk |].
      intros [| k'] Hk'; [reflexivity |]. apply Hlt. lia.
Qed.

Lemma where_true_none :
  forall mask i (k : nat),
    where_true i mask = [] ->
    (k < List.length mask)%nat -> nth_error mask k = Some false.
Proof.
  induction mask as [| b mask IH]; intros i k H Hk; cbn in Hk; [lia |].
  cbn [where_true] in H. destruct b; [discriminate |].
  destruct k as [| k]; [reflexivity |]. cbn. apply (IH (i + 1)); [exact H | lia].
Qed.

Lemma zip_with_map :
  forall {A B C D : Type} (h : B -> C -> D) (f : A -> B) (g : A -> C)
         (l : list A),
    zip_with h (map f l) (map g l) = map (fun a => h (f a) (g a)) l.
Proof.
  intros A B C D h f g l. induction l as [| a l IH]; cbn; [reflexivity |].
  rewrite IH. reflexivity.
Qed.

Lemma nth_error_seq_lt :
  forall len start k,
    (k < len)%nat -> nth_error (seq start len) k = Some (start + k)%nat.
Proof.
  induction len as [| len IH]; intros start k Hk; [lia |].
  destruct k as [| k]; cbn.
  - f_equal. lia.
  - rewrite IH by lia. f_equal. lia.
Qed.

Lemma arange1_nth :
  forall max_turns (k : nat),
    (k < Z.to_nat max_turns)%nat ->
    nth_error (arange1 max_turns) k = Some (Z.of_nat k + 1).
Proof.
  intros m k Hk. unfold arange1.
  rewrite nth_error_map, nth_error_seq_lt by exact Hk.
  cbn. f_equal. lia.
Qed.

Lemma arange1_length :
  forall max_turns, List.length (arange1 max_turns) = Z.to_nat max_turns.
Proof. intros m. unfold arange1. rewrite length_map, length_seq. reflexivity. Qed.

(** The index search of [project_costs], on any test. *)
Lemma first_crossing_search :
  forall (test : Z -> bool) (max_turns : Z),
    1 <= max_turns ->
    first_turn_or_max test max_turns
      (match where_true 0 (map test (arange1 max_turns)) with
       | i :: _ => i + 1
       | [] => max_turns
       end).
Proof.
  intros test m Hm. unfold first_turn_or_max.
  destruct (where_true 0 (map test (arange1 m))) as [| j rest] eqn:Hw.
  - split; [lia |]. right. split; [reflexivity |].
    intros t Ht.
    pose proof (where_true_none _ 0 (Z.to_nat (t - 1)) Hw) as Hn.
    rewrite length_map, arange1_length in Hn.
    specialize (Hn ltac:(lia)).
    rewrite nth_error_map, arange1_nth in Hn by lia.
    cbn in Hn. injection Hn as Hn.
    replace (Z.of_nat (Z.to_nat (t - 1)) + 1) with t in Hn by lia.
    exact Hn.
  - apply where_true_head in Hw. destruct Hw as (k & -> & Hk & Hlt).
    assert (Hin : (k < Z.to_nat m)%nat).
    { assert (Hs : nth_error (map test (arange1 m)) k <> None) by congruence.
      apply nth_error_Some in Hs.
      rewrite length_map, arange1_length in Hs. exact Hs. }
    rewrite nth_error_map, arange1_nth in Hk by exact Hin.
    cbn in Hk. injection Hk as Hk.
    split; [lia |]. left. split.
    + replace (0 + Z.of_nat k + 1) with (Z.of_nat k + 1) by lia. exact Hk.
    + intros t Ht.
      specialize (Hlt (Z.to_nat (t - 1)) ltac:(lia)).
      rewrite nth_error_map, arange1_nth in Hlt by lia.
      cbn in Hlt. injection Hlt as Hlt.
      replace (Z.of_nat (Z.to_nat (t - 1)) + 1) with t in Hlt by lia.
      exact Hlt.
Qed.

Lemma project_costs_ok :
  forall pre post p hit_rate max_turns pre_cost post_steady post_first,
    cost_per_turn pre hit_rate p = Ok pre_cost ->
    cost_per_turn post hit_rate p = Ok post_steady ->
    cold_cost post p = Ok post_first ->
    exists proj,
      project_costs pre post p hit_rate max_turns = Ok proj
      /\ breakeven proj
         = match where_true 0
                   (map (crossing pre_cost post_first post_steady)
                        (arange1 max_turns)) with
           | i :: _ => i + 1
           | [] => max_turns
           end.
Proof.
  intros pre post p h m pre_cost post_steady post_first H1 H2 H3.
  unfold project_costs. rewrite H1, H2, H3. cbn [bind].
  eexists. split; [reflexivity |]. cbn [breakeven].
  rewrite zip_with_map, map_map. reflexivity.
Qed.

(** * Lemmas on the estimates *)

Lemma estimate_pos : forall st, api_inv st -> 0 < estimate st.
Proof.
  intros st ((H1 & H2) & H3). unfold estimate, SYSTEM_OVERHEAD.
  destruct (last_api_input_tokens st) as [api |].
  - specialize (H3 api eq_refl).
    assert (0 <= (content_chars st - content_chars_at_last_api st) / 4)
      by (apply Z.div_pos; lia).
    lia.
  - assert (0 <= content_chars st / 4) by (apply Z.div_pos; lia). lia.
Qed.

Lemma reduction_none : forall est, 0 < est -> reduction est est = Ok f0.
Proof.
  intros est H. unfold reduction, int_truediv.
  replace (0 <? est) with true by (symmetry; apply Z.ltb_lt; exact H).
  replace (est - est) with 0 by lia.
  replace (est =? 0) with false by (symmetry; apply Z.eqb_neq; lia).
  replace (est <? 0) with false by (symmetry; apply Z.ltb_ge; lia).
  reflexivity.
Qed.

Lemma post_trim_bounds : forall st est p,
  post_trim st est = Ok p ->
  Z.min est SYSTEM_OVERHEAD <= p <= est.
Proof.
  intros st est p H. unfold post_trim in H.
  destruct (0 <? total_bytes st).
  - destruct (removal_ratio st) as [ratio | e] eqn:Hr; cbn [bind] in H;
      [| discriminate].
    destruct (of_int (Z.max 0 (est - SYSTEM_OVERHEAD))) as [ct | e] eqn:Hct;
      cbn [bind] in H; [| discriminate].
    destruct (py_round (fmul ct (fsub f1 ratio))) as [r | e] eqn:Hround;
      cbn [bind] in H; [| discriminate].
    injection H as <-.
    assert (Hr0 : 0 <= r).
    { apply of_int_signed in Hct; [| lia].
      assert (Hy : signed false (fsub f1 ratio)).
      { unfold removal_ratio in Hr.
        destruct (removed_bytes st); cbn [bind] in Hr; [| discriminate].
        destruct (float_div_int _ _) as [q | e]; cbn [bind] in Hr;
          [| discriminate].
        injection Hr as <-. apply one_minus_ratio_signed. }
      destruct (fmul_signed ct (fsub f1 ratio) Hct Hy) as [Hs | Hn].
      - eapply py_round_nonneg; eassumption.
      - rewrite Hn in Hround. discriminate. }
    lia.
  - cbn [bind] in H. injection H as <-. lia.
Qed.

Lemma reduction_bounds : forall est post r,
  0 <= post <= est -> reduction est post = Ok r ->
  fle f0 r = true /\ fle r f100 = true.
Proof.
  intros est post r Hp H. unfold reduction in H.
  destruct (0 <? est) eqn:He; [| injection H as <-; split; reflexivity].
  apply Z.ltb_lt in He.
  destruct (int_truediv (est - post) est) as [q | e] eqn:Hq; cbn [bind] in H;
    [| discriminate].
  injection H as <-.
  apply int_truediv_at_most_1 in Hq; [| lia | lia].
  apply fmul_f100_at_most, py_round1_le_100 in Hq.
  unfold pymax, fgt.
  destruct (flt f0 (py_round1 (fmul q f100))) eqn:Hlt.
  - split; [| exact Hq]. unfold fle. unfold flt in Hlt.
    destruct (fcompare f0 (py_round1 (fmul q f100))) as [[| |] |];
      try discriminate; reflexivity.
  - split; reflexivity.
Qed.

(** What a returned record says about its token fields. *)
Lemma analyze_session_tokens :
  forall f sd,
    analyze_session f = Ok (Some sd) ->
    0 < SessionData.estimated_tokens sd
    /\ Z.min (SessionData.estimated_tokens sd) SYSTEM_OVERHEAD
       <= SessionData.post_trim_tokens sd
       <= SessionData.estimated_tokens sd
    /\ reduction (SessionData.estimated_tokens sd)
         (SessionData.post_trim_tokens sd)
       = Ok (SessionData.reduction_pct sd).
Proof.
  intros f sd H.
  destruct (analyze_session_some f sd H) as (lines & st & _ & Hrun & Hs).
  apply summarize_some in Hs.
  destruct Hs as (_ & He & Hp & Hr & _).
  pose proof (run_api_inv lines init st api_inv_init Hrun) as Hinv.
  rewrite He. split; [apply estimate_pos; exact Hinv |].
  split; [apply (post_trim_bounds st); exact Hp | exact Hr].
Qed.

Lemma post_trim_returns : forall st est,
  moderate st -> 0 < est < 2 ^ 53 -> exists p, post_trim st est = Ok p.
Proof.
  intros st est (Htr & Hfh & Hcnt & Htu & Htot & _) Hest. unfold post_trim.
  destruct (0 <? total_bytes st) eqn:Ht; [| eexists; reflexivity].
  apply Z.ltb_lt in Ht.
  unfold removal_ratio, removed_bytes, float_div_int.
  destruct (of_int_small (tool_result_bytes st) ltac:(lia)) as (x1 & -> & _).
  destruct (of_int_small (file_history_bytes st + thinking_bytes st)
              ltac:(lia)) as (x2 & -> & _).
  destruct (of_int_small (tool_result_count st * 35) ltac:(lia))
    as (x3 & -> & _).
  destruct (of_int_small (tool_use_bytes st) ltac:(lia)) as (x4 & -> & _).
  cbn [bind].
  replace (total_bytes st =? 0) with false by (symmetry; apply Z.eqb_neq; lia).
  destruct (of_int_small (total_bytes st) ltac:(lia)) as (x5 & -> & _).
  cbn [bind].
  unfold SYSTEM_OVERHEAD.
  destruct (of_int_small (Z.max 0 (est - 20000)) ltac:(lia)) as (ct & -> & Hct).
  cbn [bind].
  set (ratio := pymax f0 (pymin f0_95 _)).
  assert (Hprod : at_most (Z.max 1 (Z.max 0 (est - 20000)) * 1)
                    (fmul ct (fsub f1 ratio))).
  { apply fmul_at_most; try lia; [exact Hct |].
    apply one_minus_ratio_at_most. }
  apply at_most_finite, py_round_finite in Hprod.
  destruct Hprod as (r & ->). cbn [bind]. eexists. reflexivity.
Qed.

Lemma tool_result_pct_returns : forall st,
  moderate st -> exists t, tool_result_pct st = Ok t.
Proof.
  intros st (Htr & _ & _ & _ & Htot & _). unfold tool_result_pct.
  destruct (0 <? total_bytes st) eqn:Ht; [| eexists; reflexivity].
  apply Z.ltb_lt in Ht.
  destruct (int_truediv_ok (tool_result_bytes st) (total_bytes st)
              (Z.max 1 (tool_result_bytes st)) ltac:(lia) Ht ltac:(lia)
              ltac:(nia)) as (q & -> & Hq).
  cbn [bind].
  assert (Hp : at_most (Z.max 1 (tool_result_bytes st) * 100) (fmul q f100)).
  { apply fmul_at_most; try lia; [exact Hq | exact f100_at_most]. }
  apply at_most_finite, py_round_finite in Hp. exact Hp.
Qed.

(** With at least ten messages and counters of moderate size, the estimates
    that follow the loop raise nothing and a record is returned. *)
Lemma summarize_returns : forall f st,
  10 <= msg_count st -> moderate st -> 0 < estimate st ->
  exists sd, summarize f st = Ok (Some sd).
Proof.
  intros f st Hc Hm Hest. unfold summarize. unfold msg_count in Hc.
  replace (msg_user st + msg_assistant st <? 10) with false
    by (symmetry; apply Z.ltb_ge; exact Hc).
  assert (Hlt : estimate st < 2 ^ 53) by apply Hm.
  destruct (post_trim_returns st (estimate st) Hm ltac:(lia)) as (p & Hp).
  rewrite Hp. cbn [bind].
  pose proof (post_trim_bounds st (estimate st) p Hp) as Hb.
  unfold SYSTEM_OVERHEAD in Hb.
  assert (Hr : exists r, reduction (estimate st) p = Ok r).
  { unfold reduction.
    replace (0 <? estimate st) with true by (symmetry; apply Z.ltb_lt; lia).
    destruct (int_truediv_ok (estimate st - p) (estimate st) 1
                ltac:(lia) Hest ltac:(lia) ltac:(lia)) as (q & -> & _).
    cbn [bind]. eexists. reflexivity. }
  destruct Hr as (r & ->). cbn [bind].
  destruct (tool_result_pct_returns st Hm) as (t & ->). cbn [bind].
  eexists. reflexivity.
Qed.

Lemma analyze_session_returns : forall f size lines st,
  getsize f = Some size -> 100 <= size ->
  read_lines f = Ok lines -> run init lines = Ok st ->
  10 <= live_turns lines -> moderate st ->
  exists sd, analyze_session f = Ok (Some sd).
Proof.
  intros f size lines st Hs Hsz Hr Hrun Hturns Hm.
  unfold analyze_session. rewrite Hs.
  replace (size <? 100) with false by (symmetry; apply Z.ltb_ge; exact Hsz).
  rewrite Hr. cbn [bind]. rewrite Hrun.
  apply summarize_returns; [| exact Hm |].
  - pose proof (run_msg_count lines init st Hrun) as Hc.
    destruct (existsb is_boundary lines); cbn in Hc; lia.
  - apply estimate_pos. apply (run_api_inv lines init st api_inv_init Hrun).
Qed.

(** * Lemmas on the cost projection *)

Lemma arange1_head :
  forall max_turns,
    1 <= max_turns -> exists rest, arange1 max_turns = 1 :: rest.
Proof.
  intros m H. unfold arange1.
  destruct (Z.to_nat m) as [| n] eqn:Hn; [lia |].
  cbn [seq map]. eexists. reflexivity.
Qed.

Lemma of_int_ok :
  forall z t, of_int z = Ok t -> t = of_Z z /\ is_finite t = true.
Proof.
  intros z t H. unfold of_int in H.
  pose proof (of_Z_canonical z) as _.
  assert (Hn : of_Z z <> S754_nan).
  { unfold of_Z. destruct z as [| p | p]; cbn [binary_normalize];
      try discriminate;
      pose proof (binary_round_signed false p 0) as [_ S1];
      pose proof (binary_round_signed true p 0) as [_ S2];
      intros E; rewrite E in *; contradiction. }
  destruct (of_Z z) eqn:E; try discriminate; try contradiction;
    injection H as <-; split; reflexivity.
Qed.

(** At a hit rate of zero the steady cost of a turn is its cold cost, up to
    the sign of a zero. *)
Lemma cost_per_turn_zero_rate :
  forall tokens p s c,
    cold_cost tokens p = Ok c ->
    is_finite c = true ->
    is_finite (cache_read p) = true ->
    exists pc,
      cost_per_turn tokens (S754_zero s) p = Ok pc
      /\ match c with
         | S754_zero _ => exists s', pc = S754_zero s'
         | _ => pc = c
         end.
Proof.
  intros tokens p s c Hc Fc Fr. unfold cold_cost in Hc.
  unfold cost_per_turn.
  destruct (of_int tokens) as [t | e] eqn:Ht; cbn [bind] in *;
    [| discriminate].
  injection Hc as Hc.
  apply of_int_ok in Ht. destruct Ht as [-> Ft].
  eexists. split; [reflexivity |].
  assert (H1 : fsub f1 (S754_zero s) = f1) by (destruct s; reflexivity).
  rewrite H1.
  rewrite (fmul_one_canonical (of_Z tokens))
    by apply (of_Z_canonical tokens).
  rewrite Hc.
  assert (Hz : exists s0,
             fmul (fdiv (fmul (of_Z tokens) (S754_zero s)) f1e6) (cache_read p)
             = S754_zero s0).
  { destruct (of_Z tokens) as [s1 | s1 | | s1 m1 e1]; try discriminate;
      destruct (cache_read p) as [s2 | s2 | | s2 m2 e2]; try discriminate;
      cbn; eexists; reflexivity. }
  destruct Hz as (s0 & ->).
  destruct c as [sc | sc | | sc mc ec]; try discriminate.
  - destruct s0, sc; eexists; reflexivity.
  - reflexivity.
Qed.

Lemma crossing_at_first_turn :
  forall c pc,
    wv c -> is_finite c = true ->
    match c with
    | S754_zero _ => exists s', pc = S754_zero s'
    | _ => pc = c
    end ->
    crossing pc c pc 1 = true.
Proof.
  intros c pc Hw Fc Hpc.
  unfold crossing, no_trim_at, with_trim_at.
  change (of_Z 1) with f1. change (of_Z (1 - 1)) with (S754_zero false).
  change (of_Z 0) with (S754_zero false).
  destruct c as [sc | sc | | sc mc ec]; try discriminate.
  - destruct Hpc as (s' & ->). destruct s', sc; reflexivity.
  - subst pc.
    destruct (fmul_one sc mc ec Hw) as [He' Hm]. cbv zeta in Hm.
    rewrite Hm.
    set (e' := fexp64 (Zdigits2 (Z.pos mc) + ec)) in *.
    assert (Hz : fadd (S754_finite sc mc ec)
                   (fmul (S754_finite sc mc ec) (S754_zero false))
                 = S754_finite sc mc ec) by reflexivity.
    rewrite Hz.
    assert (Hpk : 0 < 2 ^ (ec - e')) by (apply Z.pow_pos_nonneg; lia).
    unfold fsub, SFsub.
    rewrite !shl_align_fst by lia.
    rewrite Z2Pos.id by nia.
    replace (Z.min e' ec) with e' by lia.
    replace (e' - e') with 0 by lia. rewrite Z.pow_0_r, Z.mul_1_r.
    rewrite Z.sub_diag. reflexivity.
Qed.

Lemma cold_cost_wv : forall tokens p c, cold_cost tokens p = Ok c -> wv c.
Proof.
  intros tokens p c H. unfold cold_cost in H.
  destruct (of_int tokens); cbn [bind] in H; [| discriminate].
  injection H as <-. apply fmul_wv.
Qed.

(** On finite cumulative costs the test of [project_costs] is the
    comparison of the two costs. *)
Lemma crossing_le :
  forall pre_cost post_first post_steady t,
    wv post_first ->
    is_finite (no_trim_at pre_cost t) = true ->
    is_finite (with_trim_at post_first post_steady t) = true ->
    crossing pre_cost post_first post_steady t
    = fle (with_trim_at post_first post_steady t) (no_trim_at pre_cost t).
Proof.
  intros pre_cost post_first post_steady t Hw F1 F2. unfold crossing.
  apply fsub_ge0; try assumption.
  - apply fmul_wv.
  - apply fadd_wv; [exact Hw | apply fmul_wv].
Qed.

(** * Properties *)

(** ** Tier classification *)

(** C7. The tier of a record is a function of its [tool_result_byte_pct]
    alone: it is [tool_heavy] exactly above 40, [mixed] exactly above 15 and
    up to 40, [conversational] exactly up to 15; the inputs 41, 40, 16, 15
    and 0 give tool_heavy, mixed, mixed, conversational, conversational. *)
Theorem tier_total_function_of_pct :
  (forall sd : SessionData.t,
      let pct := SessionData.tool_result_byte_pct sd in
      SessionData.tier sd = SessionData.tier (record_with_pct pct)
      /\ (SessionData.tier sd = tool_heavy <-> 40 < pct)
      /\ (SessionData.tier sd = mixed <-> 15 < pct <= 40)
      /\ (SessionData.tier sd = conversational <-> pct <= 15))
  /\ SessionData.tier (record_with_pct 41) = tool_heavy
  /\ SessionData.tier (record_with_pct 40) = mixed
  /\ SessionData.tier (record_with_pct 16) = mixed
  /\ SessionData.tier (record_with_pct 15) = conversational
  /\ SessionData.tier (record_with_pct 0) = conversational.
Proof.
  split; [| repeat split; reflexivity].
  intros sd pct. unfold SessionData.tier, TIER_TOOL_HEAVY, TIER_MIXED.
  fold pct. cbn [record_with_pct SessionData.tool_result_byte_pct].
  destruct (40 <? pct) eqn:H40; destruct (15 <? pct) eqn:H15;
    try apply Z.ltb_lt in H40; try apply Z.ltb_ge in H40;
    try apply Z.ltb_lt in H15; try apply Z.ltb_ge in H15;
    repeat split; intros; try discriminate; try lia.
Qed.

(** ** Cost projection *)

(** C1, as stated, fails: with 100000 tokens before and after, Sonnet
    prices and a hit rate of 0.9 over 60 turns, the cold rewrite costs more
    than a steady turn and is never recovered; the break-even reported is
    60, not 1. *)
Lemma breakeven_of_equal_tokens_not_one :
  exists proj,
    project_costs 100000 100000 PRICING_sonnet f0_9 60 = Ok proj
    /\ breakeven proj = 60
    /\ breakeven proj <> 1.
Proof.
  eexists. split; [vm_compute; reflexivity |].
  split; [reflexivity | discriminate].
Qed.

(** C1, amended. At a hit rate of zero, for every price list whose
    cache-read rate is finite, every [max_turns >= 1] and every token count
    whose cold cost is finite, [project_costs] called with the same token
    count before and after reports a break-even at turn 1. *)
Theorem breakeven_one_at_zero_hit_rate :
  forall (tokens : Z) (p : pricing) (s : bool) (max_turns : Z) (c : float),
    1 <= max_turns ->
    cold_cost tokens p = Ok c ->
    is_finite c = true ->
    is_finite (cache_read p) = true ->
    exists proj,
      project_costs tokens tokens p (S754_zero s) max_turns = Ok proj
      /\ breakeven proj = 1.
Proof.
  intros tokens p s m c Hm Hc Fc Fr.
  destruct (cost_per_turn_zero_rate tokens p s c Hc Fc Fr) as (pc & Hpc & Hrel).
  destruct (project_costs_ok tokens tokens p (S754_zero s) m pc pc c
              Hpc Hpc Hc) as (proj & Hproj & Hbe).
  exists proj. split; [exact Hproj |]. rewrite Hbe.
  destruct (arange1_head m Hm) as (rest & ->). cbn [map where_true].
  rewrite (crossing_at_first_turn c pc (cold_cost_wv tokens p c Hc) Fc Hrel).
  reflexivity.
Qed.

Lemma breakeven_one_at_zero_hit_rate_witness :
  exists proj,
    project_costs 100000 100000 PRICING_sonnet (S754_zero false) 60 = Ok proj
    /\ breakeven proj = 1.
Proof.
  apply (breakeven_one_at_zero_hit_rate 100000 PRICING_sonnet false 60
           (S754_finite false 6755399441055744 (-54))).
  - lia.
  - vm_compute. reflexivity.
  - reflexivity.
  - reflexivity.
Defined.

(** C2, as stated, fails where both cumulative costs overflow: with ten
    million tokens before and after and rates of 1e308, every no-trim cost
    is infinite and every with-trim cost from turn 2 on is infinite, so the
    with-trim cost is at most the no-trim cost at turn 2 (and not at turn 1,
    where it is not a number); their difference is not a number at any
    turn, and the break-even reported is 60. *)
Lemma breakeven_misses_infinite_costs :
  exists proj,
    project_costs 10000000 10000000 huge_pricing f0_9 60 = Ok proj
    /\ fle (nth 0 (with_trim proj) f0) (nth 0 (no_trim proj) f0) = false
    /\ fle (nth 1 (with_trim proj) f0) (nth 1 (no_trim proj) f0) = true
    /\ breakeven proj = 60.
Proof.
  eexists. split; [vm_compute; reflexivity |].
  repeat split; reflexivity.
Qed.

(** C2, amended. For token counts that convert to floats and
    [max_turns >= 1], the break-even reported by [project_costs] is the
    smallest turn [t] of [1..max_turns] at which the floating-point
    difference of the no-trim cumulative cost [t * cost_per_turn(pre)] and
    the with-trim cumulative cost
    [cold_cost(post) + (t - 1) * cost_per_turn(post)] is at least zero, and
    [max_turns] when there is no such turn; it lies in [1, max_turns]. At
    every turn at which the two cumulative costs are finite, that test is
    the comparison "with-trim cost <= no-trim cost". *)
Theorem breakeven_is_first_crossing :
  forall (pre post : Z) (p : pricing) (hit_rate : float) (max_turns : Z)
         (pre_cost post_steady post_first : float),
    1 <= max_turns ->
    cost_per_turn pre hit_rate p = Ok pre_cost ->
    cost_per_turn post hit_rate p = Ok post_steady ->
    cold_cost post p = Ok post_first ->
    exists proj,
      project_costs pre post p hit_rate max_turns = Ok proj
      /\ first_turn_or_max (crossing pre_cost post_first post_steady)
           max_turns (breakeven proj)
      /\ (forall t,
             is_finite (no_trim_at pre_cost t) = true ->
             is_finite (with_trim_at post_first post_steady t) = true ->
             crossing pre_cost post_first post_steady t
             = fle (with_trim_at post_first post_steady t)
                   (no_trim_at pre_cost t)).
Proof.
  intros pre post p h m pre_cost post_steady post_first Hm H1 H2 H3.
  destruct (project_costs_ok pre post p h m _ _ _ H1 H2 H3)
    as (proj & Hproj & Hbe).
  exists proj. split; [exact Hproj |]. split.
  - rewrite Hbe. apply first_crossing_search. exact Hm.
  - intros t F1 F2. apply crossing_le; try assumption.
    eapply cold_cost_wv. exact H3.
Qed.

Lemma breakeven_is_first_crossing_witness :
  exists proj,
    project_costs 100000 20000 PRICING_sonnet f0_9 60 = Ok proj
    /\ first_turn_or_max
         (crossing (S754_finite false 4647714815446351 (-56))
                   (S754_finite false 5404319552844595 (-56))
                   (S754_finite false 7436343704714162 (-59)))
         60 (breakeven proj)
    /\ (forall t,
           is_finite
             (no_trim_at (S754_finite false 4647714815446351 (-56)) t) = true ->
           is_finite
             (with_trim_at (S754_finite false 5404319552844595 (-56))
                (S754_finite false 7436343704714162 (-59)) t) = true ->
           crossing (S754_finite false 4647714815446351 (-56))
                    (S754_finite false 5404319552844595 (-56))
                    (S754_finite false 7436343704714162 (-59)) t
           = fle (with_trim_at (S754_finite false 5404319552844595 (-56))
                    (S754_finite false 7436343704714162 (-59)) t)
                 (no_trim_at (S754_finite false 4647714815446351 (-56)) t)).
Proof.
  apply (breakeven_is_first_crossing 100000 20000 PRICING_sonnet f0_9 60).
  - lia.
  - vm_compute. reflexivity.
  - vm_compute. reflexivity.
  - vm_compute. reflexivity.
Defined.

(** ** Compaction boundaries *)

(** C4. The code departs from the claim at the last API-reported total:
    the branch that resets the counters at a compaction boundary assigns
    every one of them, the character count of the last API observation
    included, except [last_api_input_tokens]. After an assistant record
    that reports 1200 input tokens, a summary record leaves the total at
    1200 and every other counter as a boundary sets it; ten user messages
    later the session is estimated at 1213 tokens, from a total reported
    before the compaction, where the same records from the summary on are
    estimated at 20013. *)
Theorem compaction_keeps_last_api_total :
  (exists st,
      run init [assistant_1200] = Ok st
      /\ last_api_input_tokens st = Some 1200
      /\ is_boundary summary_recap = true
      /\ step st summary_recap
         = Ok (after_boundary (line_bytes summary_recap) (strlen "recap")
                 (line_bytes summary_recap) (Some 1200)))
  /\ (exists sd,
         analyze_session stale_total_file = Ok (Some sd)
         /\ SessionData.estimated_tokens sd = 1213)
  /\ (exists sd,
         analyze_session recap_file = Ok (Some sd)
         /\ SessionData.estimated_tokens sd = 20013).
Proof.
  split; [| split].
  - eexists. split; [vm_compute; reflexivity |].
    split; [reflexivity |]. split; [reflexivity |].
    vm_compute. reflexivity.
  - eexists. split; [vm_compute; reflexivity | reflexivity].
  - eexists. split; [vm_compute; reflexivity | reflexivity].
Qed.

(** C5. For every log of the form [before ++ boundary :: after], where
    [boundary] is a compaction boundary: the seven byte counters (six
    categories and total) with which the parse of the whole log ends are
    those with which the parse of [boundary :: after] alone ends. *)
Theorem compaction_discards_prefix :
  forall (before after : list line) (boundary : line) (st_all : state),
    is_boundary boundary = true ->
    run init (before ++ boundary :: after) = Ok st_all ->
    exists st_alone,
      run init (boundary :: after) = Ok st_alone
      /\ byte_counters st_all = byte_counters st_alone.
Proof.
  intros before after boundary st_all Hb Hall.
  destruct (run init before) as [st | e] eqn:Hpre.
  - pose proof (run_past_boundary before after boundary st Hb Hpre) as H.
    rewrite Hall in H. cbn [rmap] in H.
    destruct (run init (boundary :: after)) as [st_alone | e];
      cbn [rmap] in H; [| discriminate].
    exists st_alone. split; [reflexivity |]. congruence.
  - rewrite run_app, Hpre in Hall. discriminate.
Qed.

Lemma compaction_discards_prefix_witness :
  exists st_alone,
    run init (summary_recap :: [plain_user; bulky_line]) = Ok st_alone
    /\ byte_counters st_alone = (126, 0, 0, 95, 0, 0, 217).
Proof.
  destruct (compaction_discards_prefix [plain_user; assistant_1200]
              [plain_user; bulky_line] summary_recap
              {| total_bytes := 217; tool_result_bytes := 126;
                 tool_result_count := 1; thinking_bytes := 0;
                 thinking_count := 0; file_history_bytes := 0;
                 file_history_count := 0; conversation_bytes := 95;
                 tool_use_bytes := 0; tool_use_count := 0; other_bytes := 0;
                 content_chars := 10; msg_user := 2; msg_assistant := 0;
                 last_api_input_tokens := Some 1200;
                 content_chars_at_last_api := 0 |}
              eq_refl ltac:(vm_compute; reflexivity))
    as (st_alone & Hrun & Hbytes).
  exists st_alone. split; [exact Hrun |]. rewrite <- Hbytes. reflexivity.
Defined.

(** ** Byte accounting *)

(** C6, as stated, fails: ten user records, each a tool result whose
    re-serialization is longer than the line it came from, give a record
    whose six categories add up to more than its total. *)
Lemma categories_can_exceed_total :
  exists sd,
    analyze_session bulky_file = Ok (Some sd)
    /\ SessionData.total_bytes sd = 1220
    /\ record_category_sum sd = 1260
    /\ SessionData.total_bytes sd < record_category_sum sd.
Proof.
  eexists. split; [vm_compute; reflexivity |].
  repeat split; reflexivity.
Qed.

(** C6, amended. When no line of the log has content blocks whose
    re-serialization ([tr_b + sig_b + tu_b]) is longer than the line
    itself, the total is at least the sum of the six categories after every
    prefix of the log, and in the record the analyzer returns. *)
Theorem total_bytes_bounds_categories :
  forall (f : session_file) (lines : list line),
    read_lines f = Ok lines ->
    Forall fits lines ->
    (forall (k : nat) (st : state),
        run init (firstn k lines) = Ok st ->
        category_sum st <= total_bytes st)
    /\ (forall sd,
           analyze_session f = Ok (Some sd) ->
           record_category_sum sd <= SessionData.total_bytes sd).
Proof.
  intros f lines Hread Hfits. split.
  - intros k st Hrun.
    apply (run_total_ge (firstn k lines) init st); [| cbn; lia | exact Hrun].
    rewrite <- (firstn_skipn k lines) in Hfits.
    apply Forall_app in Hfits. apply Hfits.
  - intros sd H.
    destruct (analyze_session_some f sd H) as (lines' & st & Hr & Hrun & Hs).
    rewrite Hread in Hr. injection Hr as <-.
    apply summarize_some in Hs.
    destruct Hs as (_ & _ & _ & _ & Ht & Hc & _).
    rewrite Ht, Hc.
    apply (run_total_ge lines init st); [exact Hfits | cbn; lia | exact Hrun].
Qed.

Lemma total_bytes_bounds_categories_witness :
  (exists st,
      run init (firstn 3 (repeat plain_user 10)) = Ok st
      /\ category_sum st <= total_bytes st)
  /\ (exists sd,
         analyze_session plain_file = Ok (Some sd)
         /\ record_category_sum sd <= SessionData.total_bytes sd).
Proof.
  split.
  - eexists. split; [vm_compute; reflexivity |].
    apply (proj1 (total_bytes_bounds_categories plain_file
                    (repeat plain_user 10) eq_refl
                    ltac:(repeat constructor; vm_compute; discriminate))
             3%nat).
    vm_compute. reflexivity.
  - eexists. split; [vm_compute; reflexivity |].
    apply (proj2 (total_bytes_bounds_categories plain_file
                    (repeat plain_user 10) eq_refl
                    ltac:(repeat constructor; vm_compute; discriminate))).
    vm_compute. reflexivity.
Defined.

(** ** Not-analyzable sessions *)




(** The estimates that follow the parse are not guarded: a token total
    beyond the range of a float parses, and then raises out of the analyzer
    and out of the batch. *)
Example unguarded_estimate_leaves_batch :
  line_bytes assistant_huge = 459
  /\ (exists st, parse huge_total_file = Ok st)
  /\ analyze_session huge_total_file = Raise OverflowError
  /\ analyze_all PRICING_sonnet f0_9 5000
       [bulky_file; huge_total_file; plain_file]
     = Raise OverflowError.
Proof.
  split; [vm_compute; reflexivity |].
  split; [eexists; vm_compute; reflexivity |].
  split; vm_compute; reflexivity.
Qed.

(** ** Ground-truth adapter *)

(** C9, as stated, fails: for an entry that carries a penalty of 5 and
    savings of 7, the adapter called for Sonnet prices at a hit rate of 0.9
    returns 5 and 7, while the computation that the standalone mode makes
    for the same record under these prices gives other amounts. *)
Lemma adapter_keeps_file_penalty_and_savings :
  exists sd recomputed,
    load_from_json [stale_entry] PRICING_sonnet f0_9 = Ok [sd]
    /\ with_costs PRICING_sonnet f0_9 sd = Ok recomputed
    /\ SessionData.cache_miss_penalty sd = dec 5 0
    /\ SessionData.savings_per_turn sd = dec 7 0
    /\ SessionData.cache_miss_penalty recomputed
       <> SessionData.cache_miss_penalty sd
    /\ SessionData.savings_per_turn recomputed
       <> SessionData.savings_per_turn sd.
Proof.
  eexists. eexists.
  split; [vm_compute; reflexivity |].
  split; [vm_compute; reflexivity |].
  split; [vm_compute; reflexivity |].
  split; [vm_compute; reflexivity |].
  split; vm_compute; discriminate.
Qed.

(** C9, amended. For every entry of a ground-truth file the adapter
    recomputes [breakeven_turns] with [project_costs] under the requested
    prices and hit rate, over 60 turns; [cache_miss_penalty] and
    [savings_per_turn] are the values the entry carries, and 0 when it
    carries none. *)
Theorem adapter_recomputes_breakeven_only :
  forall (sessions : list entry) (p : pricing) (hit_rate : float)
         (records : list SessionData.t),
    load_from_json sessions p hit_rate = Ok records ->
    Forall2
      (fun s sd =>
         (exists proj,
             project_costs (estimatedTokens s) (postTrimTokens s) p hit_rate 60
             = Ok proj
             /\ SessionData.breakeven_turns sd = breakeven proj)
         /\ SessionData.cache_miss_penalty sd
            = or_default (cacheMissPenalty s) f0
         /\ SessionData.savings_per_turn sd
            = or_default (savingsPerTurn s) f0)
      sessions records.
Proof.
  induction sessions as [| s rest IH]; intros p h records H;
    cbn [load_from_json] in H.
  - injection H as <-. constructor.
  - destruct (load_entry p h s) as [sd | e] eqn:Hs; cbn [bind] in H;
      [| discriminate].
    destruct (load_from_json rest p h) as [more | e] eqn:Hm; cbn [bind] in H;
      [| discriminate].
    injection H as <-. constructor.
    + apply load_entry_fields in Hs.
      destruct Hs as (A & B & C & _). repeat split; assumption.
    + apply (IH p h more Hm).
Qed.

Lemma adapter_recomputes_breakeven_only_witness :
  exists records,
    load_from_json [stale_entry] PRICING_sonnet f0_9 = Ok records
    /\ Forall2
         (fun s sd =>
            (exists proj,
                project_costs (estimatedTokens s) (postTrimTokens s)
                  PRICING_sonnet f0_9 60 = Ok proj
                /\ SessionData.breakeven_turns sd = breakeven proj)
            /\ SessionData.cache_miss_penalty sd
               = or_default (cacheMissPenalty s) f0
            /\ SessionData.savings_per_turn sd
               = or_default (savingsPerTurn s) f0)
         [stale_entry] records.
Proof.
  eexists. split; [vm_compute; reflexivity |].
  apply (adapter_recomputes_breakeven_only [stale_entry] PRICING_sonnet f0_9).
  vm_compute. reflexivity.
Defined.

(** ** Bounds on the token fields *)

(** C3, as stated, fails for the ground-truth adapter: it copies the token
    counts and the reduction of an entry as they are, so an entry with 1000
    tokens before the trim, 2000 after it and a reduction of 150 gives a
    record outside the bounds. *)
Lemma adapter_record_out_of_bounds :
  exists sd,
    load_from_json [inflated_entry] PRICING_sonnet f0_9 = Ok [sd]
    /\ SessionData.estimated_tokens sd < SessionData.post_trim_tokens sd
    /\ fle (SessionData.reduction_pct sd) f100 = false.
Proof.
  eexists. split; [vm_compute; reflexivity |].
  split; reflexivity.
Qed.

(** C3, amended. Every record that the session analyzer returns has
    [0 <= post_trim_tokens <= estimated_tokens] and
    [0 <= reduction_pct <= 100]. A record of the ground-truth adapter has
    the token counts and the reduction of its entry, whatever they are. *)
Theorem analyzer_record_bounds :
  (forall (f : session_file) (sd : SessionData.t),
      analyze_session f = Ok (Some sd) ->
      0 <= SessionData.post_trim_tokens sd <= SessionData.estimated_tokens sd
      /\ fle f0 (SessionData.reduction_pct sd) = true
      /\ fle (SessionData.reduction_pct sd) f100 = true)
  /\ (forall (p : pricing) (hit_rate : float) (s : entry)
             (sd : SessionData.t),
         load_entry p hit_rate s = Ok sd ->
         SessionData.estimated_tokens sd = estimatedTokens s
         /\ SessionData.post_trim_tokens sd = postTrimTokens s
         /\ SessionData.reduction_pct sd = reductionPercent s).
Proof.
  split.
  - intros f sd H.
    destruct (analyze_session_tokens f sd H) as (Hpos & Hb & Hr).
    unfold SYSTEM_OVERHEAD in Hb.
    split; [lia |].
    eapply reduction_bounds; [| exact Hr]. lia.
  - intros p h s sd H. apply load_entry_fields in H.
    destruct H as (_ & _ & _ & A & B & C). repeat split; assumption.
Qed.

Lemma analyzer_record_bounds_witness :
  (exists sd,
      analyze_session plain_file = Ok (Some sd)
      /\ 0 <= SessionData.post_trim_tokens sd <= SessionData.estimated_tokens sd
      /\ fle f0 (SessionData.reduction_pct sd) = true
      /\ fle (SessionData.reduction_pct sd) f100 = true)
  /\ (exists sd,
         load_entry PRICING_sonnet f0_9 inflated_entry = Ok sd
         /\ SessionData.estimated_tokens sd = 1000
         /\ SessionData.post_trim_tokens sd = 2000
         /\ SessionData.reduction_pct sd = dec 150 0).
Proof.
  split.
  - eexists. split; [vm_compute; reflexivity |].
    apply (proj1 analyzer_record_bounds plain_file).
    vm_compute. reflexivity.
  - eexists. split; [vm_compute; reflexivity |].
    apply (proj2 analyzer_record_bounds PRICING_sonnet f0_9 inflated_entry).
    vm_compute. reflexivity.
Defined.

(** C10. For every record the analyzer returns with [total_bytes > 0], the
    post-trim estimate is at least the smaller of the pre-trim estimate and
    [SYSTEM_OVERHEAD]; when the pre-trim estimate is at most
    [SYSTEM_OVERHEAD], the post-trim estimate equals it and the reduction
    is 0. *)
Theorem post_trim_never_below_overhead :
  forall (f : session_file) (sd : SessionData.t),
    analyze_session f = Ok (Some sd) ->
    0 < SessionData.total_bytes sd ->
    Z.min (SessionData.estimated_tokens sd) 20000
    <= SessionData.post_trim_tokens sd
    /\ (SessionData.estimated_tokens sd <= 20000 ->
        SessionData.post_trim_tokens sd = SessionData.estimated_tokens sd
        /\ SessionData.reduction_pct sd = f0).
Proof.
  intros f sd H _.
  destruct (analyze_session_tokens f sd H) as (Hpos & Hb & Hr).
  unfold SYSTEM_OVERHEAD in Hb.
  split; [lia |].
  intros Hle.
  assert (E : SessionData.post_trim_tokens sd
              = SessionData.estimated_tokens sd) by lia.
  split; [exact E |].
  rewrite E, (reduction_none _ Hpos) in Hr. injection Hr as <-. reflexivity.
Qed.

Lemma post_trim_never_below_overhead_witness :
  exists sd,
    analyze_session bulky_file = Ok (Some sd)
    /\ SessionData.estimated_tokens sd = 20000
    /\ SessionData.tool_result_bytes sd = 1260
    /\ SessionData.post_trim_tokens sd = SessionData.estimated_tokens sd
    /\ SessionData.reduction_pct sd = f0.
Proof.
  eexists. split; [vm_compute; reflexivity |].
  split; [reflexivity |]. split; [reflexivity |].
  apply (proj2 (post_trim_never_below_overhead bulky_file _
                  ltac:(vm_compute; reflexivity) ltac:(reflexivity))).
  cbn. lia.
Defined.

(** * Further lemmas *)

(** ** The totals of a parse *)

Lemma since_boundary_no_boundary :
  forall lines, existsb is_boundary lines = false -> since_boundary lines = lines.
Proof.
  destruct lines as [| ln rest]; intros H; cbn in *.
  - reflexivity.
  - apply orb_false_iff in H. destruct H as (_ & ->). reflexivity.
Qed.

Lemma step_boundary_categories :
  forall st ln st',
    is_boundary ln = true ->
    step st ln = Ok st' ->
    category_sum st' = attributed ln.
Proof.
  intros st ln st' Hb H. unfold attributed, carries_summary. rewrite Hb.
  unfold is_boundary in Hb. unfold step in H.
  destruct (parsed ln) as [[| b | z | s | l | d] |]; try discriminate.
  rewrite Hb in H. unfold category_sum.
  destruct (truthy (summary_of d)).
  - destruct (py_len (summary_of d)) as [n | e]; cbn [bind] in H;
      [| discriminate].
    injection H as <-. cbn. lia.
  - injection H as <-. cbn. lia.
Qed.

Lemma run_totals :
  forall lines st st',
    run st lines = Ok st' ->
    total_bytes st'
    = (if existsb is_boundary lines then 0 else total_bytes st)
      + list_sum (map line_bytes (since_boundary lines))
    /\ category_sum st'
       = (if existsb is_boundary lines then 0 else category_sum st)
         + list_sum (map attributed (since_boundary lines)).
Proof.
  induction lines as [| ln rest IH]; intros st st' H; cbn [run] in H.
  - injection H as <-. cbn. lia.
  - destruct (step st ln) as [s1 | e] eqn:Hs; cbn [bind] in H;
      [| discriminate].
    apply IH in H. cbn [existsb since_boundary].
    destruct (existsb is_boundary rest) eqn:Hr.
    + rewrite orb_true_r. exact H.
    + rewrite orb_false_r.
      rewrite (since_boundary_no_boundary rest Hr) in H.
      cbn [map list_sum fold_right]. fold (list_sum (map line_bytes rest)).
      fold (list_sum (map attributed rest)).
      destruct (is_boundary ln) eqn:Hb.
      * destruct (step_boundary_effect st ln s1 Hb Hs) as (T & _).
        pose proof (step_boundary_categories st ln s1 Hb Hs) as C.
        lia.
      * destruct (step_other_effect st ln s1 Hb Hs) as (T & C & _).
        unfold attributed at 1. rewrite Hb. lia.
Qed.

Lemma since_boundary_shape :
  forall lines,
    lines = [] /\ since_boundary lines = []
    \/ exists before ln rest,
         lines = before ++ ln :: rest
         /\ since_boundary lines = ln :: rest
         /\ existsb is_boundary rest = false
         /\ (is_boundary ln = false -> before = []).
Proof.
  induction lines as [| ln rest IH]; [left; split; reflexivity | right].
  cbn [since_boundary].
  destruct (existsb is_boundary rest) eqn:Hr.
  - destruct IH as [(-> & _) | (before & l0 & r0 & E & S & N & B)];
      [discriminate |].
    exists (ln :: before), l0, r0. rewrite E at 1. repeat split; try assumption.
    intros Hb. specialize (B Hb). subst before. cbn in E. subst rest.
    cbn in Hr. rewrite Hb, N in Hr. discriminate.
  - exists [], ln, rest. repeat split; assumption.
Qed.

Lemma attributed_fits :
  forall ln, is_boundary ln = false -> fits ln -> attributed ln = line_bytes ln.
Proof.
  intros ln Hb Hf. unfold attributed. rewrite Hb. unfold fits in Hf. lia.
Qed.

Lemma attributed_sum_fits :
  forall lines,
    existsb is_boundary lines = false -> Forall fits lines ->
    list_sum (map attributed lines) = list_sum (map line_bytes lines).
Proof.
  induction lines as [| ln rest IH]; intros Hn Hf; [reflexivity |].
  cbn in Hn. apply orb_false_iff in Hn. destruct Hn as (Hb & Hr).
  inversion Hf as [| ? ? Hln Hrest]; subst.
  cbn [map list_sum fold_right].
  fold (list_sum (map attributed rest)). fold (list_sum (map line_bytes rest)).
  rewrite (attributed_fits ln Hb Hln), (IH Hr Hrest). reflexivity.
Qed.

(** ** No counter is negative *)

Ltac nonneg_solve :=
  unfold nonneg, nonneg_locals in *; cbn in *;
  repeat match goal with
    | |- context [strlen ?t] =>
        lazymatch goal with
        | _ : 0 <= strlen t |- _ => fail
        | _ => pose proof (strlen_nonneg t)
        end
    end;
  repeat split; lia.

Lemma scan_inner_nonneg :
  forall inner st st',
    nonneg st -> scan_inner st inner = Ok st' -> nonneg st'.
Proof.
  induction inner as [| ib rest IH]; intros st st' Hn H; cbn [scan_inner] in H.
  - injection H as <-. exact Hn.
  - destruct ib as [| b | z | s | l | d]; try (eapply IH; eassumption).
    destruct (eq_str (get d "type") "text"); [| eapply IH; eassumption].
    destruct (py_len (get_default d "text" (JStr ""))) as [n | e] eqn:Hl;
      cbn [bind] in H; [| discriminate].
    apply py_len_nonneg in Hl.
    eapply IH; [| exact H]. nonneg_solve.
Qed.

Lemma scan_block_nonneg :
  forall block st lc st' lc',
    nonneg st -> nonneg_locals lc ->
    scan_block st lc block = Ok (st', lc') ->
    nonneg st' /\ nonneg_locals lc'.
Proof.
  intros block st lc st' lc' Hn Hl H.
  assert (Hd : forall j, 0 <= dumps_bytes j) by (intros; apply strlen_nonneg).
  destruct block as [| b | z | s | l | d];
    try (injection H as <- <-; split; assumption).
  unfold scan_block in H.
  destruct (eq_str (get d "type") "tool_result").
  { pose proof (Hd (JObj d)).
    destruct (get d "content") as [| b | z | s | inner | d'];
      try (injection H as <- <-; split; nonneg_solve).
    destruct (scan_inner (add_tool_result_count 1 st) inner) as [s1 | e]
      eqn:Hi; cbn [bind] in H; [| discriminate].
    injection H as <- <-. split; [| nonneg_solve].
    eapply scan_inner_nonneg; [| exact Hi]. nonneg_solve. }
  destruct (eq_str (get d "type") "thinking").
  { pose proof (Hd (get d "signature")).
    destruct (truthy (get d "signature"));
      destruct (get d "thinking");
      injection H as <- <-; split; nonneg_solve. }
  destruct (eq_str (get d "type") "tool_use").
  { pose proof (Hd (JObj d)).
    destruct (truthy (get d "input")); injection H as <- <-;
      split; nonneg_solve. }
  destruct (eq_str (get d "type") "text" && is_str (get d "text"));
    [destruct (get d "text") |];
    injection H as <- <-; split; nonneg_solve.
Qed.

Lemma scan_blocks_nonneg :
  forall blocks st lc st' lc',
    nonneg st -> nonneg_locals lc ->
    scan_blocks st lc blocks = Ok (st', lc') ->
    nonneg st' /\ nonneg_locals lc'.
Proof.
  induction blocks as [| block rest IH]; intros st lc st' lc' Hn Hl H;
    cbn [scan_blocks] in H.
  - injection H as <- <-. split; assumption.
  - destruct (scan_block st lc block) as [[s1 l1] | e] eqn:Hb;
      cbn [bind fst snd] in H; [| discriminate].
    destruct (scan_block_nonneg _ _ _ _ _ Hn Hl Hb) as (N1 & L1).
    eapply IH; eassumption.
Qed.

Lemma classify_content_nonneg :
  forall d lb role st st',
    nonneg st -> classify_content d lb role st = Ok st' -> nonneg st'.
Proof.
  intros d lb role st st' Hn H. unfold classify_content in H.
  assert (Hs : forall r : state * locals,
             (match content_of d with
              | JArr blocks => scan_blocks st {| tr_b := 0; sig_b := 0; tu_b := 0 |} blocks
              | JStr c => Ok (add_content_chars (strlen c) st,
                              {| tr_b := 0; sig_b := 0; tu_b := 0 |})
              | _ => Ok (st, {| tr_b := 0; sig_b := 0; tu_b := 0 |})
              end) = Ok r ->
             nonneg (fst r) /\ nonneg_locals (snd r)).
  { intros [s1 l1] Hr.
    destruct (content_of d) as [| b | z | s | blocks | d'];
      try (injection Hr as <- <-; split; nonneg_solve).
    eapply scan_blocks_nonneg; [exact Hn | | exact Hr]. nonneg_solve. }
  destruct (match content_of d with
            | JArr blocks => scan_blocks st _ blocks
            | JStr c => _
            | _ => _
            end) as [[s1 l1] | e]; cbn [bind] in H; [| discriminate].
  destruct (Hs (s1, l1) eq_refl) as (N & L). cbn [fst snd] in N, L.
  clear Hs.
  destruct (eq_str role "user" || eq_str role "human"
            || eq_str role "assistant");
    injection H as <-; nonneg_solve.
Qed.

Lemma step_nonneg :
  forall st ln st', nonneg st -> step st ln = Ok st' -> nonneg st'.
Proof.
  intros st ln st' Hn H. unfold step in H.
  pose proof (strlen_nonneg (raw ln)) as Hlb. fold (line_bytes ln) in Hlb.
  destruct (parsed ln) as [[| b | z | s | l | d] |]; try discriminate.
  - destruct (is_compaction d).
    + destruct (truthy (summary_of d)).
      * destruct (py_len (summary_of d)) as [n | e] eqn:Hl; cbn [bind] in H;
          [| discriminate].
        apply py_len_nonneg in Hl. injection H as <-. nonneg_solve.
      * injection H as <-. nonneg_solve.
    + destruct (eq_str (get d "type") "file-history-snapshot");
        [injection H as <-; nonneg_solve |].
      destruct (eq_str (get d "type") "queue-operation");
        [injection H as <-; nonneg_solve |].
      set (role := py_or (get d "role") (get d "type")) in *.
      set (sa := if eq_str role "user" || eq_str role "human"
                 then add_msg_user 1 (add_total_bytes (line_bytes ln) st)
                 else add_total_bytes (line_bytes ln) st) in *.
      assert (Ha : nonneg sa).
      { unfold sa. destruct (eq_str role "user" || eq_str role "human");
          nonneg_solve. }
      clearbody sa.
      destruct (eq_str role "assistant").
      * destruct (observe_usage d (add_msg_assistant 1 sa)) as [sb | e] eqn:Ho;
          cbn [bind] in H; [| discriminate].
        eapply classify_content_nonneg; [| exact H].
        apply observe_usage_effect in Ho.
        destruct Ho as [-> | (api & _ & ->)]; nonneg_solve.
      * cbn [bind] in H. eapply classify_content_nonneg; eassumption.
  - injection H as <-. nonneg_solve.
Qed.

Lemma run_nonneg :
  forall lines st st', nonneg st -> run st lines = Ok st' -> nonneg st'.
Proof.
  induction lines as [| ln rest IH]; intros st st' Hn H; cbn [run] in H.
  - injection H as <-. exact Hn.
  - destruct (step st ln) as [s1 | e] eqn:Hs; cbn [bind] in H;
      [| discriminate].
    eapply IH; [| exact H]. eapply step_nonneg; eassumption.
Qed.

Lemma nonneg_init : nonneg init.
Proof. unfold nonneg. cbn. repeat split; lia. Qed.

(** ** From the counters to the record *)

Lemma summarize_fields :
  forall f st sd,
    summarize f st = Ok (Some sd) ->
    tool_result_pct st = Ok (SessionData.tool_result_byte_pct sd)
    /\ SessionData.tool_result_bytes sd = tool_result_bytes st
    /\ SessionData.thinking_bytes sd = thinking_bytes st
    /\ SessionData.file_history_bytes sd = file_history_bytes st
    /\ SessionData.conversation_bytes sd = conversation_bytes st
    /\ SessionData.tool_use_bytes sd = tool_use_bytes st
    /\ SessionData.other_bytes sd = other_bytes st
    /\ SessionData.tool_result_count sd = tool_result_count st
    /\ SessionData.breakeven_turns sd = 0
    /\ SessionData.cache_miss_penalty sd = f0
    /\ SessionData.savings_per_turn sd = f0
    /\ SessionData.session_id sd = stem f
    /\ SessionData.project sd = parent_name f.
Proof.
  intros f st sd H. unfold summarize in H.
  destruct (msg_user st + msg_assistant st <? 10); [discriminate |].
  destruct (post_trim st (estimate st)) as [p | e]; cbn [bind] in H;
    [| discriminate].
  destruct (reduction (estimate st) p) as [r | e]; cbn [bind] in H;
    [| discriminate].
  destruct (tool_result_pct st) as [t | e]; cbn [bind] in H;
    [| discriminate].
  injection H as <-. cbn. repeat split; reflexivity.
Qed.

Lemma int_truediv_signed : forall a b q,
  0 <= a -> 0 < b -> int_truediv a b = Ok q -> signed false q.
Proof.
  intros a b q Ha Hb H. unfold int_truediv in H.
  destruct (b =? 0) eqn:Hb0; [apply Z.eqb_eq in Hb0; lia |].
  destruct (a =? 0) eqn:Ha0.
  { injection H as <-. cbn. apply Z.ltb_ge. lia. }
  apply Z.eqb_neq in Ha0.
  assert (Hq : signed false (fdiv (zfloat a) (zfloat b))).
  { destruct a as [| pa | pa]; try lia. destruct b as [| pb | pb]; try lia.
    unfold fdiv, zfloat, SFdiv, SFdiv_core_binary.
    set (e' := Z.min _ _).
    set (s := 0 - 0 - e').
    set (m' := match s with Z.pos _ => Z.shiftl (Z.pos pa) s | 0 => Z.pos pa | Z.neg _ => 0 end).
    assert (Hm' : 0 <= m').
    { unfold m'. destruct s as [| ps | ps]; try lia.
      rewrite Z.shiftl_mul_pow2 by lia.
      assert (0 < 2 ^ Z.pos ps) by (apply Z.pow_pos_nonneg; lia). nia. }
    clearbody m'.
    destruct (Z.div_eucl m' (Z.pos pb)) as [qq rr] eqn:Hde.
    apply div_eucl_div_mod in Hde. destruct Hde as [-> ->].
    cbn [xorb]. apply bra_wv. apply Z.div_pos; lia. }
  destruct (fdiv (zfloat a) (zfloat b)); try discriminate;
    injection H as <-; exact Hq.
Qed.

Lemma py_round_at_most : forall K x r,
  at_most K x -> py_round x = Ok r -> 0 <= r <= K \/ (r = 0).
Proof.
  intros K x r Hx H. destruct x as [s | s | | s m e]; try destruct Hx.
  - injection H as <-. right. reflexivity.
  - destruct s; [destruct Hx |]. destruct Hx as (He & Hm).
    injection H as <-. cbn [cond_Zopp]. left.
    apply round_half_even_bounds; try lia.
Qed.

Lemma tool_result_pct_bounds :
  forall st t,
    nonneg st -> tool_result_pct st = Ok t ->
    0 <= t /\ (tool_result_bytes st <= total_bytes st -> t <= 100).
Proof.
  intros st t Hn H. unfold tool_result_pct in H.
  destruct Hn as (_ & Htr & _).
  destruct (0 <? total_bytes st) eqn:Ht; [| injection H as <-; lia].
  apply Z.ltb_lt in Ht.
  destruct (int_truediv (tool_result_bytes st) (total_bytes st)) as [q | e]
    eqn:Hq; cbn [bind] in H; [| discriminate].
  split.
  - pose proof (int_truediv_signed _ _ _ Htr Ht Hq) as Hs.
    destruct (fmul_signed q f100 Hs eq_refl) as [S | N].
    + eapply py_round_nonneg; eassumption.
    + rewrite N in H. discriminate.
  - intros Hle.
    pose proof (int_truediv_at_most_1 _ _ _ (conj Htr Hle) Ht Hq) as H1.
    apply fmul_f100_at_most in H1.
    destruct (py_round_at_most 100 _ _ H1 H); lia.
Qed.

Lemma run_steps_each :
  forall lines st st' ln,
    run st lines = Ok st' -> In ln lines ->
    exists s s', step s ln = Ok s'.
Proof.
  induction lines as [| l0 rest IH]; intros st st' ln H Hin; [destruct Hin |].
  cbn [run] in H.
  destruct (step st l0) as [s1 | e] eqn:Hs; cbn [bind] in H; [| discriminate].
  destruct Hin as [-> | Hin].
  - exists st, s1. exact Hs.
  - eapply IH; eassumption.
Qed.

Lemma count_turns_cons :
  forall ln rest, count_turns rest <= count_turns (ln :: rest).
Proof.
  intros ln rest. unfold count_turns. cbn [filter].
  destruct (is_turn ln); cbn [List.length]; lia.
Qed.

Lemma live_turns_le_total :
  forall lines, live_turns lines <= total_turns lines.
Proof.
  unfold live_turns, total_turns.
  induction lines as [| ln rest IH]; [cbn; lia |].
  cbn [live_segment]. pose proof (count_turns_cons ln rest).
  destruct (existsb is_boundary rest); [lia |].
  destruct (is_boundary ln); lia.
Qed.

(** ** A line that is not JSON moves two counters only *)











(** ** Magnitudes of sums, differences and quotients *)

Lemma at_most_mono : forall K K' x, K <= K' -> at_most K x -> at_most K' x.
Proof.
  intros K K' [s | s | | s m e] HK H; cbn [at_most] in *; try assumption.
  destruct s; [assumption |]. destruct H as (He & Hm). split; [exact He |].
  assert (0 < 2 ^ (- e)) by (apply Z.pow_pos_nonneg; lia). nia.
Qed.

Lemma fadd_at_most : forall K1 K2 x y,
  0 < K1 -> 0 < K2 -> K1 + K2 < 2 ^ 53 ->
  at_most K1 x -> at_most K2 y -> at_most (K1 + K2) (fadd x y).
Proof.
  intros K1 K2 [sx | sx | | sx mx ex] [sy | sy | | sy my ey] H1 H2 HK Hx Hy;
    cbn [at_most] in Hx, Hy; try contradiction.
  - destruct sx, sy; exact I.
  - apply (at_most_mono K2); [lia | exact Hy].
  - apply (at_most_mono K1); [lia | exact Hx].
  - destruct sx; [contradiction |]. destruct sy; [contradiction |].
    destruct Hx as [Hex Hmx]. destruct Hy as [Hey Hmy].
    unfold fadd, SFadd. cbn [cond_Zopp].
    change (IntDef.Z.min ex ey) with (Z.min ex ey).
    assert (Z.min ex ey <= ex) by lia.
    assert (Z.min ex ey <= ey) by lia.
    rewrite !shl_align_fst by assumption.
    set (ez := Z.min ex ey).
    assert (0 < 2 ^ (ex - ez)) by (apply Z.pow_pos_nonneg; lia).
    assert (0 < 2 ^ (ey - ez)) by (apply Z.pow_pos_nonneg; lia).
    assert (Hez : ez <= 0) by (unfold ez; lia).
    apply binary_normalize_at_most; try lia.
    assert (E1 : 2 ^ (- ez) = 2 ^ (- ex) * 2 ^ (ex - ez)).
    { rewrite <- Z.pow_add_r by lia. f_equal. lia. }
    assert (E2 : 2 ^ (- ez) = 2 ^ (- ey) * 2 ^ (ey - ez)).
    { rewrite <- Z.pow_add_r by lia. f_equal. lia. }
    assert (A : Z.pos mx * 2 ^ (ex - ez) <= K1 * 2 ^ (- ez)).
    { rewrite E1. nia. }
    assert (B : Z.pos my * 2 ^ (ey - ez) <= K2 * 2 ^ (- ez)).
    { rewrite E2. nia. }
    lia.
Qed.

Lemma fsub_one_at_most : forall h, at_most 1 h -> at_most 1 (fsub f1 h).
Proof.
  intros [s | s | | s m e] H; cbn [at_most] in H; try contradiction.
  - destruct s; vm_compute; split; discriminate.
  - destruct s; [contradiction |]. destruct H as (He & Hm).
    rewrite Z.mul_1_l in Hm.
    unfold fsub, f1, SFsub. cbn [cond_Zopp].
    change (IntDef.Z.min (-52) e) with (Z.min (-52) e).
    assert (Z.min (-52) e <= -52) by lia.
    assert (Z.min (-52) e <= e) by lia.
    rewrite !shl_align_fst by assumption.
    set (ez := Z.min (-52) e).
    assert (0 < 2 ^ (e - ez)) by (apply Z.pow_pos_nonneg; lia).
    assert (0 < 2 ^ (-52 - ez)) by (apply Z.pow_pos_nonneg; lia).
    assert (E1 : 2 ^ (- ez) = 2 ^ 52 * 2 ^ (-52 - ez)).
    { rewrite <- Z.pow_add_r by lia. f_equal. lia. }
    assert (E2 : 2 ^ (- ez) = 2 ^ (- e) * 2 ^ (e - ez)).
    { rewrite <- Z.pow_add_r by lia. f_equal. lia. }
    change (Z.pos 4503599627370496) with (2 ^ 52).
    assert (Hez : ez <= 0) by (unfold ez; lia).
    apply binary_normalize_at_most; try lia.
    all: try (rewrite <- E1; rewrite E2; nia).
    all: try (rewrite Z.mul_1_l, E1; rewrite E2 in E1; nia).
Qed.

Lemma fdiv_at_most : forall K x my ey,
  0 < K < 2 ^ 53 -> at_most K x ->
  ey <= 0 -> 2 ^ (- ey) <= Z.pos my ->
  at_most K (fdiv x (S754_finite false my ey)).
Proof.
  intros K [s | s | | s mx ex] my ey HK H Hey Hge; cbn [at_most] in H;
    try contradiction.
  - exact I.
  - destruct s; [contradiction |]. destruct H as (He & Hm).
    unfold fdiv, SFdiv, SFdiv_core_binary. cbn [xorb].
    fold (fexp64 (Zdigits2 (Z.pos mx) + ex - (Zdigits2 (Z.pos my) + ey))).
    set (d1 := Zdigits2 (Z.pos mx)). set (d2 := Zdigits2 (Z.pos my)).
    assert (Hp : 0 < 2 ^ (- ex)) by (apply Z.pow_pos_nonneg; lia).
    assert (Hpy : 0 < 2 ^ (- ey)) by (apply Z.pow_pos_nonneg; lia).
    assert (Hd1 : d1 <= 53 - ex).
    { apply Zdigits2_lt_pow2; try lia.
      replace (53 - ex) with (53 + - ex) by lia. rewrite Z.pow_add_r by lia.
      nia. }
    assert (Hd2 : 1 - ey <= d2).
    { destruct (Z_lt_le_dec d2 (1 - ey)) as [C |]; [| lia].
      assert (Z.pos my < 2 ^ (- ey)); [| lia].
      apply Zdigits2_lt_pow2; lia. }
    set (e' := Z.min (fexp64 (d1 + ex - (d2 + ey))) (ex - ey)).
    assert (He' : e' <= 0) by (unfold e'; rewrite fexp64_eq; lia).
    set (sh := ex - ey - e').
    assert (Hsh : 0 <= sh) by (unfold sh, e'; lia).
    set (m' := match sh with
               | Z.pos _ => Z.shiftl (Z.pos mx) sh
               | 0 => Z.pos mx
               | Z.neg _ => 0
               end).
    assert (Hm' : m' = Z.pos mx * 2 ^ sh).
    { unfold m'. destruct sh as [| ps | ps] eqn:Hs.
      - rewrite Z.pow_0_r. lia.
      - rewrite Z.shiftl_mul_pow2 by lia. reflexivity.
      - lia. }
    clearbody m'.
    destruct (Z.div_eucl m' (Z.pos my)) as [qq rr] eqn:Hde.
    apply div_eucl_div_mod in Hde. destruct Hde as [-> ->].
    assert (Hps : 0 < 2 ^ sh) by (apply Z.pow_pos_nonneg; lia).
    assert (Hpe : 0 < 2 ^ (- e')) by (apply Z.pow_pos_nonneg; lia).
    assert (Hq0 : 0 <= m' / Z.pos my) by (apply Z.div_pos; lia).
    assert (Hq1 : Z.pos my * (m' / Z.pos my) <= m')
      by (apply Z.mul_div_le; lia).
    assert (Epow : 2 ^ sh * 2 ^ (- ex) = 2 ^ (- ey) * 2 ^ (- e')).
    { rewrite <- !Z.pow_add_r by lia. f_equal. unfold sh. lia. }
    assert (Hbound : m' <= K * (2 ^ (- ey) * 2 ^ (- e'))).
    { rewrite <- Epow. subst m'. nia. }
    apply bra_at_most; try lia.
    + nia.
    + intros E.
      assert (Heq : m' = Z.pos my * (m' / Z.pos my)) by nia.
      replace (m' mod Z.pos my) with 0; [apply new_location_0 |].
      symmetry. rewrite Heq at 1. rewrite Z.mul_comm. apply Z.mod_mul. lia.
Qed.

Lemma fdiv_f1e6_at_most : forall K x,
  0 < K < 2 ^ 53 -> at_most K x -> at_most K (fdiv x f1e6).
Proof.
  intros K x HK H. unfold f1e6. apply fdiv_at_most; try assumption.
  - lia.
  - vm_compute. discriminate.
Qed.

Lemma of_int_at_most : forall z T,
  0 <= z <= T -> 0 < T < 2 ^ 53 ->
  exists f, of_int z = Ok f /\ f = of_Z z /\ at_most T f.
Proof.
  intros z T Hz HT. unfold of_int.
  assert (H : at_most T (of_Z z)).
  { unfold of_Z. apply binary_normalize_at_most; lia. }
  destruct (of_Z z) eqn:E; cbn [at_most] in H; try contradiction;
    eexists; (split; [reflexivity | split; [reflexivity | exact H]]).
Qed.

Lemma of_Z_at_most : forall z M, 0 <= z <= M -> 0 < M < 2 ^ 53 -> at_most M (of_Z z).
Proof.
  intros z M Hz HM. unfold of_Z. apply binary_normalize_at_most; lia.
Qed.

Lemma at_most_1_fle : forall x,
  at_most 1 x -> fle f0 x = true /\ fle x f1 = true.
Proof.
  intros [s | s | | s m e] H; cbn [at_most] in H; try contradiction.
  - split; destruct s; reflexivity.
  - destruct s; [contradiction |]. destruct H as (He & Hm).
    rewrite Z.mul_1_l in Hm. split; [apply (fle_zero_finite false false) |].
    unfold fle, fcompare, f1. cbn [expo scaled cond_Zopp].
    set (ez := Z.min e (-52)).
    assert (Hez : ez <= e /\ ez <= -52) by (unfold ez; lia).
    assert (0 < 2 ^ (e - ez)) by (apply Z.pow_pos_nonneg; lia).
    assert (0 < 2 ^ (- e)) by (apply Z.pow_pos_nonneg; lia).
    assert (E : 2 ^ 52 * 2 ^ (-52 - ez) = 2 ^ (- e) * 2 ^ (e - ez)).
    { rewrite <- !Z.pow_add_r by lia. f_equal. lia. }
    change (Z.pos 4503599627370496) with (2 ^ 52). rewrite E.
    destruct (Z.compare_spec (Z.pos m * 2 ^ (e - ez))
                (2 ^ (- e) * 2 ^ (e - ez))) as [C | C | C];
      try reflexivity.
    nia.
Qed.

Lemma f0_9_at_most : at_most 1 f0_9.
Proof. split; [lia | vm_compute; discriminate]. Qed.

(** ** Integers that convert to a float *)

Lemma bra_no_overflow : forall s m e l s',
  0 <= m -> e <= fexp64 (Zdigits2 m + e) -> Zdigits2 m + e <= 1023 ->
  binary_round_aux prec emax s m e l <> S754_infinity s'.
Proof.
  intros s m e l s' Hm Hpre Hd.
  destruct (bra_spec s m e l Hm) as (m1 & Hb & _ & Heq).
  cbv zeta in Heq. rewrite Heq. clear Heq.
  set (n1 := Z.max 0 (fexp64 (Zdigits2 m + e) - e)) in *.
  set (e1 := e + n1) in *.
  set (n2 := Z.max 0 (fexp64 (Zdigits2 m1 + e1) - e1)).
  assert (Hn1 : 0 <= n1) by lia.
  assert (H0 : 0 <= m / 2 ^ n1)
    by (apply Z.div_pos; [exact Hm | apply Z.pow_pos_nonneg; lia]).
  assert (Hm1 : 0 <= m1) by lia.
  destruct (m1 / 2 ^ n2 =? 0); [discriminate |].
  destruct (e1 + n2 <=? emax - prec) eqn:Hle; [discriminate |].
  exfalso. apply Z.leb_gt in Hle. unfold emax, prec in Hle.
  pose proof (Zdigits2_div_pow2 m n1 Hm Hn1) as Hd0.
  (* m1 <= m / 2^n1 + 1 has at most one digit more *)
  assert (Hd1 : Zdigits2 m1 <= Z.max 0 (Zdigits2 m - n1) + 1).
  { rewrite <- Hd0.
    set (q := m / 2 ^ n1) in *.
    pose proof (Zdigits2_nonneg q) as Hq.
    apply Zdigits2_lt_pow2; try lia.
    assert (q < 2 ^ Zdigits2 q) by (apply Zdigits2_lt_pow2; lia).
    rewrite Z.pow_add_r by lia. change (2 ^ 1) with 2. lia. }
  unfold n2, e1, n1 in *. rewrite !fexp64_eq in *. lia.
Qed.

Lemma binary_round_no_overflow : forall s m e s',
  Zdigits2 (Z.pos m) + e <= 1023 ->
  binary_round prec emax s m e <> S754_infinity s'.
Proof.
  intros s m e s' Hd. unfold binary_round.
  fold (fexp64 (Z.pos (digits2_pos m) + e)).
  change (Z.pos (digits2_pos m)) with (Zdigits2 (Z.pos m)).
  set (ex' := fexp64 (Zdigits2 (Z.pos m) + e)).
  destruct (shl_align m e ex') as [mz ez] eqn:Hs.
  unfold shl_align in Hs.
  destruct (ex' - e) as [| d | d] eqn:Hdd; injection Hs as <- <-.
  - apply bra_no_overflow; [lia | fold ex'; lia | exact Hd].
  - apply bra_no_overflow; [lia | fold ex'; lia | exact Hd].
  - change (Pos.iter xO m d) with (Zpower.shift_pos d m).
    rewrite Zpower.shift_pos_correct. change (Z.pow_pos 2 d) with (2 ^ Z.pos d).
    assert (E : Zdigits2 (2 ^ Z.pos d * Z.pos m) + ex'
                = Zdigits2 (Z.pos m) + e).
    { rewrite Z.mul_comm, Zdigits2_mul_pow2 by lia. lia. }
    assert (0 < 2 ^ Z.pos d) by (apply Z.pow_pos_nonneg; lia).
    apply bra_no_overflow; [nia | rewrite E; fold ex'; lia | rewrite E; exact Hd].
Qed.

Lemma of_int_returns : forall z,
  Z.abs z < 2 ^ 1023 -> exists f, of_int z = Ok f /\ is_finite f = true.
Proof.
  intros z Hz. unfold of_int.
  assert (H : forall s', of_Z z <> S754_infinity s').
  { intros s'. unfold of_Z. destruct z as [| p | p]; cbn [binary_normalize].
    - discriminate.
    - apply binary_round_no_overflow.
      assert (Zdigits2 (Z.pos p) <= 1023); [| lia].
      apply Zdigits2_lt_pow2; lia.
    - apply binary_round_no_overflow.
      assert (Zdigits2 (Z.pos p) <= 1023); [| lia].
      apply Zdigits2_lt_pow2; lia. }
  pose proof (of_Z_canonical z) as (_ & _).
  destruct (of_Z z) as [s | s | | s m e] eqn:E.
  - eexists. split; reflexivity.
  - exfalso. apply (H s). reflexivity.
  - exfalso. unfold of_Z in E. destruct z as [| p | p]; cbn in E;
      try discriminate;
      pose proof (binary_round_signed false p 0) as (_ & S1);
      pose proof (binary_round_signed true p 0) as (_ & S2);
      rewrite E in *; cbn in *; contradiction.
  - eexists. split; reflexivity.
Qed.

Lemma of_int_raises : forall z e,
  of_int z = Raise e -> e = OverflowError /\ 2 ^ 1023 <= Z.abs z.
Proof.
  intros z e H. split.
  - unfold of_int in H. destruct (of_Z z); try discriminate.
    injection H as <-. reflexivity.
  - destruct (Z_lt_le_dec (Z.abs z) (2 ^ 1023)) as [L | G]; [| exact G].
    destruct (of_int_returns z L) as (f & Hf & _). rewrite Hf in H.
    discriminate.
Qed.

(** ** The round bit of a shifted mantissa *)

Lemma shr_1_r : forall r, 0 <= shr_m r -> shr_r (shr_1 r) = Z.odd (shr_m r).
Proof.
  intros [m r s] H. cbn [shr_m] in H. unfold shr_1.
  destruct m as [| q | q]; [reflexivity | | lia].
  destruct q as [q | q |]; reflexivity.
Qed.

Lemma shr_iter_r : forall n r, 0 <= shr_m r ->
  shr_r (Nat.iter (S n) shr_1 r) = Z.odd (shr_m r / 2 ^ Z.of_nat n).
Proof.
  intros n r H. rewrite Nat.iter_succ, shr_1_r.
  - rewrite shr_iter_m by exact H. reflexivity.
  - rewrite shr_iter_m by exact H.
    apply Z.div_pos; [exact H | apply Z.pow_pos_nonneg; lia].
Qed.

Lemma shr_fexp_round : forall m e, 0 <= m ->
  let n := fexp64 (Zdigits2 m + e) - e in
  1 <= n ->
  exists mrs,
    shr_fexp prec emax m e loc_Exact = (mrs, e + n)
    /\ shr_m mrs = m / 2 ^ n
    /\ shr_r mrs = Z.odd (m / 2 ^ (n - 1)).
Proof.
  intros m e Hm n Hn. unfold shr_fexp, shr.
  fold (fexp64 (Zdigits2 m + e)). fold n.
  destruct n as [| p | p] eqn:Hp; try lia.
  exists (iter_pos shr_1 p (shr_record_of_loc m loc_Exact)).
  rewrite iter_pos_nat.
  assert (Hrec : shr_m (shr_record_of_loc m loc_Exact) = m) by reflexivity.
  split; [reflexivity |]. split.
  - rewrite shr_iter_m by (rewrite Hrec; exact Hm).
    rewrite Hrec, positive_nat_Z. reflexivity.
  - destruct (Pos.to_nat p) as [| k] eqn:Hk; [lia |].
    rewrite shr_iter_r by (rewrite Hrec; exact Hm).
    rewrite Hrec. f_equal. f_equal. f_equal. lia.
Qed.

Lemma rne_round_bit : forall mrs,
  (shr_r mrs = false ->
   round_nearest_even (shr_m mrs) (loc_of_shr_record mrs) = shr_m mrs)
  /\ (shr_r mrs = true -> Z.odd (shr_m mrs) = true ->
      round_nearest_even (shr_m mrs) (loc_of_shr_record mrs) = shr_m mrs + 1).
Proof.
  intros [m r s]. cbn [shr_m shr_r]. split.
  - intros ->. destruct s; reflexivity.
  - intros -> Ho. destruct s; cbn; [reflexivity |].
    rewrite <- Z.negb_odd, Ho. reflexivity.
Qed.

(** [binary_round_aux] on an exact mantissa that loses at least one bit:
    the round bit decides. *)
Lemma bra_round : forall s m e, 0 <= m ->
  let n1 := fexp64 (Zdigits2 m + e) - e in
  let e1 := e + n1 in
  1 <= n1 ->
  exists m1,
    m / 2 ^ n1 <= m1 <= m / 2 ^ n1 + 1
    /\ (Z.odd (m / 2 ^ (n1 - 1)) = false -> m1 = m / 2 ^ n1)
    /\ (Z.odd (m / 2 ^ (n1 - 1)) = true -> Z.odd (m / 2 ^ n1) = true ->
        m1 = m / 2 ^ n1 + 1)
    /\ let n2 := Z.max 0 (fexp64 (Zdigits2 m1 + e1) - e1) in
       let m2 := m1 / 2 ^ n2 in
       let e2 := e1 + n2 in
       binary_round_aux prec emax s m e loc_Exact
       = if m2 =? 0 then S754_zero s
         else if e2 <=? emax - prec then S754_finite s (Z.to_pos m2) e2
              else S754_infinity s.
Proof.
  intros s m e Hm n1 e1 Hn1.
  destruct (shr_fexp_round m e Hm Hn1) as (mrs & H1 & Hm1 & Hr1).
  fold n1 in H1, Hm1, Hr1. fold e1 in H1.
  set (m1 := round_nearest_even (shr_m mrs) (loc_of_shr_record mrs)).
  assert (Hb : m / 2 ^ n1 <= m1 <= m / 2 ^ n1 + 1)
    by (unfold m1; rewrite <- Hm1; apply rne_bounds).
  assert (Hdiv : 0 <= m / 2 ^ n1)
    by (apply Z.div_pos; [exact Hm | apply Z.pow_pos_nonneg; lia]).
  destruct (rne_round_bit mrs) as (R0 & R1).
  exists m1. split; [exact Hb |]. split; [| split].
  - intros Ho. unfold m1. rewrite R0, Hm1; [reflexivity |].
    rewrite Hr1. exact Ho.
  - intros Ho Hq. unfold m1. rewrite R1, Hm1; [reflexivity | |].
    + rewrite Hr1. exact Ho.
    + rewrite Hm1. exact Hq.
  - intros n2 m2 e2.
    assert (Hm1pos : 0 <= m1) by lia.
    destruct (shr_fexp_spec m1 e1 loc_Exact Hm1pos) as (mrs2 & H2 & Hm2 & _).
    fold n2 in H2, Hm2. fold e2 in H2. fold m2 in Hm2.
    unfold binary_round_aux. rewrite H1. fold m1. rewrite H2, Hm2.
    assert (0 <= m2)
      by (apply Z.div_pos; [exact Hm1pos | apply Z.pow_pos_nonneg; lia]).
    destruct m2 as [| p | p]; [reflexivity | | lia].
    cbn [Z.eqb Z.to_pos]. reflexivity.
Qed.

Lemma pow2_split_1024 :
  2 ^ 971 = 2 * 2 ^ 970 /\ 2 ^ 1023 = 2 ^ 53 * 2 ^ 970
  /\ 2 ^ 1024 = 2 ^ 54 * 2 ^ 970 /\ 0 < 2 ^ 970.
Proof. repeat split. Qed.

(** A mantissa of 1024 digits at exponent 0 is rounded to 53 digits at
    exponent 971; it overflows exactly from [2^1024 - 2^970] on, where
    rounding to nearest, ties to even, reaches [2^1024]. *)
Lemma bra_1024_digits : forall s z,
  2 ^ 1023 <= z < 2 ^ 1024 ->
  (z < 2 ^ 1024 - 2 ^ 970 ->
   exists m, binary_round_aux prec emax s z 0 loc_Exact = S754_finite s m 971)
  /\ (2 ^ 1024 - 2 ^ 970 <= z ->
      binary_round_aux prec emax s z 0 loc_Exact = S754_infinity s).
Proof.
  intros s z [Hlo Hhi].
  destruct pow2_split_1024 as (E971 & E1023 & E1024 & HA).
  assert (Hz : 0 <= z) by lia.
  assert (Hd : Zdigits2 z = 1024).
  { assert (Zdigits2 z <= 1024) by (apply Zdigits2_lt_pow2; lia).
    assert (~ Zdigits2 z <= 1023).
    { intros C. apply Zdigits2_lt_pow2 in C; lia. }
    lia. }
  destruct (bra_round s z 0 Hz) as (m1 & Hb & R0 & R1 & Heq).
  { rewrite Hd. rewrite fexp64_eq. lia. }
  cbv zeta in Heq. rewrite Hd in *.
  replace (fexp64 (1024 + 0) - 0) with 971 in * by (rewrite fexp64_eq; lia).
  replace (971 - 1) with 970 in * by lia.
  set (A := 2 ^ 970) in *.
  set (t := z / A) in *. set (q := z / 2 ^ 971) in *.
  assert (Hq : q = t / 2).
  { unfold q, t. rewrite E971, Z.mul_comm, <- Z.div_div by lia. reflexivity. }
  assert (Ht : 2 ^ 53 <= t < 2 ^ 54).
  { unfold t. split.
    - apply Z.div_le_lower_bound; lia.
    - apply Z.div_lt_upper_bound; lia. }
  assert (Ht2 : t = 2 * q + (if Z.odd t then 1 else 0)).
  { rewrite Hq. pose proof (Z.div_mod t 2 ltac:(lia)) as D.
    rewrite Zmod_odd in D. lia. }
  split.
  - intros Hlt.
    assert (Htlt : t < 2 ^ 54 - 1).
    { unfold t. apply Z.div_lt_upper_bound; lia. }
    assert (Hm1 : 2 ^ 52 <= m1 <= 2 ^ 53 - 1).
    { destruct (Z.odd t) eqn:Ho.
      - lia.
      - rewrite (R0 eq_refl). lia. }
    assert (Hd1 : Zdigits2 m1 = 53).
    { assert (Zdigits2 m1 <= 53) by (apply Zdigits2_lt_pow2; lia).
      assert (~ Zdigits2 m1 <= 52).
      { intros C. apply Zdigits2_lt_pow2 in C; lia. }
      lia. }
    rewrite Hd1 in Heq.
    replace (Z.max 0 (fexp64 (53 + (0 + 971)) - (0 + 971))) with 0 in Heq
      by (rewrite fexp64_eq; lia).
    rewrite Z.pow_0_r, Z.div_1_r in Heq.
    replace (m1 =? 0) with false in Heq by (symmetry; apply Z.eqb_neq; lia).
    rewrite Heq. eexists. reflexivity.
  - intros Hge.
    assert (Hteq : t = 2 ^ 54 - 1).
    { assert (2 ^ 54 - 1 <= t); [| lia].
      unfold t. apply Z.div_le_lower_bound; lia. }
    assert (Ho : Z.odd t = true) by (rewrite Hteq; reflexivity).
    rewrite Ho in Ht2.
    assert (Hqeq : q = 2 ^ 53 - 1) by lia.
    assert (Hoq : Z.odd q = true) by (rewrite Hqeq; reflexivity).
    rewrite (R1 Ho Hoq), Hqeq in Heq.
    replace (2 ^ 53 - 1 + 1) with (2 ^ 53) in Heq by lia.
    rewrite Heq. reflexivity.
Qed.

(** With more than 1024 digits the result is infinite. *)
Lemma bra_beyond_1024 : forall s z l,
  2 ^ 1024 <= z -> binary_round_aux prec emax s z 0 l = S754_infinity s.
Proof.
  intros s z l Hz.
  assert (Hpos : 0 < 2 ^ 1024) by (apply Z.pow_pos_nonneg; lia).
  assert (Hd : 1025 <= Zdigits2 z).
  { assert (~ Zdigits2 z <= 1024); [| lia].
    intros C. apply Zdigits2_lt_pow2 in C; lia. }
  destruct (bra_spec s z 0 l ltac:(lia)) as (m1 & Hb & _ & Heq).
  cbv zeta in Heq. rewrite Heq. clear Heq.
  set (d := Zdigits2 z) in *.
  replace (Z.max 0 (fexp64 (d + 0) - 0)) with (d - 53) in *
    by (rewrite fexp64_eq; lia).
  set (n1 := d - 53) in *.
  assert (Hq : 2 ^ 52 <= z / 2 ^ n1).
  { pose proof (Zdigits2_bounds z ltac:(lia)) as [B _]. fold d in B.
    apply Z.div_le_lower_bound; [apply Z.pow_pos_nonneg; lia |].
    rewrite <- Z.pow_add_r by lia.
    replace (n1 + 52) with (d - 1) by lia. exact B. }
  assert (Hm1 : 2 ^ 52 <= m1) by lia.
  assert (Hd1 : 53 <= Zdigits2 m1).
  { assert (~ Zdigits2 m1 <= 52); [| lia].
    intros C. apply Zdigits2_lt_pow2 in C; lia. }
  set (d1 := Zdigits2 m1) in *.
  replace (Z.max 0 (fexp64 (d1 + (0 + n1)) - (0 + n1))) with (d1 - 53)
    by (rewrite fexp64_eq; lia).
  assert (Hd2 : Zdigits2 (m1 / 2 ^ (d1 - 53)) = 53).
  { rewrite Zdigits2_div_pow2 by lia. fold d1. lia. }
  destruct (m1 / 2 ^ (d1 - 53) =? 0) eqn:Hz0.
  - apply Z.eqb_eq in Hz0. rewrite Hz0 in Hd2. discriminate.
  - replace (0 + n1 + (d1 - 53) <=? emax - prec) with false; [reflexivity |].
    symmetry. apply Z.leb_gt. unfold emax, prec. lia.
Qed.

Lemma binary_round_large : forall s p,
  2 ^ 1023 <= Z.pos p ->
  binary_round prec emax s p 0
  = binary_round_aux prec emax s (Z.pos p) 0 loc_Exact.
Proof.
  intros s p H. unfold binary_round.
  fold (fexp64 (Z.pos (digits2_pos p) + 0)).
  change (Z.pos (digits2_pos p)) with (Zdigits2 (Z.pos p)).
  assert (Hd : 1024 <= Zdigits2 (Z.pos p)).
  { assert (~ Zdigits2 (Z.pos p) <= 1023); [| lia].
    intros C. apply Zdigits2_lt_pow2 in C; lia. }
  unfold shl_align.
  destruct (fexp64 (Zdigits2 (Z.pos p) + 0) - 0) as [| d | d] eqn:E;
    try reflexivity.
  rewrite fexp64_eq in E. lia.
Qed.

(** [float(z)] raises [OverflowError] exactly from [2^1024 - 2^970] on. *)
Lemma of_int_threshold : forall z,
  (Z.abs z < 2 ^ 1024 - 2 ^ 970 ->
   exists f, of_int z = Ok f /\ is_finite f = true)
  /\ (2 ^ 1024 - 2 ^ 970 <= Z.abs z -> of_int z = Raise OverflowError).
Proof.
  intros z.
  destruct pow2_split_1024 as (E971 & E1023 & E1024 & HA).
  assert (H53 : 0 < 2 ^ 53) by (apply Z.pow_pos_nonneg; lia).
  destruct (Z_lt_le_dec (Z.abs z) (2 ^ 1023)) as [Small | Big].
  { split; [intros _; apply of_int_returns; exact Small | intros C].
    exfalso. rewrite E1024 in C. rewrite E1023 in Small.
    change (2 ^ 54) with (2 * 2 ^ 53) in C. nia. }
  assert (Hcases : forall s p, 2 ^ 1023 <= Z.pos p ->
            (Z.pos p < 2 ^ 1024 - 2 ^ 970 ->
             exists m, binary_round prec emax s p 0 = S754_finite s m 971)
            /\ (2 ^ 1024 - 2 ^ 970 <= Z.pos p ->
                binary_round prec emax s p 0 = S754_infinity s)).
  { intros s p Hp. rewrite binary_round_large by exact Hp.
    destruct (Z_lt_le_dec (Z.pos p) (2 ^ 1024)) as [L | G].
    - apply bra_1024_digits. lia.
    - split; [intros C; exfalso; lia | intros _].
      apply bra_beyond_1024. exact G. }
  unfold of_int, of_Z.
  destruct z as [| p | p]; cbn [binary_normalize].
  - exfalso. change (Z.abs 0) with 0 in Big. rewrite E1023 in Big. nia.
  - destruct (Hcases false p ltac:(lia)) as (F & I). split.
    + intros C. destruct (F C) as (m & ->). eexists. split; reflexivity.
    + intros C. rewrite (I C). reflexivity.
  - destruct (Hcases true p ltac:(lia)) as (F & I). split.
    + intros C. destruct (F C) as (m & ->). eexists. split; reflexivity.
    + intros C. rewrite (I C). reflexivity.
Qed.

Lemma of_int_convertible : forall z,
  (exists f, of_int z = Ok f) <-> convertible z.
Proof.
  intros z. unfold convertible.
  destruct (of_int_threshold z) as (R & O). split.
  - intros (f & H).
    destruct (Z_lt_le_dec (Z.abs z) (2 ^ 1024 - 2 ^ 970)) as [L | G];
      [exact L |].
    rewrite (O G) in H. discriminate.
  - intros L. destruct (R L) as (f & H & _). exists f. exact H.
Qed.

Lemma of_int_not_convertible : forall z,
  ~ convertible z -> of_int z = Raise OverflowError.
Proof.
  intros z H. apply of_int_threshold. unfold convertible in H. lia.
Qed.

Lemma of_int_is_finite : forall z,
  convertible z -> exists f, of_int z = Ok f /\ is_finite f = true.
Proof. intros z H. apply of_int_threshold. exact H. Qed.

(** ** Comparison and representation *)

Lemma cond_Zopp_mul : forall s a c, cond_Zopp s (a * c) = cond_Zopp s a * c.
Proof. intros [|] a c; cbn [cond_Zopp]; lia. Qed.

Lemma compare_mul_r : forall a b c, 0 < c -> (a * c ?= b * c) = (a ?= b).
Proof.
  intros a b c Hc.
  destruct (Z.compare_spec a b) as [E | L | G].
  - subst. apply Z.compare_refl.
  - apply Z.compare_lt_iff. nia.
  - apply Z.compare_gt_iff. nia.
Qed.

(** Comparison sees the value, not the representation. *)
Lemma fcompare_renormalized : forall y s m e e',
  e' <= e ->
  fcompare y (S754_finite s (Z.to_pos (Z.pos m * 2 ^ (e - e'))) e')
  = fcompare y (S754_finite s m e).
Proof.
  intros y s m e e' He.
  assert (Hp : 0 < 2 ^ (e - e')) by (apply Z.pow_pos_nonneg; lia).
  assert (Hv : Z.pos (Z.to_pos (Z.pos m * 2 ^ (e - e')))
               = Z.pos m * 2 ^ (e - e')) by (apply Z2Pos.id; nia).
  destruct y as [sy | sy | | sy my ey]; try reflexivity.
  - unfold fcompare. cbn [expo scaled]. rewrite Hv. f_equal.
    set (z1 := Z.min 0 e'). set (z2 := Z.min 0 e).
    assert (Hz : z1 <= z2) by (unfold z1, z2; lia).
    assert (E : Z.pos m * 2 ^ (e - e') * 2 ^ (e' - z1)
                = Z.pos m * 2 ^ (e - z2) * 2 ^ (z2 - z1)).
    { rewrite <- !Z.mul_assoc, <- !Z.pow_add_r by (unfold z1, z2; lia).
      f_equal. f_equal. lia. }
    rewrite E, cond_Zopp_mul.
    assert (0 < 2 ^ (z2 - z1)) by (apply Z.pow_pos_nonneg; lia).
    replace 0 with (0 * 2 ^ (z2 - z1)) at 1 by lia.
    apply compare_mul_r. assumption.
  - unfold fcompare. cbn [expo scaled]. rewrite Hv. f_equal.
    set (z1 := Z.min ey e'). set (z2 := Z.min ey e).
    assert (Hz : z1 <= z2) by (unfold z1, z2; lia).
    assert (E : Z.pos m * 2 ^ (e - e') * 2 ^ (e' - z1)
                = Z.pos m * 2 ^ (e - z2) * 2 ^ (z2 - z1)).
    { rewrite <- !Z.mul_assoc, <- !Z.pow_add_r by (unfold z1, z2; lia).
      f_equal. f_equal. lia. }
    assert (E' : Z.pos my * 2 ^ (ey - z1)
                 = Z.pos my * 2 ^ (ey - z2) * 2 ^ (z2 - z1)).
    { rewrite <- !Z.mul_assoc, <- !Z.pow_add_r by (unfold z1, z2; lia).
      f_equal. f_equal. lia. }
    rewrite E, E', !cond_Zopp_mul.
    apply compare_mul_r. apply Z.pow_pos_nonneg; lia.
Qed.

Lemma fcompare_zero_sign : forall y s s',
  fcompare y (S754_zero s) = fcompare y (S754_zero s').
Proof. intros [sy | sy | | sy my ey] s s'; reflexivity. Qed.

Lemma fcompare_zero_sign_l : forall y s s',
  fcompare (S754_zero s) y = fcompare (S754_zero s') y.
Proof. intros [sy | sy | | sy my ey] s s'; reflexivity. Qed.

(** ** Costs in the practical range *)

Lemma cost_per_turn_wv : forall tokens h p c,
  cost_per_turn tokens h p = Ok c -> wv c.
Proof.
  intros tokens h p c H. unfold cost_per_turn in H.
  destruct (of_int tokens) as [t | e]; cbn [bind] in H; [| discriminate].
  injection H as <-. apply fadd_wv; apply fmul_wv.
Qed.

Lemma cost_per_turn_at_most : forall tokens h p T R,
  0 <= tokens <= T -> 0 < T -> 0 < R -> 2 * (T * R) < 2 ^ 53 ->
  at_most 1 h -> at_most R (cache_read p) -> at_most R (cache_write p) ->
  exists c, cost_per_turn tokens h p = Ok c /\ at_most (T * R + T * R) c.
Proof.
  intros tokens h p T R Htok HT HR HK Hh Hr Hw. unfold cost_per_turn.
  assert (HTR : T <= T * R) by nia.
  destruct (of_int_at_most tokens T) as (t & -> & _ & Ht); [lia | lia |].
  cbn [bind]. eexists. split; [reflexivity |].
  assert (H1 : at_most T (fmul t h)).
  { replace T with (T * 1) at 1 by lia. apply fmul_at_most; try lia; assumption. }
  assert (H2 : at_most T (fmul t (fsub f1 h))).
  { replace T with (T * 1) at 1 by lia. apply fmul_at_most; try lia;
      [assumption | apply fsub_one_at_most; assumption]. }
  apply fadd_at_most; try nia;
    (apply fmul_at_most; try lia; [| assumption]);
    apply fdiv_f1e6_at_most; try lia; assumption.
Qed.

Lemma cold_cost_at_most : forall tokens p T R,
  0 <= tokens <= T -> 0 < T -> 0 < R -> T * R < 2 ^ 53 ->
  at_most R (cache_write p) ->
  exists c, cold_cost tokens p = Ok c /\ at_most (T * R) c.
Proof.
  intros tokens p T R Htok HT HR HK Hw. unfold cold_cost.
  assert (HTR : T <= T * R) by nia.
  destruct (of_int_at_most tokens T) as (t & -> & _ & Ht); [lia | lia |].
  cbn [bind]. eexists. split; [reflexivity |].
  apply fmul_at_most; try lia; [| assumption].
  apply fdiv_f1e6_at_most; try lia; assumption.
Qed.

Lemma no_trim_at_most : forall c t C M,
  at_most C c -> 0 <= t <= M -> 0 < C -> 0 < M -> C * M < 2 ^ 53 ->
  at_most (C * M) (no_trim_at c t).
Proof.
  intros c t C M Hc Ht HC HM HK. unfold no_trim_at.
  apply fmul_at_most; try lia; [assumption |].
  apply of_Z_at_most; nia.
Qed.

Lemma with_trim_at_most : forall c1 c2 t C1 C2 M,
  at_most C1 c1 -> at_most C2 c2 -> 1 <= t <= M ->
  0 < C1 -> 0 < C2 -> C1 + C2 * M < 2 ^ 53 ->
  at_most (C1 + C2 * M) (with_trim_at c1 c2 t).
Proof.
  intros c1 c2 t C1 C2 M H1 H2 Ht HC1 HC2 HK. unfold with_trim_at.
  apply fadd_at_most; try nia; [assumption |].
  apply fmul_at_most; try nia; [assumption |].
  apply of_Z_at_most; nia.
Qed.

Lemma first_turn_or_max_ext :
  forall (test test' : Z -> bool) (max_turns be : Z),
    (forall t, 1 <= t <= max_turns -> test t = test' t) ->
    first_turn_or_max test max_turns be ->
    first_turn_or_max test' max_turns be.
Proof.
  intros test test' m be Hext (Hr & [(Hb & Hlt) | (-> & Hall)]).
  - split; [exact Hr |]. left. split.
    + rewrite <- Hext by lia. exact Hb.
    + intros t Ht. rewrite <- Hext by lia. apply Hlt. exact Ht.
  - split; [exact Hr |]. right. split; [reflexivity |].
    intros t Ht. rewrite <- Hext by lia. apply Hall. exact Ht.
Qed.

Lemma project_costs_arrays :
  forall pre post p hit_rate max_turns pre_cost post_steady post_first,
    cost_per_turn pre hit_rate p = Ok pre_cost ->
    cost_per_turn post hit_rate p = Ok post_steady ->
    cold_cost post p = Ok post_first ->
    exists proj,
      project_costs pre post p hit_rate max_turns = Ok proj
      /\ turns proj = arange1 max_turns
      /\ no_trim proj = map (no_trim_at pre_cost) (arange1 max_turns)
      /\ with_trim proj
         = map (with_trim_at post_first post_steady) (arange1 max_turns)
      /\ breakeven proj
         = match where_true 0
                   (map (crossing pre_cost post_first post_steady)
                        (arange1 max_turns)) with
           | i :: _ => i + 1
           | [] => max_turns
           end.
Proof.
  intros pre post p h m pc ps pf H1 H2 H3.
  destruct (project_costs_ok pre post p h m pc ps pf H1 H2 H3)
    as (proj & Hp & Hb).
  exists proj. split; [exact Hp |].
  unfold project_costs in Hp. rewrite H1, H2, H3 in Hp. cbn [bind] in Hp.
  injection Hp as <-. cbn [turns no_trim with_trim breakeven] in *.
  repeat split; try reflexivity. exact Hb.
Qed.

Lemma practical_projection :
  forall (pre post : Z) (p : pricing) (hit_rate : float) (max_turns : Z),
    0 <= pre < 2 ^ 32 -> 0 <= post < 2 ^ 32 ->
    at_most 1 hit_rate ->
    at_most 100 (cache_read p) -> at_most 100 (cache_write p) ->
    1 <= max_turns <= 1024 ->
    exists proj pre_cost post_first post_steady,
      cost_per_turn pre hit_rate p = Ok pre_cost
      /\ cold_cost post p = Ok post_first
      /\ cost_per_turn post hit_rate p = Ok post_steady
      /\ project_costs pre post p hit_rate max_turns = Ok proj
      /\ no_trim proj = map (no_trim_at pre_cost) (turns proj)
      /\ with_trim proj
         = map (with_trim_at post_first post_steady) (turns proj)
      /\ Forall (fun c => is_finite c = true) (no_trim proj)
      /\ Forall (fun c => is_finite c = true) (with_trim proj)
      /\ first_turn_or_max (saving_turn pre_cost post_first post_steady)
           max_turns (breakeven proj).
Proof.
  intros pre post p h m Hpre Hpost Hh Hr Hw Hm.
  set (T := 2 ^ 32). set (R := 100).
  assert (HT : 0 < T) by (unfold T; lia).
  assert (HK : 2 * (T * R) < 2 ^ 53) by (unfold T, R; lia).
  destruct (cost_per_turn_at_most pre h p T R) as (pc & Hpc & Apc);
    try assumption; try (unfold T, R; lia).
  destruct (cost_per_turn_at_most post h p T R) as (ps & Hps & Aps);
    try assumption; try (unfold T, R; lia).
  destruct (cold_cost_at_most post p T R) as (pf & Hpf & Apf);
    try assumption; try (unfold T, R; lia).
  destruct (project_costs_arrays pre post p h m pc ps pf Hpc Hps Hpf)
    as (proj & Hproj & Ht & Hn & Hwt & Hb).
  exists proj, pc, pf, ps.
  assert (Fin : forall t, 1 <= t <= m ->
                  is_finite (no_trim_at pc t) = true
                  /\ is_finite (with_trim_at pf ps t) = true).
  { intros t Ht'. split.
    - apply (at_most_finite ((T * R + T * R) * 1024)).
      apply no_trim_at_most; try assumption; unfold T, R; lia.
    - apply (at_most_finite (T * R + (T * R + T * R) * 1024)).
      apply with_trim_at_most; try assumption; unfold T, R; lia. }
  assert (Hin : forall t, In t (arange1 m) -> 1 <= t <= m).
  { intros t Hi. unfold arange1 in Hi. apply in_map_iff in Hi.
    destruct Hi as (k & <- & Hk). apply in_seq in Hk. lia. }
  split; [exact Hpc |]. split; [exact Hpf |]. split; [exact Hps |].
  split; [exact Hproj |].
  split; [rewrite Ht; exact Hn |]. split; [rewrite Ht; exact Hwt |].
  split; [| split].
  - rewrite Hn. apply Forall_map. apply Forall_forall. intros t Hi.
    apply Fin. apply Hin. exact Hi.
  - rewrite Hwt. apply Forall_map. apply Forall_forall. intros t Hi.
    apply Fin. apply Hin. exact Hi.
  - rewrite Hb.
    apply (first_turn_or_max_ext (crossing pc pf ps)).
    + intros t Ht'. unfold saving_turn.
      destruct (Fin t Ht') as (F1 & F2).
      apply crossing_le; try assumption.
      eapply cold_cost_wv. exact Hpf.
    + apply first_crossing_search. lia.
Qed.

(** At turn 1 the untrimmed cost is one warm turn and the trimmed cost the
    cold rewrite: the comparison is the one of these two costs. *)
Lemma saving_turn_1 : forall pc pf ps,
  wv pc -> is_finite pc = true -> is_finite ps = true ->
  is_finite pf = true ->
  saving_turn pc pf ps 1 = fle pf pc.
Proof.
  intros pc pf ps Wpc Fpc Fps Fpf.
  unfold saving_turn, fle, with_trim_at, no_trim_at.
  change (of_Z (1 - 1)) with (S754_zero false).
  change (of_Z 1) with f1.
  assert (L : forall y, fcompare (fadd pf (fmul ps (S754_zero false))) y
                        = fcompare pf y).
  { intros y.
    destruct ps as [s2 | s2 | | s2 m2 e2]; try discriminate;
      destruct pf as [s1 | s1 | | s1 m1 e1]; try discriminate;
      destruct s1, s2; cbn; try reflexivity; apply fcompare_zero_sign_l. }
  rewrite L.
  destruct pc as [s | s | | s m e]; try discriminate.
  - reflexivity.
  - destruct (fmul_one s m e Wpc) as (He & ->).
    rewrite fcompare_renormalized by exact He. reflexivity.
Qed.

Lemma hit_rate_of_range : forall cache_rate,
  exists h, hit_rate_of cache_rate = Ok h /\ at_most 1 h.
Proof.
  intros c. unfold hit_rate_of.
  apply (int_truediv_ok (Z.max 0 (Z.min 100 c)) 100 1); lia.
Qed.

Lemma PRICING_rates : forall key p,
  In (key, p) PRICING ->
  at_most 100 (cache_read p) /\ at_most 100 (cache_write p).
Proof.
  intros key p H. unfold PRICING in H. cbn [In] in H.
  destruct H as [H | [H | [H | [H | []]]]]; injection H as _ <-;
    (split; (split; vm_compute; discriminate)).
Qed.

(** ** What [project_costs] returns and raises *)

Lemma project_costs_inv :
  forall pre post p h m proj,
    project_costs pre post p h m = Ok proj ->
    exists pc ps pf,
      cost_per_turn pre h p = Ok pc
      /\ cost_per_turn post h p = Ok ps
      /\ cold_cost post p = Ok pf.
Proof.
  intros pre post p h m proj H. unfold project_costs in H.
  destruct (cost_per_turn pre h p) as [pc | e]; cbn [bind] in H;
    [| discriminate].
  destruct (cost_per_turn post h p) as [ps | e]; cbn [bind] in H;
    [| discriminate].
  destruct (cold_cost post p) as [pf | e]; cbn [bind] in H;
    [| discriminate].
  exists pc, ps, pf. repeat split; reflexivity.
Qed.

Lemma project_costs_breakeven_range :
  forall pre post p h m proj,
    1 <= m ->
    project_costs pre post p h m = Ok proj ->
    1 <= breakeven proj <= m.
Proof.
  intros pre post p h m proj Hm H.
  destruct (project_costs_inv _ _ _ _ _ _ H) as (pc & ps & pf & H1 & H2 & H3).
  destruct (project_costs_ok pre post p h m pc ps pf H1 H2 H3)
    as (proj' & Hp & Hb).
  rewrite H in Hp. injection Hp as <-. rewrite Hb.
  apply (first_crossing_search (crossing pc pf ps) m Hm).
Qed.

Lemma project_costs_returns :
  forall pre post p h m,
    convertible pre -> convertible post ->
    exists proj, project_costs pre post p h m = Ok proj.
Proof.
  intros pre post p h m Hpre Hpost.
  destruct (of_int_is_finite pre Hpre) as (t1 & H1 & _).
  destruct (of_int_is_finite post Hpost) as (t2 & H2 & _).
  unfold project_costs, cost_per_turn, cold_cost. rewrite H1, H2.
  cbn [bind]. eexists. reflexivity.
Qed.

Lemma project_costs_raises :
  forall pre post p h m e,
    project_costs pre post p h m = Raise e ->
    e = OverflowError /\ (~ convertible pre \/ ~ convertible post).
Proof.
  intros pre post p h m e H.
  unfold project_costs, cost_per_turn, cold_cost in H.
  destruct (of_int pre) as [t1 | e1] eqn:H1; cbn [bind] in H.
  - destruct (of_int post) as [t2 | e2] eqn:H2; cbn [bind] in H;
      [discriminate |].
    injection H as <-. destruct (of_int_raises post e2 H2) as (-> & _).
    split; [reflexivity | right].
    intros C. apply of_int_convertible in C. destruct C as (f & C).
    rewrite C in H2. discriminate.
  - injection H as <-. destruct (of_int_raises pre e1 H1) as (-> & _).
    split; [reflexivity | left].
    intros C. apply of_int_convertible in C. destruct C as (f & C).
    rewrite C in H1. discriminate.
Qed.

Lemma project_costs_overflows :
  forall pre post p h m,
    ~ convertible pre \/ ~ convertible post ->
    project_costs pre post p h m = Raise OverflowError.
Proof.
  intros pre post p h m H.
  destruct (project_costs pre post p h m) as [proj | e] eqn:E.
  - exfalso.
    destruct (project_costs_inv _ _ _ _ _ _ E) as (pc & ps & pf & H1 & H2 & _).
    unfold cost_per_turn in H1, H2.
    destruct (of_int pre) as [t1 | e1] eqn:P1; cbn [bind] in H1;
      [| discriminate].
    destruct (of_int post) as [t2 | e2] eqn:P2; cbn [bind] in H2;
      [| discriminate].
    destruct H as [H | H]; apply H; apply of_int_convertible; eexists;
      eassumption.
  - destruct (project_costs_raises _ _ _ _ _ _ E) as (-> & _). reflexivity.
Qed.

Lemma load_entry_id :
  forall p h s sd,
    load_entry p h s = Ok sd ->
    SessionData.session_id sd = sessionId s
    /\ 1 <= SessionData.breakeven_turns sd <= 60.
Proof.
  intros p h s sd H. unfold load_entry in H.
  destruct (project_costs _ _ p h 60) as [proj | e] eqn:Hp; cbn [bind] in H;
    [| discriminate].
  injection H as <-. cbn. split; [reflexivity |].
  eapply project_costs_breakeven_range; [| exact Hp]. lia.
Qed.

(** ** The batch of the standalone mode *)

Lemma analyze_session_total :
  forall f, tame f -> exists r, analyze_session f = Ok r.
Proof.
  intros f Ht. unfold analyze_session.
  destruct (getsize f) as [size |]; [| eexists; reflexivity].
  destruct (size <? 100); [eexists; reflexivity |].
  destruct (read_lines f) as [lines | e] eqn:Hr; cbn [bind];
    [| eexists; reflexivity].
  destruct (run init lines) as [st | e] eqn:Hrun; [| eexists; reflexivity].
  destruct (Z_lt_le_dec (msg_count st) 10) as [L | G].
  - exists None. apply summarize_none. exact L.
  - destruct (summarize_returns f st G (Ht lines st Hr Hrun)) as (sd & ->).
    + apply estimate_pos. apply (run_api_inv lines init st api_inv_init Hrun).
    + eexists. reflexivity.
Qed.

Lemma analyze_session_convertible :
  forall f sa,
    tame f -> analyze_session f = Ok (Some sa) ->
    convertible (SessionData.estimated_tokens sa)
    /\ convertible (SessionData.post_trim_tokens sa).
Proof.
  intros f sa Ht H.
  destruct (analyze_session_tokens f sa H) as (Hpos & Hb & _).
  destruct (analyze_session_some f sa H) as (lines & st & Hr & Hrun & Hs).
  pose proof (summarize_some f st sa Hs) as (_ & E & _).
  destruct (Ht lines st Hr Hrun) as (_ & _ & _ & _ & _ & Hest).
  rewrite <- E in Hest. unfold SYSTEM_OVERHEAD in Hb.
  assert (2 ^ 53 < 2 ^ 1024 - 2 ^ 970) by reflexivity.
  unfold convertible. split; lia.
Qed.

Lemma with_costs_returns :
  forall p h sa,
    convertible (SessionData.estimated_tokens sa) ->
    convertible (SessionData.post_trim_tokens sa) ->
    exists sd, with_costs p h sa = Ok sd.
Proof.
  intros p h sa C1 C2. unfold with_costs.
  destruct (project_costs_returns _ _ p h 60 C1 C2) as (proj & ->).
  cbn [bind].
  destruct (of_int_is_finite _ C1) as (t1 & H1 & _).
  destruct (of_int_is_finite _ C2) as (t2 & H2 & _).
  unfold cold_cost, cost_per_turn. rewrite H1, H2. cbn [bind].
  eexists. reflexivity.
Qed.

Lemma with_costs_fields :
  forall p h sa sd,
    with_costs p h sa = Ok sd ->
    SessionData.session_id sd = SessionData.session_id sa
    /\ SessionData.estimated_tokens sd = SessionData.estimated_tokens sa
    /\ SessionData.post_trim_tokens sd = SessionData.post_trim_tokens sa
    /\ SessionData.message_count sd = SessionData.message_count sa
    /\ 1 <= SessionData.breakeven_turns sd <= 60.
Proof.
  intros p h sa sd H. unfold with_costs in H.
  destruct (project_costs _ _ p h 60) as [proj | e] eqn:Hp; cbn [bind] in H;
    [| discriminate].
  destruct (cold_cost _ p) as [c | e]; cbn [bind] in H; [| discriminate].
  destruct (cost_per_turn _ h p) as [a | e]; cbn [bind] in H;
    [| discriminate].
  destruct (cost_per_turn _ h p) as [b | e]; cbn [bind] in H;
    [| discriminate].
  injection H as <-. cbn. repeat split; try reflexivity;
    eapply project_costs_breakeven_range; try exact Hp; lia.
Qed.

(** ** Tiers *)

Lemma tier_partition :
  forall sessions,
    (List.length (tier_sessions tool_heavy sessions)
     + List.length (tier_sessions mixed sessions)
     + List.length (tier_sessions conversational sessions))%nat
    = List.length sessions.
Proof.
  induction sessions as [| s rest IH]; [reflexivity |].
  unfold tier_sessions in *. cbn [filter].
  destruct (SessionData.tier s); cbn [tier_eqb List.length]; lia.
Qed.

Lemma tier_entry_of_count :
  forall np_mean np_median np_mean_int np_median_int t members entry,
    tier_entry_of np_mean np_median np_mean_int np_median_int t members
    = Ok entry ->
    tier_count entry = Z.of_nat (List.length members)
    /\ tier_label_text entry = tier_long_label t
    /\ (tier_statistics entry = None <-> members = []).
Proof.
  intros f1' f2 f3 f4 t members entry H. unfold tier_entry_of in H.
  destruct members as [| s0 more].
  - injection H as <-. cbn. repeat split; reflexivity.
  - destruct (f3 _) as [a | e]; cbn [bind] in H; [| discriminate].
    destruct (f4 _) as [b | e]; cbn [bind] in H; [| discriminate].
    destruct (f3 _) as [c | e]; cbn [bind] in H; [| discriminate].
    destruct (py_int c) as [d | e]; cbn [bind] in H; [| discriminate].
    injection H as <-. cbn [tier_count tier_label_text tier_statistics].
    repeat split; try reflexivity; discriminate.
Qed.

(** ** Lower bounds: the 95% cap of the trimming heuristic *)

Lemma bra_at_least : forall m e l b k K,
  0 <= m -> e <= 0 -> -1074 <= k <= 0 -> 0 < b < 2 ^ 53 ->
  b * 2 ^ (- e) <= m * 2 ^ (- k) ->
  at_most K (binary_round_aux prec emax false m e l) ->
  at_least b k (binary_round_aux prec emax false m e l).
Proof.
  intros m e l b k K Hm He Hk Hb Hle Hup.
  destruct (bra_spec false m e l Hm) as (m1 & Hb1 & _ & Heq).
  cbv zeta in Heq. rewrite Heq in *. clear Heq.
  set (n1 := Z.max 0 (fexp64 (Zdigits2 m + e) - e)) in *.
  set (e1 := e + n1) in *.
  set (n2 := Z.max 0 (fexp64 (Zdigits2 m1 + e1) - e1)) in *.
  assert (Hn1 : 0 <= n1) by (unfold n1; lia).
  assert (Hp1 : 0 < 2 ^ n1) by (apply Z.pow_pos_nonneg; lia).
  assert (Hpe : 0 < 2 ^ (- e)) by (apply Z.pow_pos_nonneg; lia).
  assert (Hpk : 0 < 2 ^ (- k)) by (apply Z.pow_pos_nonneg; lia).
  assert (Hmpos : 0 < m) by nia.
  set (q0 := m / 2 ^ n1) in *.
  assert (Hq0 : 0 <= q0) by (apply Z.div_pos; lia).
  assert (Hq0m : 2 ^ n1 * q0 <= m) by (apply Z.mul_div_le; lia).
  assert (Hm1 : 0 <= m1) by lia.
  assert (Hn2 : 0 <= n2) by (unfold n2; lia).
  assert (Hdq : Zdigits2 q0 = Z.max 0 (Zdigits2 m - n1))
    by (apply Zdigits2_div_pow2; lia).
  pose proof (Zdigits2_nonneg m) as Hdm.
  (* the exponent after the first shift is at least -1074 *)
  assert (He1 : -1074 <= e1).
  { unfold e1, n1. rewrite fexp64_eq. lia. }
  (* the rounded mantissa has at most 54 digits, 54 only for 2^53 *)
  assert (Hq53 : q0 < 2 ^ 53).
  { apply Zdigits2_lt_pow2; try lia. rewrite Hdq.
    unfold n1. rewrite fexp64_eq. lia. }
  (* the truncated mantissa is positive, and the bound holds for it *)
  assert (HA : 0 < q0 /\ (e1 <= 0 -> b * 2 ^ (- e1) <= q0 * 2 ^ (- k))).
  { destruct (Z.eq_dec n1 0) as [E0 | N0].
    - assert (e1 = e) by (unfold e1; lia).
      assert (q0 = m)
        by (unfold q0; rewrite E0, Z.pow_0_r, Z.div_1_r; reflexivity).
      split; [lia |]. intros _. replace e1 with e by lia.
      replace q0 with m by lia. nia.
    - assert (Hex : e1 = fexp64 (Zdigits2 m + e)) by (unfold e1, n1; lia).
      destruct (Z_le_gt_dec e1 k) as [Hk1 | Hk1].
      + assert (Hpe1 : 0 < 2 ^ (- e1)) by (apply Z.pow_pos_nonneg; lia).
        assert (Epow : 2 ^ (- e) = 2 ^ (- e1) * 2 ^ n1).
        { rewrite <- Z.pow_add_r by lia. f_equal. unfold e1. lia. }
        assert (Ek : 2 ^ (- e1) = 2 ^ (- k) * 2 ^ (k - e1)).
        { rewrite <- Z.pow_add_r by lia. f_equal. lia. }
        assert (0 < 2 ^ (k - e1)) by (apply Z.pow_pos_nonneg; lia).
        assert (Hdiv : b * 2 ^ (k - e1) <= q0).
        { unfold q0. apply Z.div_le_lower_bound; [lia |].
          rewrite Epow, Ek in Hle. nia. }
        split; [nia |]. intros _. rewrite Ek. nia.
      + rewrite fexp64_eq in Hex.
        assert (Hd : Zdigits2 m - n1 = 53) by (unfold e1 in *; lia).
        assert (Hqp : 0 < q0).
        { destruct (Z.eq_dec q0 0) as [E |]; [| lia].
          rewrite E in Hdq. cbn in Hdq. lia. }
        split; [exact Hqp |]. intros He1'.
        assert (Hpe1 : 0 < 2 ^ (- e1)) by (apply Z.pow_pos_nonneg; lia).
        assert (Hq52 : 2 ^ 52 <= q0).
        { pose proof (Zdigits2_bounds q0 Hqp) as (Lo & _).
          rewrite Hdq in Lo.
          replace (Z.max 0 (Zdigits2 m - n1) - 1) with 52 in Lo by lia.
          exact Lo. }
        assert (Ek : 2 ^ (- k) = 2 ^ (- e1) * 2 ^ (e1 - k)).
        { rewrite <- Z.pow_add_r by lia. f_equal. lia. }
        assert (2 <= 2 ^ (e1 - k)).
        { replace 2 with (2 ^ 1) at 1 by reflexivity.
          apply Z.pow_le_mono_r; lia. }
        rewrite Ek.
        assert (b * 2 ^ (- e1) <= 2 ^ 53 * 2 ^ (- e1)) by nia.
        assert (2 ^ 53 * 2 ^ (- e1) <= q0 * (2 ^ (- e1) * 2 ^ (e1 - k))).
        { change (2 ^ 53) with (2 * 2 ^ 52). nia. }
        lia. }
  destruct HA as (Hq0pos & HA).
  assert (Hm1pos : 0 < m1) by lia.
  assert (Hm1up : m1 <= 2 ^ 53) by lia.
  assert (Hd1 : Zdigits2 m1 <= 54).
  { apply Zdigits2_lt_pow2; lia. }
  assert (Hn2' : n2 = 0 \/ (n2 = 1 /\ m1 = 2 ^ 53)).
  { destruct (Z.eq_dec n2 0) as [E2 | N2]; [left; exact E2 | right].
    assert (Hn : n2 = 1 /\ 54 <= Zdigits2 m1).
    { unfold n2 in *. rewrite fexp64_eq in *. lia. }
    destruct Hn as (En2 & Hd54). split; [exact En2 |].
    destruct (Z_lt_le_dec m1 (2 ^ 53)) as [C |]; [| lia].
    assert (Zdigits2 m1 <= 53) by (apply Zdigits2_lt_pow2; lia). lia. }
  assert (Hm2 : 0 < m1 / 2 ^ n2
                /\ (e1 + n2 <= 0 ->
                    b * 2 ^ (- (e1 + n2)) <= m1 / 2 ^ n2 * 2 ^ (- k))).
  { destruct Hn2' as [-> | (-> & ->)].
    - rewrite Z.pow_0_r, Z.div_1_r, Z.add_0_r. split; [lia |].
      intros He1'. specialize (HA He1'). nia.
    - change (2 ^ 53 / 2 ^ 1) with (2 ^ 52). split; [lia |].
      intros He2. assert (He1' : e1 <= 0) by lia. specialize (HA He1').
      assert (Epow : 2 ^ (- e1) = 2 ^ (- (e1 + 1)) * 2).
      { replace (- e1) with (- (e1 + 1) + 1) by lia.
        rewrite Z.pow_add_r by lia. reflexivity. }
      assert (0 < 2 ^ (- (e1 + 1))) by (apply Z.pow_pos_nonneg; lia).
      rewrite Epow in HA.
      assert (q0 * 2 ^ (- k) <= 2 ^ 53 * 2 ^ (- k)) by nia.
      change (2 ^ 53) with (2 ^ 52 * 2) in *. nia. }
  destruct Hm2 as (Hq2 & HB).
  destruct (m1 / 2 ^ n2 =? 0) eqn:Hz; [apply Z.eqb_eq in Hz; lia |].
  destruct (e1 + n2 <=? emax - prec) eqn:Hov; [| destruct Hup].
  cbn [at_most at_least] in *. destruct Hup as (He2 & _).
  split; [exact He2 |].
  rewrite Z2Pos.id by exact Hq2. apply HB. exact He2.
Qed.

Lemma binary_normalize_at_least : forall z e b k K,
  0 < z -> e <= 0 -> -1074 <= k <= 0 -> 0 < b < 2 ^ 53 ->
  b * 2 ^ (- e) <= z * 2 ^ (- k) ->
  at_most K (binary_normalize prec emax z e false) ->
  at_least b k (binary_normalize prec emax z e false).
Proof.
  intros [| p | p] e b k K Hz He Hk Hb Hle Hup; try lia.
  cbn [binary_normalize] in *. unfold binary_round in *.
  fold (fexp64 (Z.pos (digits2_pos p) + e)) in *.
  set (ex' := fexp64 (Z.pos (digits2_pos p) + e)) in *.
  destruct (shl_align p e ex') as [mz ez] eqn:Hs.
  unfold shl_align in Hs.
  destruct (ex' - e) as [| d | d] eqn:Hd; injection Hs as <- <-.
  - eapply bra_at_least; try eassumption; lia.
  - eapply bra_at_least; try eassumption; lia.
  - change (Pos.iter xO p d) with (Zpower.shift_pos d p) in *.
    assert (Hv : Z.pos (Zpower.shift_pos d p) = Z.pos p * 2 ^ Z.pos d).
    { rewrite Zpower.shift_pos_correct.
      change (Z.pow_pos 2 d) with (2 ^ Z.pos d). lia. }
    eapply bra_at_least; try eassumption; try lia.
    rewrite Hv. replace (- ex') with (- e + Z.pos d) by lia.
    rewrite Z.pow_add_r by lia.
    assert (0 < 2 ^ Z.pos d) by (apply Z.pow_pos_nonneg; lia). nia.
Qed.

(** Integers below 2^53 convert exactly. *)
Lemma of_Z_exact : forall z,
  0 < z < 2 ^ 53 ->
  exists m e, of_Z z = S754_finite false m e /\ e <= 0
              /\ Z.pos m = z * 2 ^ (- e).
Proof.
  intros z Hz.
  assert (U : at_most z (of_Z z)).
  { unfold of_Z. apply binary_normalize_at_most; lia. }
  assert (L : at_least z 0 (of_Z z)).
  { unfold of_Z in *. apply (binary_normalize_at_least z 0 z 0 z); try lia.
    exact U. }
  destruct (of_Z z) as [s | s | | s m e]; cbn [at_least] in L;
    try contradiction.
  destruct s; [contradiction |]. cbn [at_most] in U.
  exists m, e. split; [reflexivity |]. split; [apply L |].
  destruct L as (_ & L). destruct U as (_ & U).
  change (2 ^ (- 0)) with 1 in L. lia.
Qed.


Lemma py_round_at_least : forall L y r,
  at_least L 0 y -> py_round y = Ok r -> L <= r.
Proof.
  intros L [s | s | | s m e] r H Hr; cbn [at_least] in H; try contradiction.
  destruct s; [contradiction |]. destruct H as (He & Hm).
  change (2 ^ (- 0)) with 1 in Hm. rewrite Z.mul_1_r in Hm.
  injection Hr as <-. cbn [cond_Zopp]. unfold round_half_even.
  destruct e as [| pe | pe]; try lia.
  change (- Z.neg pe) with (Z.pos pe) in Hm.
  assert (Hp : 0 < 2 ^ Z.pos pe) by (apply Z.pow_pos_nonneg; lia).
  assert (Hq : L <= Z.pos m / 2 ^ Z.pos pe)
    by (apply Z.div_le_lower_bound; lia).
  destruct (2 * (Z.pos m mod 2 ^ Z.pos pe) ?= 2 ^ Z.pos pe); try lia.
  destruct (Z.even (Z.pos m / 2 ^ Z.pos pe)); lia.
Qed.

(** The clamped ratio is 0, 0.95, or the quotient itself when that lies
    strictly between the two. *)
Lemma clamp_cases : forall q,
  pymax f0 (pymin f0_95 q) = f0
  \/ pymax f0 (pymin f0_95 q) = f0_95
  \/ (pymax f0 (pymin f0_95 q) = q /\ flt f0 q = true /\ flt q f0_95 = true).
Proof.
  intros q. unfold pymax, pymin, fgt.
  destruct (flt q f0_95) eqn:H95.
  - destruct (flt f0 q) eqn:H0; [right; right; repeat split; assumption |].
    left. reflexivity.
  - right. left. reflexivity.
Qed.

(** [1 - ratio] is at least [1 - 0.95], which is
    [450359962737050 * 2^-53], for the clamped ratio. *)
Lemma one_minus_ratio_at_least : forall q,
  at_least 450359962737050 (-53) (fsub f1 (pymax f0 (pymin f0_95 q))).
Proof.
  intros q. pose proof (one_minus_ratio_at_most q) as Hup.
  destruct (clamp_cases q) as [E | [E | (E & H0 & H95)]]; rewrite E in *.
  - vm_compute. split; discriminate.
  - vm_compute. split; discriminate.
  - clear E.
    destruct q as [s | s | | s m e]; try discriminate.
    + destruct s; discriminate.
    + destruct s.
      * unfold flt, fcompare in H0. cbn [expo scaled f0 cond_Zopp] in H0.
        destruct (Z.compare_spec 0 (- (Z.pos m * 2 ^ (e - Z.min 0 e))))
          as [C | C | C]; try discriminate.
        assert (0 < 2 ^ (e - Z.min 0 e)) by (apply Z.pow_pos_nonneg; lia).
        nia.
      * unfold flt, fcompare, f0_95 in H95. cbn [expo scaled cond_Zopp] in H95.
        destruct (Z.compare_spec (Z.pos m * 2 ^ (e - Z.min e (-53)))
                    (Z.pos 8556839292003942 * 2 ^ (-53 - Z.min e (-53))))
          as [C | L | C]; try discriminate.
        unfold fsub, f1, SFsub in *. cbn [cond_Zopp] in *.
        rewrite !shl_align_fst in * by lia.
        change (Z.pos 4503599627370496) with (2 ^ 52) in *.
        destruct (Z_le_gt_dec e (-53)) as [Hle | Hgt].
        -- replace (Z.min e (-53)) with e in L by lia.
           replace (Z.min (-52) e) with e in * by lia.
           replace (e - e) with 0 in * by lia. rewrite Z.pow_0_r in *.
           rewrite Z.mul_1_r in *.
           assert (Hp : 0 < 2 ^ (-53 - e)) by (apply Z.pow_pos_nonneg; lia).
           assert (E1 : 2 ^ (-52 - e) = 2 * 2 ^ (-53 - e)).
           { replace (-52 - e) with (Z.succ (-53 - e)) by lia.
             apply Z.pow_succ_r. lia. }
           assert (E2 : 2 ^ (- e) = 2 ^ 53 * 2 ^ (-53 - e)).
           { rewrite <- Z.pow_add_r by lia. f_equal. lia. }
           eapply binary_normalize_at_least; try exact Hup; try lia.
           all: change (- -53) with 53; rewrite ?E1, ?E2;
             change (2 ^ 52) with 4503599627370496;
             change (2 ^ 53) with 9007199254740992; nia.
        -- replace (Z.min e (-53)) with (-53) in L by lia.
           replace (Z.min (-52) e) with (-52) in * by lia.
           replace (-53 - -53) with 0 in L by lia. rewrite Z.pow_0_r in L.
           replace (-52 - -52) with 0 in * by lia. rewrite Z.pow_0_r in *.
           assert (Hp : 0 < 2 ^ (e - -52)) by (apply Z.pow_pos_nonneg; lia).
           assert (E1 : 2 ^ (e - -53) = 2 * 2 ^ (e - -52)).
           { replace (e - -53) with (Z.succ (e - -52)) by lia.
             apply Z.pow_succ_r. lia. }
           rewrite E1 in L.
           eapply binary_normalize_at_least; try exact Hup; try lia.
           all: change (- -52) with 52; change (- -53) with 53;
             change (2 ^ 52) with 4503599627370496;
             change (2 ^ 53) with 9007199254740992; nia.
Qed.

Lemma fmul_content_at_least : forall C x L,
  0 < C < 2 ^ 53 -> at_most 1 x ->
  at_least 450359962737050 (-53) x ->
  0 < L -> 20 * L <= C ->
  at_least L 0 (fmul (of_Z C) x).
Proof.
  intros C x L HC Hup Hlo HL H20.
  assert (Uc : at_most C (of_Z C)) by (apply of_Z_at_most; lia).
  pose proof (fmul_at_most C 1 (of_Z C) x ltac:(lia) ltac:(lia) ltac:(lia)
                Uc Hup) as Hprod.
  destruct (of_Z_exact C HC) as (mc & ec & Ec & Hec & Hmc).
  rewrite Ec in *.
  destruct x as [s | s | | s mx ex]; cbn [at_least] in Hlo; try contradiction.
  destruct s; [contradiction |]. destruct Hlo as (Hex & Hmx).
  change (- -53) with 53 in Hmx.
  unfold fmul, SFmul in *. cbn [xorb] in *.
  assert (Hp1 : 0 < 2 ^ (- ec)) by (apply Z.pow_pos_nonneg; lia).
  assert (Hp2 : 0 < 2 ^ (- ex)) by (apply Z.pow_pos_nonneg; lia).
  eapply bra_at_least; try exact Hprod; try lia.
  replace (- (ec + ex)) with (- ec + - ex) by lia.
  rewrite Z.pow_add_r by lia. rewrite Pos2Z.inj_mul.
  change (2 ^ (- 0)) with 1. rewrite Z.mul_1_r. rewrite Hmc.
  change (2 ^ 53) with 9007199254740992 in *.
  (* 20 * (1 - 0.95) >= 1 *)
  assert (H1 : L * 2 ^ (- ex) * 9007199254740992
               <= C * (450359962737050 * 2 ^ (- ex))) by nia.
  assert (H2 : C * (450359962737050 * 2 ^ (- ex))
               <= C * (Z.pos mx * 9007199254740992)) by nia.
  assert (H3 : L * 2 ^ (- ex) <= C * Z.pos mx) by nia.
  nia.
Qed.

(** The trim keeps at least a twentieth of the content tokens. *)
Lemma post_trim_keeps_a_twentieth : forall st est p,
  post_trim st est = Ok p -> est < 2 ^ 53 ->
  Z.min est (SYSTEM_OVERHEAD + Z.max 0 (est - SYSTEM_OVERHEAD) / 20) <= p.
Proof.
  intros st est p H Hest. unfold post_trim in H.
  set (content := Z.max 0 (est - SYSTEM_OVERHEAD)) in *.
  assert (Hc0 : 0 <= content / 20) by (apply Z.div_pos; unfold content; lia).
  destruct (0 <? total_bytes st).
  - destruct (removal_ratio st) as [ratio | e] eqn:Hr; cbn [bind] in H;
      [| discriminate].
    destruct (of_int content) as [ct | e] eqn:Hct;
      cbn [bind] in H; [| discriminate].
    destruct (py_round (fmul ct (fsub f1 ratio))) as [r | e] eqn:Hround;
      cbn [bind] in H; [| discriminate].
    injection H as <-.
    assert (Hq : exists q, ratio = pymax f0 (pymin f0_95 q)).
    { unfold removal_ratio in Hr.
      destruct (removed_bytes st); cbn [bind] in Hr; [| discriminate].
      destruct (float_div_int _ _) as [q | e]; cbn [bind] in Hr;
        [| discriminate].
      injection Hr as <-. exists q. reflexivity. }
    destruct Hq as (q & ->).
    assert (Hr0 : content / 20 <= r).
    { destruct (Z.eq_dec (content / 20) 0) as [E0 | N0].
      - rewrite E0. pose proof Hct as Hs. apply of_int_signed in Hs;
          [| unfold content; lia].
        destruct (fmul_signed ct _ Hs (one_minus_ratio_signed q)) as [S | N].
        + eapply py_round_nonneg; eassumption.
        + rewrite N in Hround. discriminate.
      - apply of_int_ok in Hct. destruct Hct as (-> & _).
        assert (H20 : 20 * (content / 20) <= content)
          by (apply Z.mul_div_le; lia).
        eapply py_round_at_least; [| exact Hround].
        apply fmul_content_at_least; try lia.
        + unfold content, SYSTEM_OVERHEAD in *. lia.
        + apply one_minus_ratio_at_most.
        + apply one_minus_ratio_at_least. }
    lia.
  - cbn [bind] in H. injection H as <-. lia.
Qed.






(** * Further properties of the code *)

(** ** The session analyzer *)

(** X1. After a parse that ends without exception, the total counter is
    the byte length of the lines from the last compaction boundary on, the
    boundary included; of all lines when the log has no boundary. *)
Theorem total_is_bytes_since_boundary :
  forall (lines : list line) (st : state),
    run init lines = Ok st ->
    total_bytes st = list_sum (map line_bytes (since_boundary lines)).
Proof.
  intros lines st H. destruct (run_totals lines init st H) as (T & _).
  rewrite T. destruct (existsb is_boundary lines); cbn; lia.
Qed.

Lemma total_is_bytes_since_boundary_witness :
  exists st,
    run init (repeat plain_user 10 ++ [summary_recap; plain_user]) = Ok st
    /\ total_bytes st = line_bytes summary_recap + line_bytes plain_user.
Proof.
  eexists. split; [vm_compute; reflexivity |].
  rewrite (total_is_bytes_since_boundary
             (repeat plain_user 10 ++ [summary_recap; plain_user]) _
             ltac:(vm_compute; reflexivity)).
  vm_compute. reflexivity.
Defined.

(** X2. When no line re-serializes longer than it is, every byte of the
    total lies in exactly one category, except the bytes of a compaction
    boundary without summary that opens the live part of the log: the
    total is the sum of the six categories plus those bytes. *)
Theorem every_byte_in_one_category :
  forall (lines : list line) (st : state),
    run init lines = Ok st ->
    Forall fits lines ->
    total_bytes st = category_sum st + unattributed lines.
Proof.
  intros lines st H Hf. destruct (run_totals lines init st H) as (T & C).
  assert (T' : total_bytes st = list_sum (map line_bytes (since_boundary lines)))
    by (rewrite T; destruct (existsb is_boundary lines); cbn; lia).
  assert (C' : category_sum st = list_sum (map attributed (since_boundary lines)))
    by (rewrite C; destruct (existsb is_boundary lines); cbn; lia).
  rewrite T', C'. unfold unattributed.
  destruct (since_boundary_shape lines)
    as [(_ & ->) | (before & ln & rest & E & -> & N & B)]; [reflexivity |].
  subst lines. apply Forall_app in Hf. destruct Hf as (_ & Hf).
  inversion Hf as [| ? ? Hln Hrest]; subst.
  cbn [map list_sum fold_right].
  fold (list_sum (map attributed rest)). fold (list_sum (map line_bytes rest)).
  rewrite (attributed_sum_fits rest N Hrest).
  destruct (is_boundary ln) eqn:Hb; cbn [andb].
  - unfold attributed. rewrite Hb. destruct (carries_summary ln); cbn [negb]; lia.
  - rewrite (attributed_fits ln Hb Hln). lia.
Qed.

Lemma every_byte_in_one_category_witness :
  exists st,
    run init [plain_user; compact_marker; plain_user; assistant_1200] = Ok st
    /\ total_bytes st = category_sum st + line_bytes compact_marker.
Proof.
  eexists. split; [vm_compute; reflexivity |].
  apply (every_byte_in_one_category
           [plain_user; compact_marker; plain_user; assistant_1200]).
  - vm_compute. reflexivity.
  - repeat constructor; vm_compute; discriminate.
Defined.

(** X3. No counter of the loop is ever negative, and so no byte field and
    no count of a record that the analyzer returns. *)
Theorem counters_never_negative :
  forall (lines : list line) (st : state),
    run init lines = Ok st ->
    nonneg st
    /\ forall f sd,
         read_lines f = Ok lines ->
         analyze_session f = Ok (Some sd) ->
         0 <= SessionData.total_bytes sd
         /\ 0 <= SessionData.tool_result_bytes sd
         /\ 0 <= SessionData.thinking_bytes sd
         /\ 0 <= SessionData.file_history_bytes sd
         /\ 0 <= SessionData.conversation_bytes sd
         /\ 0 <= SessionData.tool_use_bytes sd
         /\ 0 <= SessionData.other_bytes sd
         /\ 0 <= SessionData.tool_result_count sd.
Proof.
  intros lines st H.
  pose proof (run_nonneg lines init st nonneg_init H) as Hn.
  split; [exact Hn |].
  intros f sd Hr Ha.
  destruct (analyze_session_some f sd Ha) as (lines' & st' & Hr' & Hrun & Hs).
  rewrite Hr in Hr'. injection Hr' as <-. rewrite H in Hrun.
  injection Hrun as <-.
  pose proof (summarize_some f st sd Hs) as (_ & _ & _ & _ & T & _).
  pose proof (summarize_fields f st sd Hs)
    as (_ & F1 & F2 & F3 & F4 & F5 & F6 & F7 & _).
  rewrite T, F1, F2, F3, F4, F5, F6, F7.
  unfold nonneg in Hn. repeat split; apply Hn.
Qed.

Lemma counters_never_negative_witness :
  nonneg {| total_bytes := 1220; tool_result_bytes := 1260;
            tool_result_count := 10; thinking_bytes := 0;
            thinking_count := 0; file_history_bytes := 0;
            file_history_count := 0; conversation_bytes := 0;
            tool_use_bytes := 0; tool_use_count := 0; other_bytes := 0;
            content_chars := 0; msg_user := 10; msg_assistant := 0;
            last_api_input_tokens := None;
            content_chars_at_last_api := 0 |}.
Proof.
  apply (counters_never_negative (repeat bulky_line 10)).
  vm_compute. reflexivity.
Defined.



(** X5. A line that holds a JSON value other than an object ([null], a
    number, a string, an array) makes the whole session not analyzable,
    wherever it stands in the file. *)
Theorem non_object_line_voids_session :
  forall (f : session_file) (lines : list line) (ln : line) (j : json),
    read_lines f = Ok lines ->
    In ln lines ->
    parsed ln = Some j ->
    (forall d, j <> JObj d) ->
    analyze_session f = Ok None.
Proof.
  intros f lines ln j Hr Hin Hp Hj. unfold analyze_session.
  destruct (getsize f) as [size |]; [| reflexivity].
  destruct (size <? 100); [reflexivity |].
  rewrite Hr. cbn [bind].
  destruct (run init lines) as [st | e] eqn:Hrun; [| reflexivity].
  destruct (run_steps_each lines init st ln Hrun Hin) as (s & s' & Hs).
  unfold step in Hs. rewrite Hp in Hs.
  destruct j as [| b | z | str | l | d]; try discriminate.
  exfalso. apply (Hj d). reflexivity.
Qed.

Lemma non_object_line_voids_session_witness :
  analyze_session stray_file = Ok None.
Proof.
  apply (non_object_line_voids_session stray_file
           (repeat plain_user 10 ++ [stray_null]) stray_null JNull).
  - reflexivity.
  - apply in_or_app. right. left. reflexivity.
  - reflexivity.
  - discriminate.
Defined.

(** X6. The message count of a returned record is the number of user,
    human and assistant records after the last compaction boundary; it is
    at least 10 and at most the number of such records in the file. *)
Theorem message_count_is_live_turns :
  forall (f : session_file) (lines : list line) (sd : SessionData.t),
    read_lines f = Ok lines ->
    analyze_session f = Ok (Some sd) ->
    SessionData.message_count sd = live_turns lines
    /\ 10 <= SessionData.message_count sd <= total_turns lines.
Proof.
  intros f lines sd Hr Ha.
  destruct (analyze_session_some f sd Ha) as (lines' & st & Hr' & Hrun & Hs).
  rewrite Hr in Hr'. injection Hr' as <-.
  pose proof (summarize_some f st sd Hs) as (G & _ & _ & _ & _ & _ & M).
  pose proof (run_msg_count lines init st Hrun) as C.
  assert (E : msg_count st = live_turns lines).
  { rewrite C. destruct (existsb is_boundary lines); cbn; lia. }
  pose proof (live_turns_le_total lines).
  rewrite M. lia.
Qed.

Lemma message_count_is_live_turns_witness :
  exists sd,
    analyze_session plain_file = Ok (Some sd)
    /\ SessionData.message_count sd = 10.
Proof.
  eexists. split; [vm_compute; reflexivity |].
  apply (message_count_is_live_turns plain_file (repeat plain_user 10) _
           eq_refl ltac:(vm_compute; reflexivity)).
Defined.

(** X7. The estimate of a returned record is never below the last total
    of input tokens that an assistant record reported, which is positive;
    without any such report it is never below the system overhead. *)
Theorem estimate_at_least_api_total :
  forall (f : session_file) (lines : list line) (st : state)
         (sd : SessionData.t),
    read_lines f = Ok lines ->
    run init lines = Ok st ->
    analyze_session f = Ok (Some sd) ->
    match last_api_input_tokens st with
    | Some api => 0 < api <= SessionData.estimated_tokens sd
    | None => SYSTEM_OVERHEAD <= SessionData.estimated_tokens sd
    end.
Proof.
  intros f lines st sd Hr Hrun Ha.
  destruct (analyze_session_some f sd Ha) as (lines' & st' & Hr' & Hrun' & Hs).
  rewrite Hr in Hr'. injection Hr' as <-. rewrite Hrun in Hrun'.
  injection Hrun' as <-.
  pose proof (summarize_some f st sd Hs) as (_ & E & _).
  pose proof (run_api_inv lines init st api_inv_init Hrun) as ((I1 & I2) & I3).
  rewrite E. unfold estimate.
  destruct (last_api_input_tokens st) as [api |].
  - specialize (I3 api eq_refl).
    assert (0 <= (content_chars st - content_chars_at_last_api st) / 4)
      by (apply Z.div_pos; lia).
    lia.
  - assert (0 <= content_chars st / 4) by (apply Z.div_pos; lia). lia.
Qed.

Lemma estimate_at_least_api_total_witness :
  exists sd,
    analyze_session metered_file = Ok (Some sd)
    /\ 0 < 1200 <= SessionData.estimated_tokens sd.
Proof.
  eexists. split; [vm_compute; reflexivity |].
  apply (estimate_at_least_api_total metered_file
           (assistant_1200 :: repeat plain_user 10)
           {| total_bytes := 652; tool_result_bytes := 0;
              tool_result_count := 0; thinking_bytes := 0;
              thinking_count := 0; file_history_bytes := 0;
              file_history_count := 0; conversation_bytes := 652;
              tool_use_bytes := 0; tool_use_count := 0; other_bytes := 0;
              content_chars := 50; msg_user := 10; msg_assistant := 1;
              last_api_input_tokens := Some 1200;
              content_chars_at_last_api := 0 |}).
  - reflexivity.
  - vm_compute. reflexivity.
  - vm_compute. reflexivity.
Defined.

(** X8. The tool-result percentage of a returned record is never
    negative, and it is at most 100 when no line of the log re-serializes
    longer than it is. *)
Theorem tool_result_pct_range :
  forall (f : session_file) (lines : list line) (sd : SessionData.t),
    read_lines f = Ok lines ->
    analyze_session f = Ok (Some sd) ->
    0 <= SessionData.tool_result_byte_pct sd
    /\ (Forall fits lines -> SessionData.tool_result_byte_pct sd <= 100).
Proof.
  intros f lines sd Hr Ha.
  destruct (analyze_session_some f sd Ha) as (lines' & st & Hr' & Hrun & Hs).
  rewrite Hr in Hr'. injection Hr' as <-.
  pose proof (run_nonneg lines init st nonneg_init Hrun) as Hn.
  pose proof (summarize_fields f st sd Hs) as (P & _).
  destruct (tool_result_pct_bounds st _ Hn P) as (L & U).
  split; [exact L |]. intros Hf. apply U.
  assert (G : category_sum st <= total_bytes st).
  { apply (run_total_ge lines init st Hf); [cbn; lia | exact Hrun]. }
  unfold category_sum in G. unfold nonneg in Hn. lia.
Qed.

Lemma tool_result_pct_range_witness :
  exists sd,
    analyze_session plain_file = Ok (Some sd)
    /\ 0 <= SessionData.tool_result_byte_pct sd <= 100.
Proof.
  eexists. split; [vm_compute; reflexivity |].
  destruct (tool_result_pct_range plain_file (repeat plain_user 10) _
              eq_refl ltac:(vm_compute; reflexivity)) as (L & U).
  split; [exact L |]. apply U.
  repeat constructor; vm_compute; discriminate.
Defined.

(** ** The cost projector *)

(** X9. For up to 10^6 turns (arrays that numpy allocates),
    [project_costs] returns exactly when both token counts convert to a
    float, that is, are below [2^1024 - 2^970] in absolute value;
    otherwise it raises [OverflowError]. What it returns has one entry per
    turn in each of its three arrays; the break-even lies in
    [1, max_turns] when there is a turn, and is [max_turns] itself when
    [max_turns <= 0]. *)
Theorem project_costs_returns_or_overflows :
  forall (pre post : Z) (p : pricing) (hit_rate : float) (max_turns : Z),
    max_turns <= 10 ^ 6 ->
    (convertible pre -> convertible post ->
     exists proj, project_costs pre post p hit_rate max_turns = Ok proj)
    /\ (~ convertible pre \/ ~ convertible post ->
        project_costs pre post p hit_rate max_turns = Raise OverflowError)
    /\ (forall proj,
           project_costs pre post p hit_rate max_turns = Ok proj ->
           List.length (turns proj) = Z.to_nat max_turns
           /\ List.length (no_trim proj) = Z.to_nat max_turns
           /\ List.length (with_trim proj) = Z.to_nat max_turns
           /\ (1 <= max_turns -> 1 <= breakeven proj <= max_turns)
           /\ (max_turns <= 0 -> breakeven proj = max_turns)).
Proof.
  intros pre post p h m _. split; [| split].
  - intros C1 C2. apply project_costs_returns; assumption.
  - intros H. apply project_costs_overflows. exact H.
  - intros proj H.
    destruct (project_costs_inv _ _ _ _ _ _ H) as (pc & ps & pf & H1 & H2 & H3).
    destruct (project_costs_arrays pre post p h m pc ps pf H1 H2 H3)
      as (proj' & Hp & Ht & Hn & Hw & Hb).
    rewrite H in Hp. injection Hp as <-.
    rewrite Ht, Hn, Hw, !length_map, arange1_length.
    repeat split; try reflexivity.
    + eapply project_costs_breakeven_range; eassumption.
    + eapply project_costs_breakeven_range; eassumption.
    + intros Hm. rewrite Hb. unfold arange1.
      replace (Z.to_nat m) with 0%nat by lia. reflexivity.
Qed.

Lemma project_costs_returns_or_overflows_witness :
  (exists proj,
      project_costs (2 ^ 1024 - 2 ^ 970 - 1) 20000 PRICING_sonnet f0_9 60
      = Ok proj
      /\ List.length (no_trim proj) = 60%nat
      /\ 1 <= breakeven proj <= 60)
  /\ project_costs (2 ^ 1024 - 2 ^ 970) 20000 PRICING_sonnet f0_9 60
     = Raise OverflowError
  /\ (exists proj,
         project_costs 100000 20000 PRICING_sonnet f0_9 0 = Ok proj
         /\ breakeven proj = 0).
Proof.
  split; [| split].
  - destruct (proj1 (project_costs_returns_or_overflows
                       (2 ^ 1024 - 2 ^ 970 - 1) 20000 PRICING_sonnet f0_9 60
                       ltac:(vm_compute; discriminate)))
      as (proj & H); [vm_compute; reflexivity | vm_compute; reflexivity |].
    exists proj. split; [exact H |].
    destruct (proj2 (proj2 (project_costs_returns_or_overflows
                              (2 ^ 1024 - 2 ^ 970 - 1) 20000 PRICING_sonnet
                              f0_9 60 ltac:(vm_compute; discriminate)))
                proj H) as (_ & L & _ & B & _).
    split; [exact L | apply B; lia].
  - apply (proj1 (proj2 (project_costs_returns_or_overflows
                           (2 ^ 1024 - 2 ^ 970) 20000 PRICING_sonnet f0_9 60
                           ltac:(vm_compute; discriminate)))).
    left. vm_compute. discriminate.
  - destruct (proj1 (project_costs_returns_or_overflows
                       100000 20000 PRICING_sonnet f0_9 0
                       ltac:(vm_compute; discriminate)))
      as (proj & H); [vm_compute; reflexivity | vm_compute; reflexivity |].
    exists proj. split; [exact H |].
    apply (proj2 (proj2 (project_costs_returns_or_overflows
                           100000 20000 PRICING_sonnet f0_9 0
                           ltac:(vm_compute; discriminate))) proj H).
    lia.
Defined.

(** X10. In the practical range (token counts below 2^32, a hit rate
    between 0 and 1, rates per million tokens of at most 100, at most 1024
    turns) [project_costs] returns, every cumulative cost of its two curves
    is finite, and the break-even is the first turn at which the cost with
    the trim is at most the cost without it, or [max_turns] when there is
    no such turn. *)
Theorem breakeven_in_practical_range :
  forall (pre post : Z) (p : pricing) (hit_rate : float) (max_turns : Z),
    0 <= pre < 2 ^ 32 -> 0 <= post < 2 ^ 32 ->
    at_most 1 hit_rate ->
    at_most 100 (cache_read p) -> at_most 100 (cache_write p) ->
    1 <= max_turns <= 1024 ->
    exists proj pre_cost post_first post_steady,
      cost_per_turn pre hit_rate p = Ok pre_cost
      /\ cold_cost post p = Ok post_first
      /\ cost_per_turn post hit_rate p = Ok post_steady
      /\ project_costs pre post p hit_rate max_turns = Ok proj
      /\ no_trim proj = map (no_trim_at pre_cost) (turns proj)
      /\ with_trim proj
         = map (with_trim_at post_first post_steady) (turns proj)
      /\ Forall (fun c => is_finite c = true) (no_trim proj)
      /\ Forall (fun c => is_finite c = true) (with_trim proj)
      /\ first_turn_or_max (saving_turn pre_cost post_first post_steady)
           max_turns (breakeven proj).
Proof. exact practical_projection. Qed.

Lemma breakeven_in_practical_range_witness :
  exists proj pre_cost post_first post_steady,
    cost_per_turn 100000 f0_9 PRICING_sonnet = Ok pre_cost
    /\ cold_cost 20000 PRICING_sonnet = Ok post_first
    /\ cost_per_turn 20000 f0_9 PRICING_sonnet = Ok post_steady
    /\ project_costs 100000 20000 PRICING_sonnet f0_9 60 = Ok proj
    /\ no_trim proj = map (no_trim_at pre_cost) (turns proj)
    /\ with_trim proj
       = map (with_trim_at post_first post_steady) (turns proj)
    /\ Forall (fun c => is_finite c = true) (no_trim proj)
    /\ Forall (fun c => is_finite c = true) (with_trim proj)
    /\ first_turn_or_max (saving_turn pre_cost post_first post_steady)
         60 (breakeven proj).
Proof.
  apply (breakeven_in_practical_range 100000 20000 PRICING_sonnet f0_9 60).
  - lia.
  - lia.
  - split; [lia | vm_compute; discriminate].
  - split; [vm_compute; discriminate | vm_compute; discriminate].
  - split; [vm_compute; discriminate | vm_compute; discriminate].
  - lia.
Defined.

(** X11. In the practical range and with at least two turns, the
    break-even is turn 1 exactly when the cold rewrite of the trimmed
    context costs no more than one warm turn of the untrimmed one. *)
Theorem immediate_breakeven_iff :
  forall (pre post : Z) (p : pricing) (hit_rate : float) (max_turns : Z),
    0 <= pre < 2 ^ 32 -> 0 <= post < 2 ^ 32 ->
    at_most 1 hit_rate ->
    at_most 100 (cache_read p) -> at_most 100 (cache_write p) ->
    2 <= max_turns <= 1024 ->
    exists proj pre_cost post_first,
      cost_per_turn pre hit_rate p = Ok pre_cost
      /\ cold_cost post p = Ok post_first
      /\ project_costs pre post p hit_rate max_turns = Ok proj
      /\ (breakeven proj = 1 <-> fle post_first pre_cost = true).
Proof.
  intros pre post p h m Hpre Hpost Hh Hr Hw Hm.
  destruct (practical_projection pre post p h m Hpre Hpost Hh Hr Hw
              ltac:(lia))
    as (proj & pc & pf & ps & Hpc & Hpf & Hps & Hproj & _ & _ & _ & _ & Hbe).
  exists proj, pc, pf. repeat (split; [assumption |]).
  assert (Fpc : is_finite pc = true).
  { destruct (cost_per_turn_at_most pre h p (2 ^ 32) 100) as (c & Hc & A);
      try assumption; try lia.
    rewrite Hpc in Hc. injection Hc as <-. eapply at_most_finite; exact A. }
  assert (Fps : is_finite ps = true).
  { destruct (cost_per_turn_at_most post h p (2 ^ 32) 100) as (c & Hc & A);
      try assumption; try lia.
    rewrite Hps in Hc. injection Hc as <-. eapply at_most_finite; exact A. }
  assert (Fpf : is_finite pf = true).
  { destruct (cold_cost_at_most post p (2 ^ 32) 100) as (c & Hc & A);
      try assumption; try lia.
    rewrite Hpf in Hc. injection Hc as <-. eapply at_most_finite; exact A. }
  rewrite <- (saving_turn_1 pc pf ps
                (cost_per_turn_wv pre h p pc Hpc) Fpc Fps Fpf).
  destruct Hbe as (Hrange & [(Hb & Hlt) | (Hb & Hall)]).
  - split.
    + intros E. rewrite E in Hb. exact Hb.
    + intros S1.
      destruct (Z.eq_dec (breakeven proj) 1) as [E | N]; [exact E |].
      rewrite (Hlt 1) in S1 by lia. discriminate.
  - split.
    + intros E. lia.
    + intros S1. rewrite (Hall 1) in S1 by lia. discriminate.
Qed.

Lemma immediate_breakeven_iff_witness :
  exists proj pre_cost post_first,
    cost_per_turn 100000 f0_9 PRICING_sonnet = Ok pre_cost
    /\ cold_cost 100000 PRICING_sonnet = Ok post_first
    /\ project_costs 100000 100000 PRICING_sonnet f0_9 60 = Ok proj
    /\ (breakeven proj = 1 <-> fle post_first pre_cost = true).
Proof.
  apply (immediate_breakeven_iff 100000 100000 PRICING_sonnet f0_9 60).
  - lia.
  - lia.
  - split; [lia | vm_compute; discriminate].
  - split; [vm_compute; discriminate | vm_compute; discriminate].
  - split; [vm_compute; discriminate | vm_compute; discriminate].
  - lia.
Defined.

(** ** The parameters of [main] *)

(** X12. For every value of the cache-rate option the hit rate that [main]
    derives is computed without exception and lies between 0 and 1; with it
    and any of the four built-in price lists, for token counts below 2^32,
    the break-even over 60 turns is the first turn at which the cost with
    the trim is at most the cost without it, or 60. *)
Theorem builtin_breakeven_is_first_saving_turn :
  forall (key : string) (p : pricing) (cache_rate pre post : Z),
    In (key, p) PRICING ->
    0 <= pre < 2 ^ 32 -> 0 <= post < 2 ^ 32 ->
    exists h proj pre_cost post_first post_steady,
      hit_rate_of cache_rate = Ok h
      /\ fle f0 h = true /\ fle h f1 = true
      /\ cost_per_turn pre h p = Ok pre_cost
      /\ cold_cost post p = Ok post_first
      /\ cost_per_turn post h p = Ok post_steady
      /\ project_costs pre post p h 60 = Ok proj
      /\ first_turn_or_max (saving_turn pre_cost post_first post_steady)
           60 (breakeven proj).
Proof.
  intros key p c pre post Hin Hpre Hpost.
  destruct (hit_rate_of_range c) as (h & Hh & Ah).
  destruct (PRICING_rates key p Hin) as (Ar & Aw).
  destruct (practical_projection pre post p h 60 Hpre Hpost Ah Ar Aw
              ltac:(lia))
    as (proj & pc & pf & ps & Hpc & Hpf & Hps & Hproj & _ & _ & _ & _ & Hbe).
  destruct (at_most_1_fle h Ah) as (L & U).
  exists h, proj, pc, pf, ps. repeat (split; [assumption |]). exact Hbe.
Qed.

Lemma builtin_breakeven_is_first_saving_turn_witness :
  exists h proj pre_cost post_first post_steady,
    hit_rate_of 90 = Ok h
    /\ fle f0 h = true /\ fle h f1 = true
    /\ cost_per_turn 100000 h PRICING_opus = Ok pre_cost
    /\ cold_cost 20000 PRICING_opus = Ok post_first
    /\ cost_per_turn 20000 h PRICING_opus = Ok post_steady
    /\ project_costs 100000 20000 PRICING_opus h 60 = Ok proj
    /\ first_turn_or_max (saving_turn pre_cost post_first post_steady)
         60 (breakeven proj).
Proof.
  apply (builtin_breakeven_is_first_saving_turn "opus" PRICING_opus 90
           100000 20000).
  - right. left. reflexivity.
  - lia.
  - lia.
Defined.

(** ** The ground-truth adapter *)

(** X13. On a ground-truth file whose entries have the documented shape
    (a string [sessionId], integer [estimatedTokens] and [postTrimTokens],
    a numeric [reductionPercent], optional keys of their documented
    types), the adapter returns one record per entry, in the order of the
    file and under the entry's session id, each with a break-even between
    1 and 60. It returns when the token counts of all entries convert to
    floats; when a token count of some entry does not, it raises
    [OverflowError] and returns no record for any entry. *)
Theorem adapter_one_record_per_entry :
  forall (sessions : list entry) (p : pricing) (hit_rate : float),
    (forall records,
        load_from_json sessions p hit_rate = Ok records ->
        map SessionData.session_id records = map sessionId sessions
        /\ Forall (fun sd => 1 <= SessionData.breakeven_turns sd <= 60)
             records)
    /\ (Forall (fun s => convertible (estimatedTokens s)
                         /\ convertible (postTrimTokens s)) sessions ->
        exists records, load_from_json sessions p hit_rate = Ok records)
    /\ (Exists (fun s => ~ convertible (estimatedTokens s)
                         \/ ~ convertible (postTrimTokens s)) sessions ->
        load_from_json sessions p hit_rate = Raise OverflowError).
Proof.
  intros sessions p h. split; [| split].
  - induction sessions as [| s rest IH]; intros records H;
      cbn [load_from_json] in H.
    + injection H as <-. split; [reflexivity | constructor].
    + destruct (load_entry p h s) as [sd | e] eqn:Hs; cbn [bind] in H;
        [| discriminate].
      destruct (load_from_json rest p h) as [more | e]; cbn [bind] in H;
        [| discriminate].
      injection H as <-. destruct (IH more eq_refl) as (I1 & I2).
      destruct (load_entry_id p h s sd Hs) as (E & B).
      cbn [map]. rewrite E, I1. split; [reflexivity |].
      constructor; assumption.
  - induction sessions as [| s rest IH]; intros Hall;
      cbn [load_from_json].
    + eexists. reflexivity.
    + inversion Hall as [| ? ? (C1 & C2) Hrest]; subst.
      destruct (project_costs_returns (estimatedTokens s) (postTrimTokens s)
                  p h 60 C1 C2) as (proj & Hp).
      unfold load_entry. rewrite Hp. cbn [bind].
      destruct (IH Hrest) as (more & ->). cbn [bind].
      eexists. reflexivity.
  - induction sessions as [| s rest IH]; intros Hex;
      [inversion Hex |].
    cbn [load_from_json].
    destruct (project_costs (estimatedTokens s) (postTrimTokens s) p h 60)
      as [proj | e] eqn:Hp.
    + unfold load_entry. rewrite Hp. cbn [bind].
      inversion Hex as [? ? Hbad | ? ? Hlater]; subst.
      * rewrite (project_costs_overflows _ _ p h 60 Hbad) in Hp.
        discriminate.
      * rewrite (IH Hlater). reflexivity.
    + unfold load_entry. rewrite Hp. cbn [bind].
      destruct (project_costs_raises _ _ _ _ _ _ Hp) as (-> & _).
      reflexivity.
Qed.

Lemma adapter_one_record_per_entry_witness :
  (exists records,
      load_from_json [stale_entry; inflated_entry] PRICING_sonnet f0_9
      = Ok records
      /\ map SessionData.session_id records = ["s1"; "s2"])
  /\ load_from_json [stale_entry; oversized_entry] PRICING_sonnet f0_9
     = Raise OverflowError.
Proof.
  split.
  - destruct (proj1 (proj2 (adapter_one_record_per_entry
                              [stale_entry; inflated_entry]
                              PRICING_sonnet f0_9)))
      as (records & H);
      [repeat constructor; vm_compute; reflexivity |].
    exists records. split; [exact H |].
    apply (proj1 (adapter_one_record_per_entry
                    [stale_entry; inflated_entry] PRICING_sonnet f0_9)
             records H).
  - apply (proj2 (proj2 (adapter_one_record_per_entry
                           [stale_entry; oversized_entry]
                           PRICING_sonnet f0_9))).
    apply Exists_cons_tl. apply Exists_cons_hd.
    left. vm_compute. discriminate.
Defined.

(** ** The loop of the standalone mode *)

(** X14. Every record of the batch comes from a file of the batch that the
    analyzer accepted, carries that file's stem as its id, has at least
    [min_tokens] estimated tokens, at least 10 messages and a break-even
    between 1 and 60; there are no more records than files. When the
    counters of every file stay of moderate size, the loop ends without
    exception. *)
Theorem standalone_batch_records :
  forall (p : pricing) (hit_rate : float) (min_tokens : Z)
         (files : list session_file),
    (forall records,
        analyze_all p hit_rate min_tokens files = Ok records ->
        Forall
          (fun sd =>
             (exists f sa,
                 In f files
                 /\ analyze_session f = Ok (Some sa)
                 /\ with_costs p hit_rate sa = Ok sd
                 /\ SessionData.session_id sd = stem f)
             /\ min_tokens <= SessionData.estimated_tokens sd
             /\ 10 <= SessionData.message_count sd
             /\ 1 <= SessionData.breakeven_turns sd <= 60)
          records
        /\ (List.length records <= List.length files)%nat)
    /\ (Forall tame files ->
        exists records, analyze_all p hit_rate min_tokens files = Ok records).
Proof.
  intros p h m files. split.
  - induction files as [| f rest IH]; intros records H;
      cbn [analyze_all] in H.
    + injection H as <-. split; [constructor | cbn; lia].
    + destruct (analyze_session f) as [sa | e] eqn:Ha; cbn [bind] in H;
        [| discriminate].
      assert (Hrest : forall here more,
                 analyze_all p h m rest = Ok more ->
                 Forall
                   (fun sd =>
                      (exists f0 sa0,
                          In f0 (f :: rest)
                          /\ analyze_session f0 = Ok (Some sa0)
                          /\ with_costs p h sa0 = Ok sd
                          /\ SessionData.session_id sd = stem f0)
                      /\ m <= SessionData.estimated_tokens sd
                      /\ 10 <= SessionData.message_count sd
                      /\ 1 <= SessionData.breakeven_turns sd <= 60) here ->
                 (List.length here <= 1)%nat ->
                 Forall
                   (fun sd =>
                      (exists f0 sa0,
                          In f0 (f :: rest)
                          /\ analyze_session f0 = Ok (Some sa0)
                          /\ with_costs p h sa0 = Ok sd
                          /\ SessionData.session_id sd = stem f0)
                      /\ m <= SessionData.estimated_tokens sd
                      /\ 10 <= SessionData.message_count sd
                      /\ 1 <= SessionData.breakeven_turns sd <= 60)
                   (here ++ more)
                 /\ (List.length (here ++ more) <= List.length (f :: rest))%nat).
      { intros here more Hm Hh Hl. destruct (IH more Hm) as (I1 & I2).
        split.
        - apply Forall_app. split; [exact Hh |].
          eapply Forall_impl; [| exact I1].
          intros sd ((f0 & sa0 & Hin & R) & Q). split; [| exact Q].
          exists f0, sa0. split; [right; exact Hin | exact R].
        - rewrite length_app. cbn [List.length]. lia. }
      destruct sa as [sa |].
      * destruct (m <=? SessionData.estimated_tokens sa) eqn:Hmin.
        -- destruct (with_costs p h sa) as [sd | e] eqn:Hw; cbn [bind] in H;
             [| discriminate].
           destruct (analyze_all p h m rest) as [more | e] eqn:Hm;
             cbn [bind] in H; [| discriminate].
           injection H as <-.
           apply (Hrest [sd] more); [reflexivity | | cbn; lia].
           constructor; [| constructor].
           apply Z.leb_le in Hmin.
           destruct (with_costs_fields p h sa sd Hw) as (F1 & F2 & _ & F4 & F5).
           destruct (analyze_session_some f sa Ha) as (lines & st & _ & _ & Hs).
           pose proof (summarize_some f st sa Hs) as (G & _ & _ & _ & _ & _ & M).
           pose proof (summarize_fields f st sa Hs)
             as (_ & _ & _ & _ & _ & _ & _ & _ & _ & _ & _ & Sid & _).
           split; [| rewrite F2, F4, M; repeat split; try lia].
           exists f, sa. repeat split; try assumption;
             [left; reflexivity | congruence].
        -- cbn [bind] in H.
           destruct (analyze_all p h m rest) as [more | e] eqn:Hm;
             cbn [bind] in H; [| discriminate].
           injection H as <-.
           apply (Hrest [] more); [reflexivity | constructor | cbn; lia].
      * cbn [bind] in H.
        destruct (analyze_all p h m rest) as [more | e] eqn:Hm;
          cbn [bind] in H; [| discriminate].
        injection H as <-.
           apply (Hrest [] more); [reflexivity | constructor | cbn; lia].
  - induction files as [| f rest IH]; intros Hall; cbn [analyze_all].
    + eexists. reflexivity.
    + inversion Hall as [| ? ? Hf Hrest]; subst.
      destruct (analyze_session_total f Hf) as (r & Ha). rewrite Ha.
      cbn [bind]. destruct (IH Hrest) as (more & Hm).
      destruct r as [sa |].
      * destruct (m <=? SessionData.estimated_tokens sa).
        -- destruct (analyze_session_convertible f sa Hf Ha) as (C1 & C2).
           destruct (with_costs_returns p h sa C1 C2) as (sd & ->).
           cbn [bind]. rewrite Hm. cbn [bind]. eexists. reflexivity.
        -- cbn [bind]. rewrite Hm. cbn [bind]. eexists. reflexivity.
      * cbn [bind]. rewrite Hm. cbn [bind]. eexists. reflexivity.
Qed.

Lemma standalone_batch_records_witness :
  exists records,
    analyze_all PRICING_sonnet f0_9 5000 [plain_file; compacted_file]
    = Ok records
    /\ (List.length records <= 2)%nat.
Proof.
  destruct (proj2 (standalone_batch_records PRICING_sonnet f0_9 5000
                     [plain_file; compacted_file]))
    as (records & H).
  - apply Forall_cons; [| apply Forall_cons; [| apply Forall_nil]];
      intros lines st Hr Hrun;
      injection Hr as <-; vm_compute in Hrun; injection Hrun as <-;
      vm_compute; repeat split; congruence.
  - exists records. split; [exact H |].
    apply (proj1 (standalone_batch_records PRICING_sonnet f0_9 5000
                    [plain_file; compacted_file]) records H).
Defined.

(** ** Tier analysis *)

(** X15. Whatever numpy's reductions return, [classify_tiers] counts
    every session in exactly one tier, the tier of its tool-result
    percentage: the three counts are the sizes of the three classes and
    add up to the number of sessions; a tier is reported without
    statistics exactly when its count is 0. *)
Theorem classify_tiers_counts_every_session_once :
  forall (np_mean np_median : list float -> float)
         (np_mean_int np_median_int : list Z -> result float)
         (sessions : list SessionData.t) (table : tier_table),
    classify_tiers np_mean np_median np_mean_int np_median_int sessions
    = Ok table ->
    tier_count (of_tool_heavy table)
    = Z.of_nat (List.length (tier_sessions tool_heavy sessions))
    /\ tier_count (of_mixed table)
       = Z.of_nat (List.length (tier_sessions mixed sessions))
    /\ tier_count (of_conversational table)
       = Z.of_nat (List.length (tier_sessions conversational sessions))
    /\ tier_count (of_tool_heavy table) + tier_count (of_mixed table)
       + tier_count (of_conversational table)
       = Z.of_nat (List.length sessions)
    /\ (tier_statistics (of_tool_heavy table) = None
        <-> tier_count (of_tool_heavy table) = 0)
    /\ (tier_statistics (of_mixed table) = None
        <-> tier_count (of_mixed table) = 0)
    /\ (tier_statistics (of_conversational table) = None
        <-> tier_count (of_conversational table) = 0).
Proof.
  intros f1' f2 f3 f4 sessions table H. unfold classify_tiers in H.
  destruct (tier_entry_of f1' f2 f3 f4 tool_heavy _) as [th | e] eqn:H1;
    cbn [bind] in H; [| discriminate].
  destruct (tier_entry_of f1' f2 f3 f4 mixed _) as [mx | e] eqn:H2;
    cbn [bind] in H; [| discriminate].
  destruct (tier_entry_of f1' f2 f3 f4 conversational _) as [cv | e] eqn:H3;
    cbn [bind] in H; [| discriminate].
  injection H as <-. cbn [of_tool_heavy of_mixed of_conversational].
  apply tier_entry_of_count in H1, H2, H3.
  destruct H1 as (C1 & _ & S1). destruct H2 as (C2 & _ & S2).
  destruct H3 as (C3 & _ & S3).
  pose proof (tier_partition sessions) as P.
  assert (Hnil : forall (l : list SessionData.t),
             l = [] <-> Z.of_nat (List.length l) = 0).
  { intros l. destruct l; cbn [List.length]; split; intros E;
      try reflexivity; try discriminate; lia. }
  rewrite C1, C2, C3.
  split; [reflexivity |]. split; [reflexivity |]. split; [reflexivity |].
  split; [lia |].
  split; [rewrite S1; apply Hnil |].
  split; [rewrite S2; apply Hnil | rewrite S3; apply Hnil].
Qed.

Lemma classify_tiers_counts_every_session_once_witness :
  exists table,
    classify_tiers (fun _ => f0) (fun _ => f0) (fun _ => Ok f0)
      (fun _ => Ok f0)
      [record_with_pct 41; record_with_pct 16; record_with_pct 50] = Ok table
    /\ tier_count (of_tool_heavy table) = 2
    /\ tier_count (of_mixed table) = 1
    /\ tier_count (of_conversational table) = 0
    /\ tier_statistics (of_conversational table) = None.
Proof.
  eexists. split; [vm_compute; reflexivity |].
  pose proof (classify_tiers_counts_every_session_once
                (fun _ => f0) (fun _ => f0) (fun _ => Ok f0) (fun _ => Ok f0)
                [record_with_pct 41; record_with_pct 16; record_with_pct 50]
                _ eq_refl) as (A & B & C & _ & _ & _ & D).
  split; [exact A |]. split; [exact B |]. split; [exact C |].
  apply D. exact C.
Defined.

(** ** The trimming heuristic *)

(** X16. Trimming is never estimated to remove more than 95% of the
    content tokens, whatever the byte breakdown: for an estimate of at
    least the system overhead (and below 2^53), the post-trim count of a
    returned record is at least the overhead plus a twentieth, rounded
    down, of the tokens above the overhead. *)
Theorem trim_keeps_a_twentieth_of_content :
  forall (f : session_file) (sd : SessionData.t),
    analyze_session f = Ok (Some sd) ->
    SYSTEM_OVERHEAD <= SessionData.estimated_tokens sd < 2 ^ 53 ->
    SYSTEM_OVERHEAD + (SessionData.estimated_tokens sd - SYSTEM_OVERHEAD) / 20
    <= SessionData.post_trim_tokens sd.
Proof.
  intros f sd Ha [Hlo Hhi].
  destruct (analyze_session_some f sd Ha) as (lines & st & _ & _ & Hs).
  pose proof (summarize_some f st sd Hs) as (_ & E & P & _).
  rewrite E in *.
  pose proof (post_trim_keeps_a_twentieth st _ _ P Hhi) as B.
  assert (0 <= (estimate st - SYSTEM_OVERHEAD) / 20)
    by (apply Z.div_pos; lia).
  assert ((estimate st - SYSTEM_OVERHEAD) / 20 <= estimate st - SYSTEM_OVERHEAD)
    by (apply Z.div_le_upper_bound; lia).
  replace (Z.max 0 (estimate st - SYSTEM_OVERHEAD))
    with (estimate st - SYSTEM_OVERHEAD) in B by lia.
  lia.
Qed.

Lemma trim_keeps_a_twentieth_of_content_witness :
  exists sd,
    analyze_session snapshot_file = Ok (Some sd)
    /\ SessionData.estimated_tokens sd = 120000
    /\ SessionData.post_trim_tokens sd = 25000
    /\ 20000 + (120000 - 20000) / 20 <= SessionData.post_trim_tokens sd.
Proof.
  eexists. split; [vm_compute; reflexivity |].
  split; [reflexivity |]. split; [reflexivity |].
  apply (trim_keeps_a_twentieth_of_content snapshot_file _
           ltac:(vm_compute; reflexivity)).
  vm_compute. split; [discriminate | reflexivity].
Defined.



